(** * airanges: the /api/sp500 aggregation pipeline of the Express server

    A shallow embedding of the most recent server variant (the one with
    [range] and [limit] query parameters and the [sessionsMap] table):
    [getTopTickers], [latest15mClose], [hourlyChangeFromIntervals],
    [fetchEodHistory], [eodChangeVsLatest15m] and the [/api/sp500]
    handler with its [worker] and its chunked [Promise.all] loop.

    JavaScript numbers are IEEE-754 binary64 values, modelled by Rocq's
    primitive floats; array lengths, indices and the small integer
    constants of the handler are modelled by [nat] and [Z], which is exact
    in their range.  Strings are sequences of code units below 256; the
    encoding of a range by the client is also given on every sequence of
    16-bit code units. *)

From Stdlib Require Import Floats ZArith Ascii String.
From stdpp Require Import base option list strings pretty gmap.

Set Warnings "-register-all".
Local Open Scope string_scope.

(** ** JavaScript values *)

Module Js.

(** Values as [JSON.parse] and property reads produce them.  An object is
    the list of its own properties, first binding wins. *)
Inductive JsVal : Type :=
| JUndefined
| JNull
| JBool (b : bool)
| JNum (x : float)
| JStr (s : string)
| JArr (xs : list JsVal)
| JObj (fields : list (string * JsVal)).

(** Outcome of an [await]ed computation: a value or a thrown failure,
    kept by its [message] (empty when the thrown value has none). *)
Inductive Result (A : Type) : Type :=
| Ok (a : A)
| Throw (message : string).
Arguments Ok {A} a.
Arguments Throw {A} message.

Definition bind {A B} (r : Result A) (k : A -> Result B) : Result B :=
  match r with
  | Ok a => k a
  | Throw m => Throw m
  end.

Notation "x <- r ;; k" := (bind r (fun x => k))
  (at level 100, r at next level, right associativity, only parsing).

(** [typeof v === 'number'] *)
Definition is_number (v : JsVal) : bool :=
  match v with JNum _ => true | _ => false end.

(** [x === 0] on numbers: true at both zeros, false at NaN. *)
Definition is_zero (x : float) : bool := PrimFloat.eqb x 0%float.

(** ToBoolean *)
Definition truthy (v : JsVal) : bool :=
  match v with
  | JUndefined | JNull => false
  | JBool b => b
  | JNum x => negb (is_zero x || PrimFloat.is_nan x)
  | JStr s => negb (String.eqb s "")
  | JArr _ | JObj _ => true
  end.

(** [a || b] *)
Definition or_else (a b : JsVal) : JsVal := if truthy a then a else b.

Fixpoint assoc (k : string) (fields : list (string * JsVal)) : JsVal :=
  match fields with
  | [] => JUndefined
  | (k', v) :: rest => if String.eqb k k' then v else assoc k rest
  end.

(** [v.k] for the property names this program reads ([intervals], [close],
    [stock_prices], [next_page]); none of them is defined on a built-in
    prototype, so only own properties of objects answer.  Reading a
    property of [null] or [undefined] throws a TypeError. *)
Definition get (v : JsVal) (k : string) : Result JsVal :=
  match v with
  | JUndefined | JNull => Throw ("Cannot read properties of null or undefined, reading " ++ k)
  | JObj fields => Ok (assoc k fields)
  | _ => Ok JUndefined
  end.

(** [Array.isArray(v) ? v : []] *)
Definition array_or_empty (v : JsVal) : list JsVal :=
  match v with JArr xs => xs | _ => [] end.

(** [xs[i]], [undefined] out of range *)
Definition index (xs : list JsVal) (i : nat) : JsVal := default JUndefined (xs !! i).

(** [xs[xs.length - 1]] *)
Definition last_elem (xs : list JsVal) : JsVal := index xs (length xs - 1).

(** [((now - base) / base) * 100] in binary64 *)
Definition percent (now base : float) : float :=
  (((now - base) / base) * 100)%float.

(** Whether [String(v)] throws, for a value read from JSON.  The
    conversion of an object asks for its [toString], then for its
    [valueOf].  An own property [toString] is never a function in JSON,
    and [valueOf], own or inherited, gives no primitive: the conversion
    ends in a TypeError.  Without an own [toString] the inherited one
    answers.  An array joins the conversions of its elements. *)
Fixpoint String_throws (v : JsVal) : bool :=
  match v with
  | JArr xs => existsb String_throws xs
  | JObj fields => existsb (fun kv => String.eqb (fst kv) "toString") fields
  | _ => false
  end.

(** The message of that TypeError. *)
Definition not_primitive : string := "Cannot convert object to primitive value".

End Js.
Import Js.


(** ** Strings: [toLowerCase], [parseInt], the ticker regular expression *)

Module Text.

Definition code (c : ascii) : nat := nat_of_ascii c.

Definition between (lo hi n : nat) : bool := Nat.leb lo n && Nat.leb n hi.

(** One code unit of [String.prototype.toLowerCase]: A-Z, and the Latin-1
    capitals 192..222 other than the multiplication sign 215.  Below 256
    every code unit lowercases to one code unit; beyond, which the
    strings of this model do not reach, the function may change the
    length of a string. *)
Definition lower_unit (c : ascii) : ascii :=
  let n := code c in
  if between 65 90 n || (between 192 222 n && negb (Nat.eqb n 215))
  then ascii_of_nat (n + 32) else c.

Fixpoint toLowerCase (s : string) : string :=
  match s with
  | EmptyString => EmptyString
  | String c r => String (lower_unit c) (toLowerCase r)
  end.

(** White space that [parseInt] skips: TAB, LF, VT, FF, CR, SP, NBSP. *)
Definition is_space (c : ascii) : bool :=
  let n := code c in between 9 13 n || Nat.eqb n 32 || Nat.eqb n 160.

Fixpoint skip_space (s : string) : string :=
  match s with
  | String c r => if is_space c then skip_space r else s
  | EmptyString => s
  end.

Definition digit (c : ascii) : option Z :=
  let n := code c in
  if between 48 57 n then Some (Z.of_nat (n - 48)) else None.

(** The longest prefix of decimal digits, as an integer; [None] when the
    prefix is empty. *)
Fixpoint digits (s : string) (acc : option Z) : option Z :=
  match s with
  | String c r =>
      match digit c with
      | Some d => digits r (Some (10 * default 0%Z acc + d)%Z)
      | None => acc
      end
  | EmptyString => acc
  end.

(** [parseInt(s, 10)]: [None] is NaN, [Some z] the number nearest to the
    integer [z] (the sign of a zero plays no part in what follows). *)
Definition parseInt (s : string) : option Z :=
  match skip_space s with
  | String "-" r => Z.opp <$> digits r None
  | String "+" r => digits r None
  | t => digits t None
  end.

(** [Number.isFinite]: an integer rounds to a finite binary64 value when
    its magnitude is below 2^1024 - 2^970. *)
Definition Number_isFinite (p : option Z) : bool :=
  match p with
  | Some z => Z.ltb (Z.abs z) (2 ^ 1024 - 2 ^ 970)
  | None => false
  end.

Definition dquote : ascii := ascii_of_nat 34.

(** The class [[A-Za-z\.]] *)
Definition symbol_char (c : ascii) : bool :=
  let n := code c in between 65 90 n || between 97 122 n || Nat.eqb n 46.

(** The greedy run [[A-Za-z\.]*] and what follows it. *)
Fixpoint take_symbol (s : string) : string * string :=
  match s with
  | String c r =>
      if symbol_char c
      then let p := take_symbol r in (String c (fst p), snd p)
      else (EmptyString, s)
  | EmptyString => (EmptyString, s)
  end.

Fixpoint strip_prefix (p s : string) : option string :=
  match p, s with
  | EmptyString, _ => Some s
  | String a p', String b s' => if Ascii.eqb a b then strip_prefix p' s' else None
  | String _ _, EmptyString => None
  end.

(** The pattern: the literal /symbol/, then one or more characters of the
    class (captured), then a double quote; anchored at the start of [s].
    Returns the captured group and the text after the match.  The quote is
    outside the class, so the greedy run is the only candidate. *)
Definition match_here (s : string) : option (string * string) :=
  match strip_prefix "/symbol/" s with
  | Some r =>
      match take_symbol r with
      | (String c t, String q rest) =>
          if Ascii.eqb q dquote then Some (String c t, rest) else None
      | _ => None
      end
  | None => None
  end.

(** [rx.exec(html)] with the [g] flag, on the text from [lastIndex] on:
    the leftmost match; the remainder is the text from the new
    [lastIndex]. *)
Fixpoint exec (s : string) : option (string * string) :=
  match match_here s with
  | Some m => Some m
  | None =>
      match s with
      | String _ r => exec r
      | EmptyString => None
      end
  end.

End Text.
Import Text.

(** ** The upstream services *)

(** What [await fetch(url)] brings back: the call rejects (network
    failure), or a response arrives with its status and a body whose
    reading ([text()], [json()]) may itself reject. *)
Inductive Fetched (B : Type) : Type :=
| Rejected (message : string)
| Responded (status : nat) (body : Result B).
Arguments Rejected {B} message.
Arguments Responded {B} status body.

(** [resp.ok] *)
Definition ok (status : nat) : bool := between 200 299 status.

(** The listing page, the 15-minute interval bars of a ticker, and the
    end-of-day pages of a ticker addressed by the [next_page] cursor
    ([JNull] for the first page).  Within one request to the handler a
    service answers a URL the same way whenever it is asked.

    With the services comes the one limit of the runtime that their
    answers can reach: [spread_limit], the largest number of elements
    that a spread call such as [all.push(...rows)] accepts; beyond it the
    call throws a RangeError.  The chunks of the handler hold at most ten
    metrics, far below the limit of any runtime. *)
Record Upstream : Type := {
  listing : Fetched string;
  intervals : string -> Fetched JsVal;
  prices : string -> JsVal -> Fetched JsVal;
  spread_limit : nat
}.

(** ** getTopTickers *)

(** The [while ((m = rx.exec(html)) && out.length < limit)] loop.  Every
    match consumes text, so [fuel] above the length of the text is never
    used up. *)
Fixpoint scan (fuel : nat) (html : string) (limit : nat)
    (out : list string) (seen : gset string) : list string :=
  match fuel with
  | 0 => out
  | S fuel' =>
      match exec html with
      | Some (t, rest) =>
          if Nat.ltb (length out) limit then
            if decide (t ∈ seen) then scan fuel' rest limit out seen
            else scan fuel' rest limit (out ++ [t]) ({[t]} ∪ seen)
          else out
      | None => out
      end
  end.

Definition getTopTickers (up : Upstream) (limit : nat) : Result (list string) :=
  match listing up with
  | Rejected m => Throw m
  | Responded status body =>
      if negb (ok status) then Throw ("SlickCharts HTTP " ++ pretty status)
      else
        html <- body ;;
        let out := scan (S (String.length html)) html limit [] ∅ in
        if Nat.eqb (length out) 0 then Throw "No S&P500 tickers scraped"
        else Ok (take limit out)
  end.

(** ** latest15mClose *)

Module Latest.
Record t : Type := { price : JsVal; intervals : list JsVal }.
End Latest.

(** [bar && typeof bar.close === 'number' ? bar.close : null] *)
Definition numeric_close (bar : JsVal) : Result JsVal :=
  if truthy bar then
    c <- get bar "close" ;;
    Ok (if is_number c then c else JNull)
  else Ok JNull.

Definition latest15mClose (up : Upstream) (ticker : string) : Result Latest.t :=
  match intervals up ticker with
  | Rejected m => Throw m
  | Responded status body =>
      if negb (ok status) then Ok {| Latest.price := JNull; Latest.intervals := [] |}
      else
        j <- body ;;
        iv <- get j "intervals" ;;
        let arr := array_or_empty iv in
        let last := if Nat.eqb (length arr) 0 then JNull else last_elem arr in
        price <- numeric_close last ;;
        Ok {| Latest.price := price; Latest.intervals := arr |}
  end.

(** ** hourlyChangeFromIntervals *)

Module Hourly.
Record t : Type := { base : JsVal; changePct : JsVal }.
Definition nothing : t := {| base := JNull; changePct := JNull |}.
End Hourly.

Definition hourlyChangeFromIntervals (arr : JsVal) : Result Hourly.t :=
  match arr with
  | JArr xs =>
      if Nat.ltb (length xs) 6 then Ok Hourly.nothing
      else
        let last := index xs (length xs - 1) in
        let base := index xs (length xs - 1 - 5) in
        if negb (truthy last && truthy base) then Ok Hourly.nothing
        else
          lc <- get last "close" ;;
          if negb (is_number lc) then Ok Hourly.nothing
          else
            bc <- get base "close" ;;
            match lc, bc with
            | JNum l, JNum b =>
                if is_zero b then Ok Hourly.nothing
                else Ok {| Hourly.base := JNum b; Hourly.changePct := JNum (percent l b) |}
            | _, _ => Ok Hourly.nothing
            end
  | _ => Ok Hourly.nothing
  end.

(** ** fetchEodHistory *)

(** The value of [sessionsMap[range] ?? 1], handed down as [sessionsBack]
    and [need]: a number of sessions, or a member that the object literal
    inherits from [Object.prototype] (a function or an object). *)
Inductive Lookback : Type :=
| Sessions (n : nat)
| Inherited.

(** [all.length < need + 1].  With an inherited member, [need + 1] is a
    string that does not read as a number, and the comparison is false. *)
Definition below_need_plus_1 (len : nat) (need : Lookback) : bool :=
  match need with
  | Sessions n => Nat.ltb len (n + 1)
  | Inherited => false
  end.

(** [hist.length > sessionsBack], false again on an inherited member. *)
Definition longer_than (len : nat) (sessionsBack : Lookback) : bool :=
  match sessionsBack with
  | Sessions n => Nat.ltb n len
  | Inherited => false
  end.

(** What building the URL of the next request throws, if anything:
    [next ? `&next_page=${encodeURIComponent(next)}` : ``] converts a
    truthy cursor to a string.  (A string of code units below 256 holds
    no lone surrogate, [encodeURIComponent] accepts it.) *)
Definition cursor_error (next : JsVal) : option string :=
  if truthy next && String_throws next then Some not_primitive else None.

(** One page of the do-while loop: the rows pushed on [all] and the new
    [next].  [all.push(...rows)] throws a RangeError when the page holds
    more rows than a spread call accepts. *)
Definition read_page (limit : nat) (all : list JsVal) (body : Result JsVal)
    : Result (list JsVal * JsVal) :=
  j <- body ;;
  sp <- get j "stock_prices" ;;
  let rows := array_or_empty sp in
  if Nat.ltb limit (length rows) then Throw "Maximum call stack size exceeded"
  else
    np <- get j "next_page" ;;
    Ok ((all ++ rows)%list, or_else np JNull).

(** The do-while loop; [None] when [fuel] pages were not enough for it
    to leave. *)
Fixpoint fetchEodHistory_loop (fuel : nat) (up : Upstream) (ticker : string)
    (need : Lookback) (all : list JsVal) (next : JsVal)
    : option (Result (list JsVal)) :=
  match fuel with
  | 0 => None
  | S fuel' =>
      match cursor_error next with
      | Some m => Some (Throw m)
      | None =>
          match prices up ticker next with
          | Rejected m => Some (Throw m)
          | Responded status body =>
              if negb (ok status) then Some (Ok all)
              else
                match read_page (spread_limit up) all body with
                | Throw m => Some (Throw m)
                | Ok (all', next') =>
                    if below_need_plus_1 (length all') need && truthy next'
                    then fetchEodHistory_loop fuel' up ticker need all' next'
                    else Some (Ok all')
                end
          end
      end
  end.

Definition fetchEodHistory (fuel : nat) (up : Upstream) (ticker : string)
    (need : Lookback) : option (Result (list JsVal)) :=
  fetchEodHistory_loop fuel up ticker need [] JNull.

(** ** eodChangeVsLatest15m *)

Module Eod.
Record t : Type := { base : JsVal; now : JsVal; changePct : JsVal }.
End Eod.

(** [now ?? null] *)
Definition or_null (v : JsVal) : JsVal :=
  match v with JUndefined => JNull | _ => v end.

(** [hist.length > sessionsBack ? hist[sessionsBack] : hist[hist.length - 1]] *)
Definition baseRow (hist : list JsVal) (sessionsBack : Lookback) : JsVal :=
  match sessionsBack with
  | Sessions n => if longer_than (length hist) sessionsBack then index hist n else last_elem hist
  | Inherited => last_elem hist
  end.

(** The part of [eodChangeVsLatest15m] after the two awaits. *)
Definition eodChange (hist : list JsVal) (now : JsVal) (sessionsBack : Lookback)
    : Result Eod.t :=
  match now with
  | JNum n =>
      if Nat.eqb (length hist) 0
      then Ok {| Eod.base := JNull; Eod.now := or_null now; Eod.changePct := JNull |}
      else
        base <- numeric_close (baseRow hist sessionsBack) ;;
        match base with
        | JNum b =>
            if is_zero b
            then Ok {| Eod.base := JNull; Eod.now := now; Eod.changePct := JNull |}
            else Ok {| Eod.base := base; Eod.now := now; Eod.changePct := JNum (percent n b) |}
        | _ => Ok {| Eod.base := JNull; Eod.now := now; Eod.changePct := JNull |}
        end
  | _ => Ok {| Eod.base := JNull; Eod.now := or_null now; Eod.changePct := JNull |}
  end.

Definition eodChangeVsLatest15m (fuel : nat) (up : Upstream) (ticker : string)
    (sessionsBack : Lookback) : option (Result Eod.t) :=
  r ← fetchEodHistory fuel up ticker sessionsBack;
  Some (hist <- r ;;
        latest <- latest15mClose up ticker ;;
        eodChange hist (Latest.price latest) sessionsBack).

(** ** The worker of the /api/sp500 handler *)

Module Metric.
Record t : Type := { ticker : string; price : JsVal; changePercent : JsVal }.
Definition unavailable (tk : string) : t :=
  {| ticker := tk; price := JNull; changePercent := JNull |}.
End Metric.

(** The own properties of the literal [{ day: 1, week: 5, month: 21, year: 252 }] *)
Definition sessionsMap : gmap string nat :=
  <["day" := 1]> (<["week" := 5]> (<["month" := 21]> (<["year" := 252]> ∅))).

(** The property names every object literal inherits from
    [Object.prototype]. *)
Definition object_prototype_names : list string :=
  [ "constructor"; "__proto__"; "hasOwnProperty"; "isPrototypeOf";
    "propertyIsEnumerable"; "toLocaleString"; "toString"; "valueOf";
    "__defineGetter__"; "__defineSetter__"; "__lookupGetter__";
    "__lookupSetter__" ].

(** [sessionsMap[range]]; [None] is [undefined]. *)
Definition sessionsMap_at (range : string) : option Lookback :=
  match sessionsMap !! range with
  | Some n => Some (Sessions n)
  | None =>
      if bool_decide (range ∈ object_prototype_names) then Some Inherited else None
  end.

(** The body of the [try] block of [worker]. *)
Definition worker_try (fuel : nat) (up : Upstream) (range : string) (t : string)
    : option (Result Metric.t) :=
  if String.eqb range "hour" then
    Some (latest <- latest15mClose up t ;;
          hc <- hourlyChangeFromIntervals (JArr (Latest.intervals latest)) ;;
          Ok {| Metric.ticker := t; Metric.price := Latest.price latest;
                Metric.changePercent := Hourly.changePct hc |})
  else
    let sb := default (Sessions 1) (sessionsMap_at range) in
    r ← eodChangeVsLatest15m fuel up t sb;
    Some (out <- r ;;
          Ok {| Metric.ticker := t; Metric.price := Eod.now out;
                Metric.changePercent := Eod.changePct out |}).

(** [worker]: the [catch] turns any failure into the null metric.  [None]
    when the pagination of [fetchEodHistory] does not end within [fuel]
    pages. *)
Definition worker (fuel : nat) (up : Upstream) (range : string) (t : string)
    : option Metric.t :=
  r ← worker_try fuel up range t;
  Some (match r with
        | Ok m => m
        | Throw _ => Metric.unavailable t
        end).

(** ** Promise.all and the chunked loop *)

(** [Promise.all]: the promise of position [i] writes its value in slot
    [i] of the result when it settles; [order] is the order in which the
    promises of the chunk settle. *)
Definition settle {A} (vs : list A) (slots : list (option A)) (i : nat)
    : list (option A) :=
  match vs !! i with
  | Some v => <[i := Some v]> slots
  | None => slots
  end.

(** The awaited [Promise.all(ps)]: it returns once every slot is written,
    and never while a promise of [ps] stays pending ([None]).  No promise
    of the handler rejects, [worker] catches everything. *)
Definition promiseAll {A} (order : list nat) (ps : list (option A))
    : option (list A) :=
  vs ← mapM id ps;
  mapM id (foldl (settle vs) (replicate (length vs) None) order).

(** [tickers.slice(i, j)] *)
Definition slice {A} (i j : nat) (l : list A) : list A := take (j - i) (drop i l).

(** [for (let i = 0; i < tickers.length; i += CONCURRENCY)], from the
    current [i] and [out]; [order i] is the settling order inside the chunk
    that starts at [i]. *)
Fixpoint batches (fuel : nat) (work : string -> option Metric.t)
    (order : nat -> list nat) (tickers : list string) (concurrency : nat)
    (i : nat) (out : list Metric.t) : option (list Metric.t) :=
  match fuel with
  | 0 => None
  | S fuel' =>
      if Nat.ltb i (length tickers) then
        batch ← promiseAll (order i) (work <$> slice i (i + concurrency) tickers);
        batches fuel' work order tickers concurrency (i + concurrency) (out ++ batch)
      else Some out
  end.

(** ** The /api/sp500 handler *)

(** A value of [req.query]: absent, a string, or an array or object built
    by the query parser, kept by its [String()] rendering. *)
Inductive QueryVal : Type :=
| QMissing
| QStr (s : string)
| QNested (rendering : string).

Module Query.
Record t : Type := { range : QueryVal; limit : QueryVal }.
End Query.

Definition to_string (v : QueryVal) : string :=
  match v with
  | QMissing => "undefined"
  | QStr s => s
  | QNested r => r
  end.

(** [(req.query.range || 'day').toLowerCase()]; arrays and objects have
    no [toLowerCase], the call throws a TypeError. *)
Definition range_of (v : QueryVal) : Result string :=
  match v with
  | QMissing => Ok (toLowerCase "day")
  | QStr s => Ok (toLowerCase (if String.eqb s "" then "day" else s))
  | QNested _ => Throw "toLowerCase is not a function"
  end.

Definition LIMIT (v : QueryVal) : Z :=
  let limitParam := parseInt (to_string v) in
  Z.max 1 (Z.min 100 (if Number_isFinite limitParam then default 10%Z limitParam else 10%Z)).

Definition CONCURRENCY (limit : Z) : Z := Z.min limit 10.

Inductive Response : Type :=
| Json200 (items : list Metric.t)
| Json500 (error : string)
| Unanswered.

(** [x && x.ticker] *)
Definition kept (x : Metric.t) : bool := truthy (JStr (Metric.ticker x)).

(** [!apiKey] *)
Definition key_missing (apiKey : option string) : bool :=
  match apiKey with
  | Some k => String.eqb k ""
  | None => true
  end.

(** [e.message || 'Failed to build S&P500 data'] *)
Definition error_text (message : string) : string :=
  if String.eqb message "" then "Failed to build S&P500 data" else message.

(** The handler.  A TypeError on [range] is thrown before the [try], no
    response is written ([Unanswered]).  [None] when a worker never
    returns. *)
Definition sp500 (fuel : nat) (apiKey : option string) (up : Upstream)
    (order : nat -> list nat) (q : Query.t) : option Response :=
  if key_missing apiKey then Some (Json500 "INTRINIO_API_KEY missing")
  else
    match range_of (Query.range q) with
    | Throw _ => Some Unanswered
    | Ok range =>
        let limit := LIMIT (Query.limit q) in
        let concurrency := CONCURRENCY limit in
        match getTopTickers up (Z.to_nat limit) with
        | Throw m => Some (Json500 (error_text m))
        | Ok tickers =>
            out ← batches (S (length tickers)) (worker fuel up range) order
                    tickers (Z.to_nat concurrency) 0 [];
            Some (Json200 (take (Z.to_nat limit) (List.filter kept out)))
        end
    end.


(** ** The earlier variant of the server (first half of the same file)

    [getTopTickers], [fetchEodHistory] and the handler around the worker
    are the same text in both variants; what differs is modelled here. *)

Module Earlier.

Module Latest.
Record t : Type := { price : JsVal; last : JsVal; intervals : list JsVal }.
End Latest.

Definition latest15mClose (up : Upstream) (ticker : string) : Result Latest.t :=
  match intervals up ticker with
  | Rejected m => Throw m
  | Responded status body =>
      if negb (ok status)
      then Ok {| Latest.price := JNull; Latest.last := JNull; Latest.intervals := [] |}
      else
        j <- body ;;
        iv <- get j "intervals" ;;
        let arr := array_or_empty iv in
        let last := if Nat.eqb (length arr) 0 then JNull else last_elem arr in
        price <- numeric_close last ;;
        Ok {| Latest.price := price; Latest.last := last; Latest.intervals := arr |}
  end.

(** With its own [idxBase] and the test [idxBase < 0]. *)
Definition hourlyChangeFromIntervals (arr : JsVal) : Result Hourly.t :=
  match arr with
  | JArr xs =>
      if Nat.ltb (length xs) 6 then Ok Hourly.nothing
      else
        let last := index xs (length xs - 1) in
        let idxBase := (Z.of_nat (length xs) - 1 - 5)%Z in
        if Z.ltb idxBase 0 then Ok Hourly.nothing
        else
          let base := index xs (Z.to_nat idxBase) in
          if negb (truthy last && truthy base) then Ok Hourly.nothing
          else
            lc <- get last "close" ;;
            if negb (is_number lc) then Ok Hourly.nothing
            else
              bc <- get base "close" ;;
              match lc, bc with
              | JNum l, JNum b =>
                  if is_zero b then Ok Hourly.nothing
                  else Ok {| Hourly.base := JNum b; Hourly.changePct := JNum (percent l b) |}
              | _, _ => Ok Hourly.nothing
              end
  | _ => Ok Hourly.nothing
  end.

(** The history is tested before the intraday close is asked for. *)
Definition eodChangeVsLatest15m (fuel : nat) (up : Upstream) (ticker : string)
    (sessionsBack : Lookback) : option (Result Eod.t) :=
  r ← fetchEodHistory fuel up ticker sessionsBack;
  Some (hist <- r ;;
        if Nat.eqb (length hist) 0
        then Ok {| Eod.base := JNull; Eod.now := JNull; Eod.changePct := JNull |}
        else
          latest15 <- latest15mClose up ticker ;;
          let now := Latest.price latest15 in
          base <- numeric_close (baseRow hist sessionsBack) ;;
          match now, base with
          | JNum n, JNum b =>
              if is_zero b
              then Ok {| Eod.base := JNull; Eod.now := or_null now; Eod.changePct := JNull |}
              else Ok {| Eod.base := base; Eod.now := now; Eod.changePct := JNum (percent n b) |}
          | _, _ => Ok {| Eod.base := JNull; Eod.now := or_null now; Eod.changePct := JNull |}
          end).

(** The chain of comparisons on [range], with day as the last resort. *)
Definition sessions_of (range : string) : Lookback :=
  if String.eqb range "day" then Sessions 1
  else if String.eqb range "week" then Sessions 5
  else if String.eqb range "month" then Sessions 21
  else if String.eqb range "year" then Sessions 252
  else Sessions 1.

Definition work_try (fuel : nat) (up : Upstream) (range : string) (t : string)
    : option (Result Metric.t) :=
  if String.eqb range "hour" then
    Some (latest <- latest15mClose up t ;;
          hc <- hourlyChangeFromIntervals (JArr (Latest.intervals latest)) ;;
          Ok {| Metric.ticker := t; Metric.price := Latest.price latest;
                Metric.changePercent := Hourly.changePct hc |})
  else
    r ← eodChangeVsLatest15m fuel up t (sessions_of range);
    Some (out <- r ;;
          Ok {| Metric.ticker := t; Metric.price := Eod.now out;
                Metric.changePercent := Eod.changePct out |}).

Definition work (fuel : nat) (up : Upstream) (range : string) (t : string)
    : option Metric.t :=
  r ← work_try fuel up range t;
  Some (match r with
        | Ok m => m
        | Throw _ => Metric.unavailable t
        end).

End Earlier.

(** ** The client: fetchRange of bubbles.js *)

Module Client.

Definition LIMIT : nat := 10.

Definition hex (n : nat) : ascii :=
  match String.get n "0123456789ABCDEF" with
  | Some c => c
  | None => "0"%char
  end.

(** The characters that [encodeURIComponent] leaves alone. *)
Definition unreserved (c : ascii) : bool :=
  let n := code c in
  between 65 90 n || between 97 122 n || between 48 57 n
  || bool_decide (c ∈ ["-"; "_"; "."; "!"; "~"; "*"; "'"; "("; ")"]%char).

Definition percent_byte (n : nat) : string :=
  String "%" (String (hex (n / 16)) (String (hex (n mod 16)) "")).

(** [encodeURIComponent] on a string of code units below 256, where it
    cannot throw: a code unit below 128 is one UTF-8 byte, one from 128
    to 255 is two.  The function on every string is [encode_units]
    below. *)
Definition encode_unit (c : ascii) : string :=
  let n := code c in
  if unreserved c then String c ""
  else if Nat.ltb n 128 then percent_byte n
  else percent_byte (192 + n / 64) ++ percent_byte (128 + n mod 64).

Fixpoint encodeURIComponent (s : string) : string :=
  match s with
  | EmptyString => EmptyString
  | String c r => encode_unit c ++ encodeURIComponent r
  end.

Definition url (range : string) : string :=
  "/api/sp500" ++ "?range=" ++ encodeURIComponent range ++ "&limit=" ++ pretty LIMIT.

(** *** encodeURIComponent on every string of the language

    A string of the language is a sequence of 16-bit code units.  Outside
    the unreserved characters the function reads a code point, one unit
    or a pair of surrogates, and writes the octets of its UTF-8 form,
    each as a percent sign and two digits; a surrogate without its
    partner is a URIError. *)

Definition in_range (lo hi u : N) : bool := (lo <=? u)%N && (u <=? hi)%N.
Definition high_surrogate (u : N) : bool := in_range 0xD800 0xDBFF u.
Definition low_surrogate (u : N) : bool := in_range 0xDC00 0xDFFF u.

Definition unreserved_unit (u : N) : bool :=
  (u <? 128)%N && unreserved (ascii_of_N u).

(** The code point of a pair of surrogates. *)
Definition code_point (hi lo : N) : N :=
  ((hi - 0xD800) * 0x400 + (lo - 0xDC00) + 0x10000)%N.

(** The octets of the UTF-8 form of a code point. *)
Definition utf8 (cp : N) : list N :=
  if (cp <? 0x80)%N then [cp]
  else if (cp <? 0x800)%N then [0xC0 + cp / 64; 0x80 + cp mod 64]%N
  else if (cp <? 0x10000)%N
  then [0xE0 + cp / 4096; 0x80 + (cp / 64) mod 64; 0x80 + cp mod 64]%N
  else [0xF0 + cp / 262144; 0x80 + (cp / 4096) mod 64;
        0x80 + (cp / 64) mod 64; 0x80 + cp mod 64]%N.

Fixpoint percent_octets (octets : list N) : string :=
  match octets with
  | [] => ""
  | o :: rest => percent_byte (N.to_nat o) ++ percent_octets rest
  end.

Definition URIError : string := "URI malformed".

Fixpoint encode_units (units : list N) : Result string :=
  match units with
  | [] => Ok ""
  | u :: r =>
      if unreserved_unit u then
        rest <- encode_units r ;; Ok (String (ascii_of_N u) rest)
      else if low_surrogate u then Throw URIError
      else if high_surrogate u then
        match r with
        | lo :: r' =>
            if low_surrogate lo then
              rest <- encode_units r' ;;
              Ok (percent_octets (utf8 (code_point u lo)) ++ rest)
            else Throw URIError
        | [] => Throw URIError
        end
      else
        rest <- encode_units r ;; Ok (percent_octets (utf8 u) ++ rest)
  end.

(** The URL of [fetchRange] for a range given by its code units. *)
Definition url_of_units (range : list N) : Result string :=
  e <- encode_units range ;;
  Ok ("/api/sp500" ++ "?range=" ++ e ++ "&limit=" ++ pretty LIMIT).

(** The code units of a string of code units below 256. *)
Fixpoint units (s : string) : list N :=
  match s with
  | EmptyString => []
  | String c r => N_of_ascii c :: units r
  end.

Module Row.
Record t : Type := { ticker : string; price : JsVal; changePercent : JsVal }.
End Row.

(** [Number.isFinite(v) ? v : null] *)
Definition finite_or_null (v : JsVal) : JsVal :=
  match v with
  | JNum x => if PrimFloat.is_finite x then v else JNull
  | _ => JNull
  end.

(** [d && d.ticker], as the filter reads it.  The names [ticker],
    [price] and [changePercent] are not defined on a built-in prototype
    either. *)
Definition has_ticker (d : JsVal) : Result bool :=
  if truthy d then
    v <- get d "ticker" ;;
    Ok (truthy v)
  else Ok false.

Fixpoint filter_rows (ds : list JsVal) : Result (list JsVal) :=
  match ds with
  | [] => Ok []
  | d :: rest =>
      b <- has_ticker d ;;
      kept_rest <- filter_rows rest ;;
      Ok (if b then d :: kept_rest else kept_rest)
  end.

Section Rendering.
(** [Number.prototype.toString], the decimal rendering of a number. *)
Variable number_to_string : float -> string.

Definition join (parts : list string) : string :=
  match parts with
  | [] => ""
  | p :: rest => fold_left (fun acc q => acc ++ "," ++ q) rest p
  end.

(** The string that [String(v)] builds when it does not throw. *)
Fixpoint rendering (v : JsVal) : string :=
  match v with
  | JUndefined => "undefined"
  | JNull => "null"
  | JBool true => "true"
  | JBool false => "false"
  | JNum x => number_to_string x
  | JStr s => s
  | JArr xs =>
      join (List.map (fun x => match x with
                               | JUndefined | JNull => ""
                               | _ => rendering x
                               end) xs)
  | JObj _ => "[object Object]"
  end.

(** [String(v)] on a value read from JSON: a TypeError when the
    conversion meets an object with an own [toString]. *)
Definition ToString (v : JsVal) : Result string :=
  if String_throws v then Throw not_primitive else Ok (rendering v).

Definition row_of (d : JsVal) : Result Row.t :=
  tk <- get d "ticker" ;;
  ticker <- ToString tk ;;
  p <- get d "price" ;;
  c <- get d "changePercent" ;;
  Ok {| Row.ticker := ticker; Row.price := finite_or_null p;
        Row.changePercent := finite_or_null c |}.

Fixpoint map_rows (ds : list JsVal) : Result (list Row.t) :=
  match ds with
  | [] => Ok []
  | d :: rest =>
      r <- row_of d ;;
      rs <- map_rows rest ;;
      Ok (r :: rs)
  end.

(** The chain after [await resp.json()]. *)
Definition normalize (json : JsVal) : Result (list Row.t) :=
  kept_rows <- filter_rows (array_or_empty json) ;;
  map_rows (take LIMIT kept_rows).

(** [api] answers the request for a URL. *)
Definition fetchRange (api : string -> Fetched JsVal) (range : string)
    : Result (list Row.t) :=
  match api (url range) with
  | Rejected m => Throw m
  | Responded status body =>
      if negb (ok status)
      then Throw ("HTTP " ++ pretty status ++ " for " ++ url range)
      else
        json <- body ;;
        normalize json
  end.

End Rendering.

End Client.
(** ** The percent-change rule, in the words of the specification *)

(** [changePercent] as the specification states it: the formula when both
    operands are numbers and the base is not zero, [null] otherwise. *)
Definition changePercentSpec (now base : JsVal) : JsVal :=
  match now, base with
  | JNum n, JNum b => if is_zero b then JNull else JNum (percent n b)
  | _, _ => JNull
  end.

(** The bar that the hourly change takes as its base: five bars before
    the last one. *)
Definition hourlyBaseBar (xs : list JsVal) : JsVal := index xs (length xs - 1 - 5).


(** ** The pagination walk, as a relation *)

(** [Walk up t need all next]: the loop of [fetchEodHistory] is about to
    request the page at cursor [next], having collected the rows [all].
    It goes on to a further page only after a request that could be
    written and brought a readable 2xx page, small enough to be pushed,
    that left it below [need + 1] rows and named a next page. *)
Inductive Walk (up : Upstream) (t : string) (need : Lookback)
    : list JsVal -> JsVal -> Prop :=
| walk_first : Walk up t need [] JNull
| walk_more all next status body all' next' :
    Walk up t need all next ->
    cursor_error next = None ->
    prices up t next = Responded status body ->
    ok status = true ->
    read_page (spread_limit up) all body = Ok (all', next') ->
    below_need_plus_1 (length all') need = true ->
    truthy next' = true ->
    Walk up t need all' next'.

(** How the request at cursor [next] ends the loop, and with what. *)
Inductive Leaves (up : Upstream) (t : string) (need : Lookback)
    (all : list JsVal) (next : JsVal) : Result (list JsVal) -> Prop :=
| leaves_cursor m :
    cursor_error next = Some m ->
    Leaves up t need all next (Throw m)
| leaves_rejected m :
    cursor_error next = None ->
    prices up t next = Rejected m ->
    Leaves up t need all next (Throw m)
| leaves_not_ok status body :
    cursor_error next = None ->
    prices up t next = Responded status body ->
    ok status = false ->
    Leaves up t need all next (Ok all)
| leaves_unreadable status body m :
    cursor_error next = None ->
    prices up t next = Responded status body ->
    ok status = true ->
    read_page (spread_limit up) all body = Throw m ->
    Leaves up t need all next (Throw m)
| leaves_enough status body all' next' :
    cursor_error next = None ->
    prices up t next = Responded status body ->
    ok status = true ->
    read_page (spread_limit up) all body = Ok (all', next') ->
    below_need_plus_1 (length all') need = false ->
    Leaves up t need all next (Ok all')
| leaves_last_page status body all' next' :
    cursor_error next = None ->
    prices up t next = Responded status body ->
    ok status = true ->
    read_page (spread_limit up) all body = Ok (all', next') ->
    truthy next' = false ->
    Leaves up t need all next (Ok all').

(** ** The failures of getTopTickers *)

(** The ways in which [getTopTickers] fails with message [m]: the request
    rejects, the page answers non-2xx, reading its text rejects, or the
    scan of the page extracts nothing. *)
Definition listing_failure (up : Upstream) (limit : nat) (m : string) : Prop :=
  listing up = Rejected m
  \/ (exists status body,
        listing up = Responded status body /\ ok status = false
        /\ m = ("SlickCharts HTTP " ++ pretty status)%string)
  \/ (exists status, listing up = Responded status (Throw m) /\ ok status = true)
  \/ (exists status html,
        listing up = Responded status (Ok html) /\ ok status = true
        /\ scan (S (String.length html)) html limit [] ∅ = []
        /\ m = "No S&P500 tickers scraped").

(** ** Sample upstreams *)

Module Sample.

Definition bar (c : float) : JsVal := JObj [("close", JNum c)].

Definition bars (cs : list float) : JsVal :=
  JObj [("intervals", JArr (bar <$> cs))].

Definition page (cs : list float) (next : JsVal) : JsVal :=
  JObj [("stock_prices", JArr (bar <$> cs)); ("next_page", next)].

Definition anchor (tk : string) : string :=
  "<a href=" ++ String dquote ("/symbol/" ++ tk) ++ String dquote (">" ++ tk ++ "</a>").

(** AAPL and BRK.B are listed twice, as on the real page. *)
Definition html : string :=
  anchor "AAPL" ++ anchor "MSFT" ++ anchor "AAPL" ++ anchor "BRK.B" ++ anchor "BRK.B".

(** The spread limit of the sample runtime. *)
Definition many : nat := 100 * 1000.

(** Six bars from 100 to 110, one end-of-day page 108, 100, 90. *)
Definition calm : Upstream := {|
  listing := Responded 200 (Ok html);
  intervals := fun _ => Responded 200 (Ok (bars [100; 101; 102; 103; 104; 110]%float));
  prices := fun _ _ => Responded 200 (Ok (page [108; 100; 90]%float JNull));
  spread_limit := many
|}.

(** A single 15-minute bar. *)
Definition one_bar : Upstream := {|
  listing := Responded 200 (Ok html);
  intervals := fun _ => Responded 200 (Ok (bars [100%float]));
  prices := fun _ _ => Responded 200 (Ok (page [108; 100; 90]%float JNull));
  spread_limit := many
|}.

(** The first end-of-day page has one row and names a next page, which
    answers 503. *)
Definition second_page_down : Upstream := {|
  listing := Responded 200 (Ok html);
  intervals := fun _ => Responded 200 (Ok (bars [100; 101; 102; 103; 104; 110]%float));
  prices := fun _ next =>
    match next with
    | JNull => Responded 200 (Ok (page [105%float] (JStr "p2")))
    | _ => Responded 503 (Throw "Unexpected token")
    end;
  spread_limit := many
|}.

(** Two end-of-day pages: 105, then 100 and 50 with no further page. *)
Definition two_pages : Upstream := {|
  listing := Responded 200 (Ok html);
  intervals := fun _ => Responded 200 (Ok (bars [100; 101; 102; 103; 104; 110]%float));
  prices := fun _ next =>
    match next with
    | JNull => Responded 200 (Ok (page [105%float] (JStr "p2")))
    | _ => Responded 200 (Ok (page [100; 50]%float JNull))
    end;
  spread_limit := many
|}.

(** The first end-of-day page names as its next page an object with a
    property toString, which no URL can carry. *)
Definition odd_cursor : Upstream := {|
  listing := Responded 200 (Ok html);
  intervals := fun _ => Responded 200 (Ok (bars [100; 101; 102; 103; 104; 110]%float));
  prices := fun _ next =>
    match next with
    | JNull => Responded 200 (Ok (page [105%float] (JObj [("toString", JNum 1)])))
    | _ => Responded 200 (Ok (page [100; 50]%float JNull))
    end;
  spread_limit := many
|}.

(** Finite closes 2^-1000 and 2^1000 at the two ends of six bars. *)
Definition steep : Upstream := {|
  listing := Responded 200 (Ok html);
  intervals := fun _ =>
    Responded 200 (Ok (bars [0x1p-1000; 1; 1; 1; 1; 0x1p1000]%float));
  prices := fun _ _ => Responded 200 (Ok (page [108; 100; 90]%float JNull));
  spread_limit := many
|}.

(** Closes that [JSON.parse] reads as Infinity (a literal such as 1e999). *)
Definition unbounded : Upstream := {|
  listing := Responded 200 (Ok html);
  intervals := fun _ =>
    Responded 200 (Ok (bars [infinity; 1; 1; 1; 1; infinity]%float));
  prices := fun _ _ => Responded 200 (Ok (page [108; infinity; 90]%float JNull));
  spread_limit := many
|}.

(** The interval request of MSFT fails on the network. *)
Definition msft_down : Upstream := {|
  listing := Responded 200 (Ok html);
  intervals := fun tk =>
    if String.eqb tk "MSFT" then Rejected "fetch failed"
    else Responded 200 (Ok (bars [100; 101; 102; 103; 104; 110]%float));
  prices := fun _ _ => Responded 200 (Ok (page [108; 100; 90]%float JNull));
  spread_limit := many
|}.

(** The listing request fails on the network. *)
Definition offline : Upstream := {|
  listing := Rejected "fetch failed";
  intervals := fun _ => Rejected "fetch failed";
  prices := fun _ _ => Rejected "fetch failed";
  spread_limit := many
|}.

(** The listing page answers 503. *)
Definition listing_down : Upstream := {|
  listing := Responded 503 (Ok "Service Unavailable");
  intervals := fun _ => Rejected "fetch failed";
  prices := fun _ _ => Rejected "fetch failed";
  spread_limit := many
|}.

(** A listing page without any symbol link. *)
Definition no_symbols : Upstream := {|
  listing := Responded 200 (Ok "<html><body>maintenance</body></html>");
  intervals := fun _ => Rejected "fetch failed";
  prices := fun _ _ => Rejected "fetch failed";
  spread_limit := many
|}.

(** Six bars from 88 to 110, and one end-of-day page of seven rows with
    closes 108, 100, 96, 92, 90, 80, 55 and no next page: against the
    latest close 110 the hour change is 25, the day change 10, the week
    change 37.5, and the change from the oldest row 100. *)
Definition seven_rows : Upstream := {|
  listing := Responded 200 (Ok html);
  intervals := fun _ => Responded 200 (Ok (bars [88; 101; 102; 103; 104; 110]%float));
  prices := fun _ _ =>
    Responded 200 (Ok (page [108; 100; 96; 92; 90; 80; 55]%float JNull));
  spread_limit := many
|}.

(** The tickers of [html], in page order. *)
Definition tickers : list string := ["AAPL"; "MSFT"; "BRK.B"].

(** The promises of each chunk of [tickers] settling in input order, and
    in reverse, for chunks of [c] tickers. *)
Definition in_order (c : nat) (i : nat) : list nat :=
  seq 0 (length (slice i (i + c) tickers)).
Definition reversed (c : nat) (i : nat) : list nat :=
  reverse (seq 0 (length (slice i (i + c) tickers))).

Definition query (range limit : QueryVal) : Query.t :=
  {| Query.range := range; Query.limit := limit |}.

End Sample.

(** ** The slots of Promise.all *)

(** Every written slot holds the value of the promise of its position. *)
Definition written {A} (vs : list A) (slots : list (option A)) : Prop :=
  length slots = length vs /\ forall i x, slots !! i = Some (Some x) -> vs !! i = Some x.

(** ** The batch, in the words of the specification *)

(** The worker mapped over the tickers one after the other, in input
    order. *)
Definition runAllSequential (work : string -> option Metric.t) (tickers : list string)
    : option (list Metric.t) :=
  mapM work tickers.

(** ** The scraper, in plain list terms *)

(** Every capture of the pattern on the page, in page order. *)
Fixpoint captures (fuel : nat) (html : string) : list string :=
  match fuel with
  | 0 => []
  | S fuel' =>
      match exec html with
      | Some (tk, rest) => tk :: captures fuel' rest
      | None => []
      end
  end.

(** Append [tk] unless it is there already. *)
Definition keep_first (acc : list string) (tk : string) : list string :=
  if decide (tk ∈ acc) then acc else (acc ++ [tk])%list.

(** The first occurrence of every element, in order. *)
Definition first_occurrences (l : list string) : list string :=
  foldl keep_first [] l.

Fixpoint all_chars (p : ascii -> bool) (s : string) : bool :=
  match s with
  | EmptyString => true
  | String c r => p c && all_chars p r
  end.

(** ** The response on the wire *)

(** What [JSON.stringify] followed by [JSON.parse] makes of a field of a
    metric (null, or a number): NaN and the infinities are written as
    null, a negative zero comes back as zero, every other number comes
    back as itself. *)
Definition over_the_wire (v : JsVal) : JsVal :=
  match v with
  | JNum x =>
      if PrimFloat.is_finite x then (if is_zero x then JNum 0 else v) else JNull
  | _ => v
  end.

Definition metric_on_the_wire (m : Metric.t) : JsVal :=
  JObj [ ("ticker", JStr (Metric.ticker m));
         ("price", over_the_wire (Metric.price m));
         ("changePercent", over_the_wire (Metric.changePercent m)) ].

(** The array that the body of a 200 answer carries, as a client reads
    it. *)
Definition response_array (items : list Metric.t) : list JsVal :=
  metric_on_the_wire <$> items.

(** The row that the client keeps for a metric of the server. *)
Definition client_row (m : Metric.t) : Client.Row.t :=
  {| Client.Row.ticker := Metric.ticker m;
     Client.Row.price := Client.finite_or_null (over_the_wire (Metric.price m));
     Client.Row.changePercent :=
       Client.finite_or_null (over_the_wire (Metric.changePercent m)) |}.

(** ** More sample upstreams *)

Module Sample2.

(** Every end-of-day page is empty and names a next page. *)
Definition endless : Upstream := {|
  listing := Responded 200 (Ok Sample.html);
  intervals := fun _ =>
    Responded 200 (Ok (Sample.bars [100; 101; 102; 103; 104; 110]%float));
  prices := fun _ _ => Responded 200 (Ok (Sample.page [] (JStr "again")));
  spread_limit := Sample.many
|}.

(** The interval endpoint answers 503. *)
Definition intervals_down : Upstream := {|
  listing := Responded 200 (Ok Sample.html);
  intervals := fun _ => Responded 503 (Throw "no body");
  prices := fun _ _ => Responded 200 (Ok (Sample.page [108; 100; 90]%float JNull));
  spread_limit := Sample.many
|}.

(** The end-of-day endpoint answers 503. *)
Definition prices_down : Upstream := {|
  listing := Responded 200 (Ok Sample.html);
  intervals := fun _ =>
    Responded 200 (Ok (Sample.bars [100; 101; 102; 103; 104; 110]%float));
  prices := fun _ _ => Responded 503 (Throw "no body");
  spread_limit := Sample.many
|}.

(** An end-of-day endpoint without rows and without a next page. *)
Definition no_history : Upstream := {|
  listing := Responded 200 (Ok Sample.html);
  intervals := fun _ =>
    Responded 200 (Ok (Sample.bars [100; 101; 102; 103; 104; 110]%float));
  prices := fun _ _ => Responded 200 (Ok (Sample.page [] JNull));
  spread_limit := Sample.many
|}.

(** A runtime whose spread calls accept ten elements, and an end-of-day
    page of eleven rows. *)
Definition long_page : Upstream := {|
  listing := Responded 200 (Ok Sample.html);
  intervals := fun _ =>
    Responded 200 (Ok (Sample.bars [100; 101; 102; 103; 104; 110]%float));
  prices := fun _ _ => Responded 200 (Ok (Sample.page (replicate 11 100%float) JNull));
  spread_limit := 10
|}.

End Sample2.

(** ** What the client keeps *)

(** Both numeric fields of a row are null or a finite number. *)
Definition clean_row (r : Client.Row.t) : Prop :=
  (Client.Row.price r = JNull
   \/ exists x, Client.Row.price r = JNum x /\ PrimFloat.is_finite x = true)
  /\ (Client.Row.changePercent r = JNull
      \/ exists x, Client.Row.changePercent r = JNum x /\ PrimFloat.is_finite x = true).

(** A character of an encoded component: unreserved, or the percent
    sign. *)
Definition component_char (c : ascii) : bool :=
  Client.unreserved c || Ascii.eqb c "%".

(** No surrogate stands without its partner: a high surrogate is
    followed by a low one, and a low one follows a high one. *)
Fixpoint paired (units : list N) : bool :=
  match units with
  | [] => true
  | u :: r =>
      if Client.high_surrogate u then
        match r with
        | lo :: r' => Client.low_surrogate lo && paired r'
        | [] => false
        end
      else negb (Client.low_surrogate u) && paired r
  end.

(** A code unit has 16 bits. *)
Definition code_unit (u : N) : Prop := (u < 65536)%N.

Module Sample3.

(** A 200 body with entries that are not metrics. *)
Definition untidy : JsVal :=
  JArr [ JNull;
         JNum 5;
         JObj [("ticker", JStr "AAPL"); ("price", JNum infinity);
               ("changePercent", JStr "1.5")];
         JObj [("price", JNum 1)];
         JObj [("ticker", JStr "MSFT"); ("price", JNum 3);
               ("changePercent", JNum (-2))] ].

(** A 200 body whose one entry has an object with a property toString
    as its ticker. *)
Definition odd_ticker : JsVal :=
  JArr [ JObj [("ticker", JObj [("toString", JNum 1)]); ("price", JNum 1);
               ("changePercent", JNum 2)] ].

(** The interval endpoint answers 200 with the JSON text null. *)
Definition null_body : Upstream := {|
  listing := Responded 200 (Ok Sample.html);
  intervals := fun _ => Responded 200 (Ok JNull);
  prices := fun _ _ => Responded 200 (Ok (Sample.page [108; 100; 90]%float JNull));
  spread_limit := Sample.many
|}.

(** The interval endpoint answers 200 with bars that are not an array. *)
Definition bars_not_array : Upstream := {|
  listing := Responded 200 (Ok Sample.html);
  intervals := fun _ => Responded 200 (Ok (JObj [("intervals", JStr "none")]));
  prices := fun _ _ => Responded 200 (Ok (Sample.page [108; 100; 90]%float JNull));
  spread_limit := Sample.many
|}.

(** A rendering of numbers, for the samples. *)
Definition no_digits (_ : float) : string := "".

End Sample3.
(** * Properties *)

(** ** Reading a close *)

Lemma truthy_get v k : truthy v = true -> exists c, get v k = Ok c.
Proof. destruct v; simpl; try discriminate; eauto. Qed.

Lemma numeric_close_total bar : exists p, numeric_close bar = Ok p.
Proof.
  unfold numeric_close. destruct (truthy bar) eqn:E; [|eauto].
  destruct (truthy_get bar "close" E) as [c ->]. simpl. eauto.
Qed.

Lemma numeric_close_cases bar p :
  numeric_close bar = Ok p -> p = JNull \/ exists x, p = JNum x.
Proof.
  unfold numeric_close. destruct (truthy bar); [|intros [= <-]; auto].
  destruct (get bar "close") as [c|]; simpl; [|discriminate].
  destruct c; simpl; intros [= <-]; eauto.
Qed.

(** A bar whose [close] reads as a number is an object, hence truthy. *)
Lemma numeric_close_num bar x :
  numeric_close bar = Ok (JNum x) -> truthy bar = true /\ get bar "close" = Ok (JNum x).
Proof.
  unfold numeric_close. destruct (truthy bar) eqn:E; [|discriminate].
  destruct (get bar "close") as [c|]; simpl; [|discriminate].
  destruct c; simpl; intros [= <-]; auto.
Qed.

Lemma numeric_close_null bar :
  numeric_close bar = Ok JNull ->
  truthy bar = false \/ exists c, get bar "close" = Ok c /\ is_number c = false.
Proof.
  unfold numeric_close. destruct (truthy bar) eqn:E; [|auto].
  destruct (get bar "close") as [c|]; simpl; [|discriminate].
  destruct c; simpl; intros [= ]; eauto.
Qed.

Lemma get_close_numeric bar x :
  get bar "close" = Ok (JNum x) -> numeric_close bar = Ok (JNum x).
Proof.
  intros H. unfold numeric_close.
  destruct bar; simpl in H; try discriminate; simpl; rewrite ?H; try reflexivity.
  all: injection H as H; try discriminate.
  rewrite H. reflexivity.
Qed.

(** ** hourlyChangeFromIntervals *)

Lemma hourly_short xs :
  length xs < 6 -> hourlyChangeFromIntervals (JArr xs) = Ok Hourly.nothing.
Proof.
  intros H. simpl. destruct (Nat.ltb_spec (length xs) 6); [reflexivity|lia].
Qed.

Lemma hourly_not_array v :
  (forall xs, v <> JArr xs) -> hourlyChangeFromIntervals v = Ok Hourly.nothing.
Proof. destruct v; intros H; try reflexivity. destruct (H xs eq_refl). Qed.

(** With six bars or more, the change is the specified rule applied to
    the closes of the last bar and of the bar five before it. *)
Lemma hourly_long xs now base :
  6 <= length xs ->
  numeric_close (last_elem xs) = Ok now ->
  numeric_close (hourlyBaseBar xs) = Ok base ->
  exists h, hourlyChangeFromIntervals (JArr xs) = Ok h
            /\ Hourly.changePct h = changePercentSpec now base.
Proof.
  intros Hlen Hnow Hbase. unfold hourlyChangeFromIntervals.
  destruct (Nat.ltb_spec (length xs) 6); [lia|].
  fold (last_elem xs). fold (hourlyBaseBar xs).
  destruct (numeric_close_cases _ _ Hnow) as [->|[n ->]].
  - (* no numeric close on the last bar *)
    apply numeric_close_null in Hnow as [Hf|(c & Hc & Hn)].
    + rewrite Hf. simpl. eauto.
    + destruct (truthy (last_elem xs) && truthy (hourlyBaseBar xs)); simpl; [|eauto].
      rewrite Hc. simpl. rewrite Hn. simpl. eauto.
  - apply numeric_close_num in Hnow as [Ht Hc]. rewrite Ht, Hc. simpl.
    destruct (numeric_close_cases _ _ Hbase) as [->|[b ->]].
    + apply numeric_close_null in Hbase as [Hf|(c & Hc' & Hn)].
      * rewrite Hf. simpl. eauto.
      * destruct (truthy (hourlyBaseBar xs)); simpl; [|eauto].
        rewrite Hc'. simpl. destruct c; simpl in *; try discriminate; eauto.
    + apply numeric_close_num in Hbase as [Ht' Hc']. rewrite Ht', Hc'. simpl.
      destruct (is_zero b); eauto.
Qed.

Lemma hourly_total arr : exists h, hourlyChangeFromIntervals arr = Ok h.
Proof.
  destruct arr; try (eexists; reflexivity).
  destruct (le_lt_dec 6 (length xs)) as [H|H].
  - destruct (numeric_close_total (last_elem xs)) as [n Hn].
    destruct (numeric_close_total (hourlyBaseBar xs)) as [b Hb].
    destruct (hourly_long xs n b H Hn Hb) as (h & -> & _). eauto.
  - rewrite hourly_short by lia. eauto.
Qed.

(** ** latest15mClose *)

Lemma latest_price_cases up t latest :
  latest15mClose up t = Ok latest ->
  Latest.price latest = JNull \/ exists x, Latest.price latest = JNum x.
Proof.
  unfold latest15mClose. destruct (intervals up t) as [m|status body]; [discriminate|].
  destruct (ok status); simpl; [|intros [= <-]; auto].
  destruct body as [j|]; simpl; [|discriminate].
  destruct (get j "intervals") as [iv|]; simpl; [|discriminate].
  destruct (numeric_close _) as [p|] eqn:E; simpl; [|discriminate].
  intros [= <-]. simpl. eapply numeric_close_cases, E.
Qed.

(** The price is the numeric close of the last bar, [null] without bars. *)
Lemma latest_price_last up t latest :
  latest15mClose up t = Ok latest ->
  numeric_close (last_elem (Latest.intervals latest)) = Ok (Latest.price latest).
Proof.
  unfold latest15mClose. destruct (intervals up t) as [m|status body]; [discriminate|].
  destruct (ok status); simpl; [|intros [= <-]; reflexivity].
  destruct body as [j|]; simpl; [|discriminate].
  destruct (get j "intervals") as [iv|]; simpl; [|discriminate].
  destruct (numeric_close _) as [p|] eqn:E; simpl; [|discriminate].
  intros [= <-]. simpl. rewrite <- E.
  destruct (array_or_empty iv); reflexivity.
Qed.

(** ** The hour branch of the worker *)

Lemma worker_hour fuel up t latest h :
  latest15mClose up t = Ok latest ->
  hourlyChangeFromIntervals (JArr (Latest.intervals latest)) = Ok h ->
  worker fuel up "hour" t
  = Some {| Metric.ticker := t; Metric.price := Latest.price latest;
            Metric.changePercent := Hourly.changePct h |}.
Proof.
  intros H1 H2. unfold worker, worker_try.
  rewrite String.eqb_refl, H1. cbn [bind]. rewrite H2. reflexivity.
Qed.

(** C3.  Fewer than six bars give [{base: null, changePct: null}]; six
    bars with numeric closes c0 at the first and c5 at the last, c0 not
    zero, give base c0 and changePct ((c5 - c0) / c0) * 100. *)
Theorem hourly_change_six_bars (xs : list JsVal) (b0 b1 b2 b3 b4 b5 : JsVal) (c0 c5 : float) :
  (length xs < 6 -> hourlyChangeFromIntervals (JArr xs) = Ok Hourly.nothing)
  /\ (get b0 "close" = Ok (JNum c0) ->
      get b5 "close" = Ok (JNum c5) ->
      is_zero c0 = false ->
      hourlyChangeFromIntervals (JArr [b0; b1; b2; b3; b4; b5])
      = Ok {| Hourly.base := JNum c0; Hourly.changePct := JNum (percent c5 c0) |}).
Proof.
  split; [apply hourly_short|].
  intros H0 H5 Hz.
  pose proof (numeric_close_num _ _ (get_close_numeric _ _ H0)) as [T0 _].
  pose proof (numeric_close_num _ _ (get_close_numeric _ _ H5)) as [T5 _].
  unfold hourlyChangeFromIntervals, index. simpl.
  rewrite T0, T5, H0, H5. simpl. rewrite Hz. reflexivity.
Qed.

Lemma hourly_change_six_bars_witness :
  hourlyChangeFromIntervals (JArr []) = Ok Hourly.nothing
  /\ hourlyChangeFromIntervals
       (JArr (Sample.bar <$> [100; 101; 102; 103; 104; 110]%float))
     = Ok {| Hourly.base := JNum 100; Hourly.changePct := JNum 10 |}.
Proof.
  split.
  - apply (proj1 (hourly_change_six_bars [] JNull JNull JNull JNull JNull JNull 0 0)).
    simpl. lia.
  - apply (proj2 (hourly_change_six_bars [] (Sample.bar 100) (Sample.bar 101)
                    (Sample.bar 102) (Sample.bar 103) (Sample.bar 104)
                    (Sample.bar 110) 100 110)); reflexivity.
Defined.

(** C8 as stated fails: with a single bar of close 100 the hour metric
    keeps price 100; only changePercent is null. *)
Lemma hour_few_bars_price_not_null :
  ~ (forall fuel up t latest,
       latest15mClose up t = Ok latest ->
       length (Latest.intervals latest) < 6 ->
       worker fuel up "hour" t
       = Some {| Metric.ticker := t; Metric.price := JNull; Metric.changePercent := JNull |}).
Proof.
  intros H.
  specialize (H 0 Sample.one_bar "AAPL"
                {| Latest.price := JNum 100; Latest.intervals := [Sample.bar 100] |}
                eq_refl).
  simpl in H. specialize (H ltac:(lia)). discriminate H.
Qed.

(** C8, amended.  For range=hour with fewer than six bars available,
    changePercent is null, and price is what [latest15mClose] found: the
    numeric close of the last bar, null when there is no bar or its close
    is not a number (and null as well when the interval request fails). *)
Theorem hour_few_bars_changePercent_null (fuel : nat) (up : Upstream) (t : string)
    (latest : Latest.t) (msg : string) :
  (latest15mClose up t = Ok latest ->
   length (Latest.intervals latest) < 6 ->
   worker fuel up "hour" t
   = Some {| Metric.ticker := t; Metric.price := Latest.price latest;
             Metric.changePercent := JNull |}
   /\ numeric_close (last_elem (Latest.intervals latest)) = Ok (Latest.price latest))
  /\ (latest15mClose up t = Throw msg ->
      worker fuel up "hour" t
      = Some {| Metric.ticker := t; Metric.price := JNull;
                Metric.changePercent := JNull |}).
Proof.
  split.
  - intros Hl Hlen. split; [|eapply latest_price_last, Hl].
    erewrite worker_hour; [|exact Hl|apply hourly_short, Hlen]. reflexivity.
  - intros Hl. unfold worker, worker_try. rewrite String.eqb_refl, Hl. reflexivity.
Qed.

Lemma hour_few_bars_changePercent_null_witness :
  worker 0 Sample.one_bar "hour" "AAPL"
  = Some {| Metric.ticker := "AAPL"; Metric.price := JNum 100;
            Metric.changePercent := JNull |}
  /\ worker 0 Sample.offline "hour" "AAPL"
     = Some {| Metric.ticker := "AAPL"; Metric.price := JNull;
               Metric.changePercent := JNull |}.
Proof.
  split.
  - refine (proj1 (proj1 (hour_few_bars_changePercent_null 0 Sample.one_bar "AAPL"
              {| Latest.price := JNum 100; Latest.intervals := [Sample.bar 100] |}
              "") eq_refl _)).
    simpl. lia.
  - exact (proj2 (hour_few_bars_changePercent_null 0 Sample.offline "AAPL"
              {| Latest.price := JNull; Latest.intervals := [] |}
              "fetch failed") eq_refl).
Defined.

(** ** fetchEodHistory: the loop and the walk *)

Section Pagination.
Variables (up : Upstream) (t : string) (need : Lookback).

Lemma loop_unfold fuel all next :
  fetchEodHistory_loop (S fuel) up t need all next
  = match cursor_error next with
    | Some m => Some (Throw m)
    | None =>
        match prices up t next with
        | Rejected m => Some (Throw m)
        | Responded status body =>
            if negb (ok status) then Some (Ok all)
            else
              match read_page (spread_limit up) all body with
              | Throw m => Some (Throw m)
              | Ok (all', next') =>
                  if below_need_plus_1 (length all') need && truthy next'
                  then fetchEodHistory_loop fuel up t need all' next'
                  else Some (Ok all')
              end
        end
    end.
Proof. reflexivity. Qed.

(** One request that ends the loop needs one unit of fuel. *)
Lemma leaves_one all next r :
  Leaves up t need all next r ->
  forall fuel, fetchEodHistory_loop (S fuel) up t need all next = Some r.
Proof.
  intros H fuel. rewrite loop_unfold.
  destruct H as [m C|m C E|status body C E Hok|status body m C E Hok Hr
                |status body all' next' C E Hok Hr Hb
                |status body all' next' C E Hok Hr Hn];
    rewrite C; [reflexivity|..]; rewrite E; try rewrite Hok; simpl; try reflexivity.
  - rewrite Hr. reflexivity.
  - rewrite Hr, Hb. reflexivity.
  - rewrite Hr, Hn, andb_false_r. reflexivity.
Qed.

(** What the loop returns, it returns at the end of a walk. *)
Lemma loop_sound fuel : forall all next r,
  Walk up t need all next ->
  fetchEodHistory_loop fuel up t need all next = Some r ->
  exists all' next', Walk up t need all' next' /\ Leaves up t need all' next' r.
Proof.
  induction fuel as [|fuel IH]; intros all next r W; [discriminate|].
  rewrite loop_unfold.
  destruct (cursor_error next) as [m|] eqn:C.
  { intros [= <-]. exists all, next. split; [exact W|]. by apply leaves_cursor. }
  destruct (prices up t next) as [m|status body] eqn:E.
  - intros [= <-]. exists all, next. split; [exact W|]. by apply leaves_rejected.
  - destruct (ok status) eqn:Hok; simpl.
    + destruct (read_page (spread_limit up) all body) as [[all' next']|m] eqn:Hr.
      * destruct (below_need_plus_1 (length all') need) eqn:Hb; simpl.
        -- destruct (truthy next') eqn:Hn.
           ++ intros H. eapply IH; [|exact H]. eapply walk_more; eauto.
           ++ intros [= <-]. exists all, next. split; [exact W|].
              eapply leaves_last_page; eauto.
        -- intros [= <-]. exists all, next. split; [exact W|].
           eapply leaves_enough; eauto.
      * intros [= <-]. exists all, next. split; [exact W|].
        eapply leaves_unreadable; eauto.
    + intros [= <-]. exists all, next. split; [exact W|].
      eapply leaves_not_ok; eauto.
Qed.

(** A result obtained from a state of the walk is obtained from the
    start, with more fuel. *)
Lemma walk_back all next :
  Walk up t need all next ->
  forall fuel r,
    fetchEodHistory_loop fuel up t need all next = Some r ->
    exists fuel', fetchEodHistory fuel' up t need = Some r.
Proof.
  unfold fetchEodHistory.
  induction 1 as [|all next status body all' next' W IH C E Hok Hr Hb Hn];
    intros fuel r H; [eauto|].
  apply (IH (S fuel)). rewrite loop_unfold, C, E, Hok. simpl.
  rewrite Hr, Hb, Hn. exact H.
Qed.

(** The loop of [fetchEodHistory] returns [r], given pages enough, exactly
    when its walk reaches a request that leaves with [r]. *)
Lemma fetchEodHistory_walk r :
  (exists fuel, fetchEodHistory fuel up t need = Some r)
  <-> exists all next, Walk up t need all next /\ Leaves up t need all next r.
Proof.
  split.
  - intros [fuel H]. eapply loop_sound; [apply walk_first|exact H].
  - intros (all & next & W & L).
    eapply (walk_back all next W 1). by apply leaves_one.
Qed.

Lemma loop_more_fuel fuel : forall all next r k,
  fetchEodHistory_loop fuel up t need all next = Some r ->
  fetchEodHistory_loop (fuel + k) up t need all next = Some r.
Proof.
  induction fuel as [|fuel IH]; intros all next r k; [discriminate|].
  change (S fuel + k) with (S (fuel + k)). rewrite !loop_unfold.
  destruct (cursor_error next); [auto|].
  destruct (prices up t next) as [m|status body]; [auto|].
  destruct (negb (ok status)); [auto|].
  destruct (read_page (spread_limit up) all body) as [[all' next']|m]; [|auto].
  destruct (below_need_plus_1 (length all') need && truthy next'); [|auto].
  apply IH.
Qed.

(** A page that is read is a page that could be pushed, and the rows
    already collected stay in front. *)
Lemma read_page_rows limit (all all' : list JsVal) body next' :
  read_page limit all body = Ok (all', next') ->
  exists j sp np,
    body = Ok j /\ get j "stock_prices" = Ok sp /\ get j "next_page" = Ok np
    /\ length (array_or_empty sp) <= limit
    /\ all' = (all ++ array_or_empty sp)%list
    /\ next' = or_else np JNull.
Proof.
  unfold read_page. destruct body as [j|]; simpl; [|discriminate].
  destruct (get j "stock_prices") as [sp|] eqn:Hsp; simpl; [|discriminate].
  destruct (Nat.ltb_spec limit (length (array_or_empty sp))); [discriminate|].
  destruct (get j "next_page") as [np|] eqn:Hnp; simpl; [|discriminate].
  intros [= <- <-]. exists j, sp, np. repeat split; auto.
Qed.

Lemma walk_rows_grow limit (all all' : list JsVal) body next' :
  read_page limit all body = Ok (all', next') -> exists rows, all' = (all ++ rows)%list.
Proof.
  intros H. destruct (read_page_rows _ _ _ _ _ H) as (j & sp & np & _ & _ & _ & _ & -> & _).
  eauto.
Qed.

End Pagination.

(** ** eodChangeVsLatest15m and the session branch of the worker *)

Lemma baseRow_at hist n :
  n < length hist -> baseRow hist (Sessions n) = index hist n.
Proof.
  intros H. unfold baseRow, longer_than.
  destruct (Nat.ltb_spec n (length hist)); [reflexivity|lia].
Qed.

Lemma baseRow_oldest hist n :
  length hist <= n -> baseRow hist (Sessions n) = last_elem hist.
Proof.
  intros H. unfold baseRow, longer_than.
  destruct (Nat.ltb_spec n (length hist)); [lia|reflexivity].
Qed.

(** After the two awaits: [now] is handed back as found, and the change
    is the specified rule on [now] and the numeric close of the base row. *)
Lemma eodChange_spec hist now sb base :
  now = JNull \/ (exists x, now = JNum x) ->
  numeric_close (baseRow hist sb) = Ok base ->
  exists e, eodChange hist now sb = Ok e
            /\ Eod.now e = now
            /\ Eod.changePct e = changePercentSpec now base.
Proof.
  intros [->|[x ->]] Hb; simpl; [eauto|].
  destruct hist as [|r hist]; simpl.
  - replace base with JNull; [eauto|].
    destruct sb; cbv in Hb; congruence.
  - rewrite Hb. simpl.
    destruct (numeric_close_cases _ _ Hb) as [->|[b ->]]; [eauto|].
    destruct (is_zero b); eauto.
Qed.

Lemma worker_session fuel up range t hist latest base :
  String.eqb range "hour" = false ->
  fetchEodHistory fuel up t (default (Sessions 1) (sessionsMap_at range)) = Some (Ok hist) ->
  latest15mClose up t = Ok latest ->
  numeric_close (baseRow hist (default (Sessions 1) (sessionsMap_at range))) = Ok base ->
  worker fuel up range t
  = Some {| Metric.ticker := t; Metric.price := Latest.price latest;
            Metric.changePercent := changePercentSpec (Latest.price latest) base |}.
Proof.
  intros Hr Hf Hl Hb. unfold worker, worker_try, eodChangeVsLatest15m.
  rewrite Hr, Hf. cbn [mbind option_bind bind]. rewrite Hl. cbn [bind].
  destruct (eodChange_spec hist (Latest.price latest) _ base
              (latest_price_cases _ _ _ Hl) Hb) as (e & -> & Hn & Hc).
  cbn [bind]. rewrite Hn, Hc. reflexivity.
Qed.

(** C1.  On the hour path and on the session path alike, changePercent
    is ((now - base) / base) * 100 when now and base are numbers and base
    is not 0, and null when base is 0 or when either is missing or not a
    number; now = 110 and base = 100 give 10. *)
Theorem changePercent_formula (fuel : nat) (up : Upstream) (range t : string)
    (latest : Latest.t) (hist : list JsVal) (base : JsVal) :
  latest15mClose up t = Ok latest ->
  (range = "hour" ->
     (6 <= length (Latest.intervals latest) ->
      numeric_close (hourlyBaseBar (Latest.intervals latest)) = Ok base ->
      worker fuel up range t
      = Some {| Metric.ticker := t; Metric.price := Latest.price latest;
                Metric.changePercent := changePercentSpec (Latest.price latest) base |})
     /\ (length (Latest.intervals latest) < 6 ->
         Metric.changePercent <$> worker fuel up range t = Some JNull))
  /\ (String.eqb range "hour" = false ->
      fetchEodHistory fuel up t (default (Sessions 1) (sessionsMap_at range)) = Some (Ok hist) ->
      numeric_close (baseRow hist (default (Sessions 1) (sessionsMap_at range))) = Ok base ->
      worker fuel up range t
      = Some {| Metric.ticker := t; Metric.price := Latest.price latest;
                Metric.changePercent := changePercentSpec (Latest.price latest) base |})
  /\ (forall n b, is_zero b = false ->
        changePercentSpec (JNum n) (JNum b) = JNum (((n - b) / b) * 100)%float)
  /\ (forall n b, is_zero b = true -> changePercentSpec (JNum n) (JNum b) = JNull)
  /\ (forall v w, is_number v = false \/ is_number w = false -> changePercentSpec v w = JNull)
  /\ changePercentSpec (JNum 110) (JNum 100) = JNum 10
  /\ changePercentSpec (JNum 110) (JNum 0) = JNull
  /\ changePercentSpec JNull (JNum 100) = JNull
  /\ changePercentSpec (JNum 110) JNull = JNull.
Proof.
  intros Hl. split; [|split; [|split; [|split; [|split]]]].
  - intros ->. split.
    + intros Hlen Hb.
      destruct (hourly_long _ _ _ Hlen (latest_price_last _ _ _ Hl) Hb) as (h & Hh & Hc).
      rewrite (worker_hour fuel up t latest h Hl Hh), Hc. reflexivity.
    + intros Hlen.
      rewrite (worker_hour fuel up t latest _ Hl (hourly_short _ Hlen)). reflexivity.
  - intros Hr Hf Hb. eapply worker_session; eauto.
  - intros n b Hz. simpl. rewrite Hz. reflexivity.
  - intros n b Hz. simpl. rewrite Hz. reflexivity.
  - intros v w [H|H]; destruct v; try reflexivity; destruct w; try reflexivity;
      discriminate.
  - repeat split; reflexivity.
Qed.

Lemma changePercent_formula_witness :
  worker 1 Sample.calm "hour" "AAPL"
  = Some {| Metric.ticker := "AAPL"; Metric.price := JNum 110;
            Metric.changePercent := JNum 10 |}
  /\ worker 1 Sample.calm "day" "AAPL"
     = Some {| Metric.ticker := "AAPL"; Metric.price := JNum 110;
               Metric.changePercent := JNum 10 |}.
Proof.
  pose proof (changePercent_formula 1 Sample.calm "hour" "AAPL"
    {| Latest.price := JNum 110;
       Latest.intervals := Sample.bar <$> [100; 101; 102; 103; 104; 110]%float |}
    [] (JNum 100) eq_refl) as (Hh & _).
  pose proof (changePercent_formula 1 Sample.calm "day" "AAPL"
    {| Latest.price := JNum 110;
       Latest.intervals := Sample.bar <$> [100; 101; 102; 103; 104; 110]%float |}
    (Sample.bar <$> [108; 100; 90]%float) (JNum 100) eq_refl) as (_ & Hd & _).
  split.
  - apply (proj1 (Hh eq_refl)); [simpl; lia|reflexivity].
  - apply Hd; reflexivity.
Defined.

(** ** The session lookback: table, walk, base and now *)

Lemma sessions_table :
  sessionsMap_at "day" = Some (Sessions 1)
  /\ sessionsMap_at "week" = Some (Sessions 5)
  /\ sessionsMap_at "month" = Some (Sessions 21)
  /\ sessionsMap_at "year" = Some (Sessions 252).
Proof. repeat split; vm_compute; reflexivity. Qed.

(** The lookup gives nothing for a name that is neither a property of
    the table nor one that the table inherits. *)
Lemma sessionsMap_at_none range :
  range ∉ ["day"; "week"; "month"; "year"] ->
  range ∉ object_prototype_names ->
  sessionsMap_at range = None.
Proof.
  intros Hown Hinh. unfold sessionsMap_at, sessionsMap.
  rewrite !lookup_insert_ne, lookup_empty.
  - by rewrite bool_decide_eq_false_2.
  - intros <-. apply Hown. set_solver.
  - intros <-. apply Hown. set_solver.
  - intros <-. apply Hown. set_solver.
  - intros <-. apply Hown. set_solver.
Qed.

(** C2 as stated fails: the walk also ends at a page that answers
    non-2xx.  Here the first page holds one row and names a next page,
    that page answers 503, and the week lookback is left with one row
    although no page ever reported the end. *)
Lemma eod_walk_ends_on_failed_page :
  ~ (forall fuel up t n hist,
       fetchEodHistory fuel up t (Sessions n) = Some (Ok hist) ->
       n + 1 <= length hist
       \/ exists next status j np,
            prices up t next = Responded status (Ok j)
            /\ ok status = true
            /\ get j "next_page" = Ok np
            /\ truthy np = false).
Proof.
  intros H.
  destruct (H 2 Sample.second_page_down "AAPL" 5 [Sample.bar 105] eq_refl)
    as [Hlen|(next & status & j & np & Hp & Hok & Hg & Hn)].
  - simpl in Hlen. lia.
  - destruct next; simpl in Hp; try discriminate.
    injection Hp as <- <-. simpl in Hg. injection Hg as <-. discriminate.
Qed.

(** C2, amended.  With sessionsBack = 1, 5, 21, 252 for day, week, month,
    year, and 1 for a range that the table lookup does not answer: the
    walk over the end-of-day pages goes on while fewer than
    sessionsBack + 1 rows are collected and the page named a next page.
    It ends with the rows collected when enough rows are there, when the
    page names no next page, or when a page answers non-2xx; it ends by a
    throw when the cursor cannot be written into the URL, when the
    request is rejected, when the page cannot be read or holds more rows
    than one push accepts, and the metric of the ticker is then the null
    metric.  Every result is the end of such a walk, and every such end
    is reached with pages enough.  The base is the close
    of the row at index sessionsBack when more than sessionsBack rows
    exist, otherwise of the oldest collected row, and now (the price of
    the metric) is the latest 15-minute close whatever the range. *)
Theorem eod_lookback (fuel : nat) (up : Upstream) (range t : string) (n : nat)
    (hist : list JsVal) (latest : Latest.t) (base : JsVal) :
  (sessionsMap_at "day" = Some (Sessions 1)
   /\ sessionsMap_at "week" = Some (Sessions 5)
   /\ sessionsMap_at "month" = Some (Sessions 21)
   /\ sessionsMap_at "year" = Some (Sessions 252)
   /\ (sessionsMap_at range = None ->
       default (Sessions 1) (sessionsMap_at range) = Sessions 1)
   /\ (range ∉ ["day"; "week"; "month"; "year"] ->
       range ∉ object_prototype_names ->
       sessionsMap_at range = None))
  /\ (forall r,
        fetchEodHistory fuel up t (Sessions n) = Some r ->
        exists all next,
          Walk up t (Sessions n) all next /\ Leaves up t (Sessions n) all next r)
  /\ (fetchEodHistory fuel up t (Sessions n) = Some (Ok hist) ->
      exists all next status body,
        Walk up t (Sessions n) all next
        /\ cursor_error next = None
        /\ prices up t next = Responded status body
        /\ ((ok status = false /\ hist = all)
            \/ (ok status = true
                /\ exists next', read_page (spread_limit up) all body = Ok (hist, next')
                   /\ (n + 1 <= length hist \/ truthy next' = false))))
  /\ (forall m,
        fetchEodHistory fuel up t (Sessions n) = Some (Throw m) ->
        exists all next,
          Walk up t (Sessions n) all next
          /\ (cursor_error next = Some m
              \/ (cursor_error next = None
                  /\ (prices up t next = Rejected m
                      \/ exists status body,
                           prices up t next = Responded status body
                           /\ ok status = true
                           /\ read_page (spread_limit up) all body = Throw m))))
  /\ (forall all next r,
        Walk up t (Sessions n) all next ->
        Leaves up t (Sessions n) all next r ->
        exists pages, fetchEodHistory pages up t (Sessions n) = Some r)
  /\ (forall m,
        String.eqb range "hour" = false ->
        fetchEodHistory fuel up t (default (Sessions 1) (sessionsMap_at range))
        = Some (Throw m) ->
        worker fuel up range t = Some (Metric.unavailable t))
  /\ (n < length hist -> baseRow hist (Sessions n) = index hist n)
  /\ (length hist <= n -> baseRow hist (Sessions n) = last_elem hist)
  /\ (String.eqb range "hour" = false ->
      fetchEodHistory fuel up t (default (Sessions 1) (sessionsMap_at range)) = Some (Ok hist) ->
      latest15mClose up t = Ok latest ->
      numeric_close (baseRow hist (default (Sessions 1) (sessionsMap_at range))) = Ok base ->
      worker fuel up range t
      = Some {| Metric.ticker := t; Metric.price := Latest.price latest;
                Metric.changePercent := changePercentSpec (Latest.price latest) base |}).
Proof.
  split; [|split; [|split; [|split; [|split; [|split; [|split; [|split]]]]]]].
  - destruct sessions_table as (? & ? & ? & ?). repeat split; try assumption.
    + intros ->. reflexivity.
    + apply sessionsMap_at_none.
  - intros r Hf.
    apply (proj1 (fetchEodHistory_walk up t (Sessions n) r)). eauto.
  - intros Hf.
    destruct (proj1 (fetchEodHistory_walk up t (Sessions n) (Ok hist)) (ex_intro _ fuel Hf))
      as (all & next & W & L).
    exists all, next.
    inversion L as [| |status body C E Hok|
                   |status body all' next' C E Hok Hr Hb
                   |status body all' next' C E Hok Hr Hn];
      subst; exists status, body; (split; [exact W|split; [exact C|split; [exact E|]]]).
    + left. auto.
    + right. split; [exact Hok|]. exists next'. split; [exact Hr|]. left.
      simpl in Hb. destruct (Nat.ltb_spec (length hist) (n + 1)); [discriminate|lia].
    + right. split; [exact Hok|]. exists next'. auto.
  - intros m Hf.
    destruct (proj1 (fetchEodHistory_walk up t (Sessions n) (Throw m)) (ex_intro _ fuel Hf))
      as (all & next & W & L).
    exists all, next. split; [exact W|].
    inversion L as [m' C|m' C E| |status body m' C E Hok Hr| |]; subst.
    + by left.
    + right. split; [exact C|]. by left.
    + right. split; [exact C|]. right. by exists status, body.
  - intros all next r W L.
    apply (proj2 (fetchEodHistory_walk up t (Sessions n) r)). eauto.
  - intros m Hr Hf. unfold worker, worker_try, eodChangeVsLatest15m.
    by rewrite Hr, Hf.
  - apply baseRow_at.
  - apply baseRow_oldest.
  - apply worker_session.
Qed.

Lemma eod_lookback_witness :
  fetchEodHistory 2 Sample.two_pages "AAPL" (Sessions 5)
  = Some (Ok (Sample.bar <$> [105; 100; 50]%float))
  /\ worker 2 Sample.two_pages "week" "AAPL"
     = Some {| Metric.ticker := "AAPL"; Metric.price := JNum 110;
               Metric.changePercent := JNum 120 |}
  /\ worker 2 Sample.calm "day" "AAPL"
     = Some {| Metric.ticker := "AAPL"; Metric.price := JNum 110;
               Metric.changePercent := JNum 10 |}
  /\ (exists pages,
        fetchEodHistory pages Sample.odd_cursor "AAPL" (Sessions 5)
        = Some (Throw not_primitive))
  /\ worker 2 Sample.odd_cursor "week" "AAPL" = Some (Metric.unavailable "AAPL").
Proof.
  pose proof (eod_lookback 2 Sample.two_pages "week" "AAPL" 5
                (Sample.bar <$> [105; 100; 50]%float)
                {| Latest.price := JNum 110;
                   Latest.intervals := Sample.bar <$> [100; 101; 102; 103; 104; 110]%float |}
                (JNum 50)) as (_ & _ & _ & _ & _ & _ & _ & _ & Hweek).
  pose proof (eod_lookback 2 Sample.calm "day" "AAPL" 1
                (Sample.bar <$> [108; 100; 90]%float)
                {| Latest.price := JNum 110;
                   Latest.intervals := Sample.bar <$> [100; 101; 102; 103; 104; 110]%float |}
                (JNum 100)) as (_ & _ & _ & _ & _ & _ & _ & _ & Hday).
  pose proof (eod_lookback 2 Sample.odd_cursor "week" "AAPL" 5 []
                {| Latest.price := JNull; Latest.intervals := [] |} JNull)
    as (_ & _ & _ & _ & Hends & Hnull & _).
  split; [reflexivity|]. split; [|split; [|split]].
  - apply Hweek; reflexivity.
  - apply Hday; reflexivity.
  - apply (Hends [Sample.bar 105] (JObj [("toString", JNum 1)])).
    + eapply (walk_more _ _ _ [] JNull 200 _ _ _ (walk_first _ _ _));
        reflexivity.
    + apply leaves_cursor. reflexivity.
  - apply (Hnull not_primitive); reflexivity.
Defined.

(** ** The query parameters *)

Lemma LIMIT_bounds v : (1 <= LIMIT v <= 100)%Z.
Proof. unfold LIMIT. lia. Qed.

Lemma CONCURRENCY_bounds v : (1 <= CONCURRENCY (LIMIT v) <= 10)%Z.
Proof. pose proof (LIMIT_bounds v). unfold CONCURRENCY. lia. Qed.

Lemma range_of_string s :
  s <> "" -> range_of (QStr s) = Ok (toLowerCase s).
Proof.
  intros H. simpl. destruct (String.eqb_spec s ""); [contradiction|reflexivity].
Qed.

(** The handler reads the two parameters only through [range_of] and
    [LIMIT]. *)
Lemma sp500_reads_query fuel key up order q q' :
  range_of (Query.range q) = range_of (Query.range q') ->
  LIMIT (Query.limit q) = LIMIT (Query.limit q') ->
  sp500 fuel key up order q = sp500 fuel key up order q'.
Proof. intros Hr Hl. unfold sp500. rewrite Hr, Hl. reflexivity. Qed.

Lemma take_length_le {A} (l : list A) k : length (take k l) <= k.
Proof. rewrite length_take. lia. Qed.

Lemma sp500_length fuel key up order q items :
  sp500 fuel key up order q = Some (Json200 items) ->
  (Z.of_nat (length items) <= LIMIT (Query.limit q))%Z.
Proof.
  unfold sp500. destruct (key_missing key); [discriminate|].
  destruct (range_of _) as [range|]; [|discriminate].
  destruct (getTopTickers _ _) as [tickers|]; [|discriminate].
  destruct (batches _ _ _ _ _ _ _) as [out|]; [|discriminate].
  cbn [mbind option_bind]. intros [= <-].
  pose proof (take_length_le (List.filter kept out) (Z.to_nat (LIMIT (Query.limit q)))).
  pose proof (LIMIT_bounds (Query.limit q)). lia.
Qed.

(** C7.  A limit that parses to a finite number is clamped to [1, 100]
    (0 behaves as 1, 1000 as 100); an absent or non-numeric limit gives
    10; the handler sees the parameter only through the clamped value, so
    an out-of-range limit is served like its clamped value, not rejected;
    and a 200 response holds at most limit items. *)
Theorem limit_clamped (fuel : nat) (key : option string) (up : Upstream)
    (order : nat -> list nat) (q : Query.t) (s : string) (z : Z)
    (items : list Metric.t) :
  (parseInt (to_string (Query.limit q)) = Some z ->
   Number_isFinite (Some z) = true ->
   LIMIT (Query.limit q) = Z.max 1 (Z.min 100 z))
  /\ (1 <= LIMIT (Query.limit q) <= 100)%Z
  /\ LIMIT (QStr "0") = 1%Z
  /\ LIMIT (QStr "1000") = 100%Z
  /\ LIMIT QMissing = 10%Z
  /\ (parseInt s = None -> LIMIT (QStr s) = 10%Z)
  /\ sp500 fuel key up order {| Query.range := Query.range q; Query.limit := QStr "0" |}
     = sp500 fuel key up order {| Query.range := Query.range q; Query.limit := QStr "1" |}
  /\ sp500 fuel key up order {| Query.range := Query.range q; Query.limit := QStr "1000" |}
     = sp500 fuel key up order {| Query.range := Query.range q; Query.limit := QStr "100" |}
  /\ (sp500 fuel key up order q = Some (Json200 items) ->
      (Z.of_nat (length items) <= LIMIT (Query.limit q))%Z).
Proof.
  split; [|split; [|split; [|split; [|split; [|split; [|split; [|split]]]]]]].
  - intros Hp Hf. unfold LIMIT. rewrite Hp, Hf. reflexivity.
  - apply LIMIT_bounds.
  - vm_compute. reflexivity.
  - vm_compute. reflexivity.
  - vm_compute. reflexivity.
  - intros Hp. unfold LIMIT. simpl to_string. rewrite Hp. reflexivity.
  - apply sp500_reads_query; [reflexivity|vm_compute; reflexivity].
  - apply sp500_reads_query; [reflexivity|vm_compute; reflexivity].
  - apply sp500_length.
Qed.

Lemma limit_clamped_witness :
  LIMIT (QStr "250") = 100%Z
  /\ (Z.of_nat (length [Metric.unavailable "AAPL"; Metric.unavailable "MSFT"])
      <= LIMIT (QStr "2"))%Z.
Proof.
  pose proof (limit_clamped 1 (Some "key") Sample.offline (Sample.in_order 2)
                (Sample.query (QStr "day") (QStr "250")) "" 250
                []) as (Hclamp & _).
  pose proof (limit_clamped 1 (Some "key") Sample.msft_down (Sample.in_order 2)
                (Sample.query (QStr "hour") (QStr "2")) "" 2
                [ {| Metric.ticker := "AAPL"; Metric.price := JNum 110;
                     Metric.changePercent := JNum 10 |};
                  Metric.unavailable "MSFT" ])
    as (_ & _ & _ & _ & _ & _ & _ & _ & Hlen).
  split.
  - apply Hclamp; reflexivity.
  - apply Hlen. vm_compute. reflexivity.
Defined.

(** ** Promise.all *)

Local Open Scope list_scope.

Section PromiseAll.
Context {A : Type}.
Implicit Types (vs : list A) (slots : list (option A)) (order : list nat).

Lemma written_start vs : written vs (replicate (length vs) None).
Proof.
  split; [apply length_replicate|].
  intros i x H. apply lookup_replicate in H as [H _]. discriminate.
Qed.

Lemma settle_written vs slots i : written vs slots -> written vs (settle vs slots i).
Proof.
  intros [Hlen Hw]. unfold settle. destruct (vs !! i) as [v|] eqn:E; [|by split].
  split; [by rewrite length_insert|].
  intros j x. destruct (decide (i = j)) as [<-|Hne].
  - rewrite list_lookup_insert_eq; [congruence|].
    rewrite Hlen. eapply lookup_lt_Some, E.
  - rewrite list_lookup_insert_ne by done. apply Hw.
Qed.

Lemma settle_keeps vs slots i j x :
  written vs slots -> slots !! j = Some (Some x) -> settle vs slots i !! j = Some (Some x).
Proof.
  intros [Hlen Hw] H. unfold settle. destruct (vs !! i) as [v|] eqn:E; [|done].
  destruct (decide (i = j)) as [<-|Hne].
  - rewrite list_lookup_insert_eq by (eapply lookup_lt_Some, H).
    apply Hw in H. congruence.
  - by rewrite list_lookup_insert_ne.
Qed.

Lemma settled_written vs order : forall slots,
  written vs slots -> written vs (foldl (settle vs) slots order).
Proof.
  induction order as [|i order IH]; intros slots H; [done|].
  simpl. apply IH, settle_written, H.
Qed.

Lemma settled_keeps vs order j x : forall slots,
  written vs slots -> slots !! j = Some (Some x) ->
  foldl (settle vs) slots order !! j = Some (Some x).
Proof.
  induction order as [|i order IH]; intros slots Hw H; [done|].
  simpl. apply IH; [by apply settle_written|by apply settle_keeps].
Qed.

(** A promise that settles has its slot written, whenever it settles. *)
Lemma settled_fills vs order j x : forall slots,
  written vs slots -> j ∈ order -> vs !! j = Some x ->
  foldl (settle vs) slots order !! j = Some (Some x).
Proof.
  induction order as [|i order IH]; intros slots Hw Hin Hv.
  - by apply elem_of_nil in Hin.
  - simpl. apply elem_of_cons in Hin as [<-|Hin].
    + apply settled_keeps; [by apply settle_written|].
      unfold settle. rewrite Hv. apply list_lookup_insert_eq.
      destruct Hw as [-> _]. eapply lookup_lt_Some, Hv.
    + apply IH; [by apply settle_written|done|done].
Qed.

Lemma all_settled_values vs slots l :
  written vs slots -> mapM id slots = Some l -> l = vs.
Proof.
  intros [Hlen Hw] H. apply mapM_Some_1 in H.
  pose proof (Forall2_length _ _ _ H) as Hl.
  apply list_eq. intros i. destruct (l !! i) as [x|] eqn:E.
  - destruct (Forall2_lookup_r _ _ _ _ _ H E) as (s & Hs & Hx).
    simpl in Hx. subst s. symmetry. by apply Hw.
  - symmetry. apply lookup_ge_None. apply lookup_ge_None in E. lia.
Qed.

(** Whatever the order of settling, an awaited [Promise.all] that returns
    returns the values in the order of its input. *)
Lemma promiseAll_sound order (ps : list (option A)) l :
  promiseAll order ps = Some l -> mapM id ps = Some l.
Proof.
  unfold promiseAll. destruct (mapM id ps) as [vs|]; [|done].
  cbn [mbind option_bind]. intros H. f_equal. symmetry.
  eapply all_settled_values; [|exact H].
  apply settled_written, written_start.
Qed.

(** And it returns as soon as every promise of the input has settled. *)
Lemma promiseAll_complete order (ps : list (option A)) :
  (forall i, i < length ps -> i ∈ order) ->
  promiseAll order ps = mapM id ps.
Proof.
  intros Hall. unfold promiseAll. destruct (mapM id ps) as [vs|] eqn:E; [|done].
  cbn [mbind option_bind]. apply mapM_Some_2.
  pose proof (Forall2_length _ _ _ (mapM_Some_1 _ _ _ E)) as Hl.
  pose proof (settled_written vs order _ (written_start vs)) as [Hlen _].
  apply Forall2_same_length_lookup. split; [done|].
  intros i s x Hs Hx. simpl.
  rewrite (settled_fills vs order i x _ (written_start vs)) in Hs; [congruence| |done].
  apply Hall. rewrite Hl. eapply lookup_lt_Some, Hx.
Qed.

Lemma promiseAll_any_order order (ps : list (option A)) :
  order ≡ₚ seq 0 (length ps) -> promiseAll order ps = mapM id ps.
Proof.
  intros Hp. apply promiseAll_complete. intros i Hi.
  rewrite Hp. apply elem_of_seq. lia.
Qed.

End PromiseAll.

Lemma mapM_id_fmap {A B} (f : A -> option B) (l : list A) :
  mapM id (f <$> l) = mapM f l.
Proof.
  induction l as [|x l IH]; [done|]. csimpl.
  destruct (f x); [|done]. csimpl. f_equal. exact IH.
Qed.

Lemma mapM_append {A B} (f : A -> option B) (l k : list A) :
  mapM f (l ++ k) = (l' ← mapM f l; k' ← mapM f k; Some (l' ++ k')).
Proof.
  induction l as [|x l IH].
  - simpl. destruct (mapM f k); done.
  - change (mapM f ((x :: l) ++ k)) with (y ← f x; r ← mapM f (l ++ k); Some (y :: r)).
    change (mapM f (x :: l)) with (y ← f x; r ← mapM f l; Some (y :: r)).
    rewrite IH. destruct (f x); [|done]. simpl.
    destruct (mapM f l); [|done]. simpl. destruct (mapM f k); done.
Qed.

(** ** The chunked loop *)

Section Batches.
Variables (work : string -> option Metric.t) (order : nat -> list nat).
Variables (tickers : list string) (concurrency : nat).
Hypothesis positive : 1 <= concurrency.

Lemma chunk_and_rest i :
  drop i tickers = slice i (i + concurrency) tickers ++ drop (i + concurrency) tickers.
Proof.
  unfold slice. replace (i + concurrency - i) with concurrency by lia.
  rewrite <- (take_drop concurrency (drop i tickers)) at 1.
  by rewrite drop_drop.
Qed.

(** Whatever the loop returns is the sequential map of the worker over
    the remaining tickers, appended to [out]. *)
Lemma batches_sound fuel : forall i out res,
  batches fuel work order tickers concurrency i out = Some res ->
  exists rest, mapM work (drop i tickers) = Some rest /\ res = out ++ rest.
Proof.
  induction fuel as [|fuel IH]; intros i out res; [done|]. simpl.
  destruct (Nat.ltb_spec i (length tickers)) as [Hi|Hi].
  - destruct (promiseAll _ _) as [batch|] eqn:Hb; [|done].
    cbn [mbind option_bind]. intros H.
    apply promiseAll_sound in Hb. rewrite mapM_id_fmap in Hb.
    destruct (IH _ _ _ H) as (rest & Hr & ->).
    exists (batch ++ rest). rewrite chunk_and_rest, mapM_append, Hb, Hr.
    split; [done|]. by rewrite app_assoc.
  - intros [= <-]. exists []. rewrite drop_ge by lia. split; [done|].
    by rewrite app_nil_r.
Qed.

Hypothesis any_order :
  forall i, order i ≡ₚ seq 0 (length (slice i (i + concurrency) tickers)).

(** With every chunk's promises settling, in any order, the loop is the
    sequential map. *)
Lemma batches_complete fuel : forall i out,
  length tickers - i < fuel ->
  batches fuel work order tickers concurrency i out
  = (rest ← mapM work (drop i tickers); Some (out ++ rest)).
Proof.
  induction fuel as [|fuel IH]; intros i out Hf; [lia|]. simpl.
  destruct (Nat.ltb_spec i (length tickers)) as [Hi|Hi].
  - rewrite promiseAll_any_order by (rewrite length_fmap; apply any_order).
    rewrite mapM_id_fmap, (chunk_and_rest i), mapM_append.
    destruct (mapM work (slice i (i + concurrency) tickers)) as [batch|]; [|done].
    cbn [mbind option_bind]. rewrite IH by lia.
    destruct (mapM work (drop (i + concurrency) tickers)) as [rest|]; [|done].
    cbn [mbind option_bind]. by rewrite app_assoc.
  - rewrite drop_ge by lia. simpl. by rewrite app_nil_r.
Qed.

Lemma batches_map :
  batches (S (length tickers)) work order tickers concurrency 0 [] = mapM work tickers.
Proof.
  rewrite batches_complete by lia. rewrite drop_0.
  destruct (mapM work tickers); done.
Qed.

End Batches.

(** ** getTopTickers *)

Lemma strip_prefix_length p : forall s r,
  strip_prefix p s = Some r -> String.length s = String.length p + String.length r.
Proof.
  induction p as [|a p IH]; intros s r; simpl.
  - by intros [= ->].
  - destruct s as [|b s]; [done|]. destruct (Ascii.eqb a b); [|done].
    intros H. simpl. by rewrite (IH _ _ H).
Qed.

Lemma take_symbol_length s :
  String.length s = String.length (fst (take_symbol s)) + String.length (snd (take_symbol s)).
Proof.
  induction s as [|c s IH]; [done|]. simpl.
  destruct (symbol_char c); simpl; [by rewrite IH|done].
Qed.

(** A match captures at least one character and consumes text. *)
Lemma match_here_capture s tk rest :
  match_here s = Some (tk, rest) ->
  tk <> "" /\ String.length rest < String.length s.
Proof.
  unfold match_here. destruct (strip_prefix "/symbol/" s) as [r|] eqn:E; [|done].
  apply strip_prefix_length in E. pose proof (take_symbol_length r) as Hl.
  destruct (take_symbol r) as [[|c tk'] [|q rest']]; try done.
  destruct (Ascii.eqb q dquote); [|done].
  intros [= <- <-]. split; [done|]. simpl in *. lia.
Qed.

Lemma exec_capture s : forall tk rest,
  exec s = Some (tk, rest) ->
  tk <> "" /\ String.length rest < String.length s.
Proof.
  induction s as [|c s IH]; intros tk rest.
  - done.
  - change (exec (String c s))
      with (match match_here (String c s) with Some m => Some m | None => exec s end).
    destruct (match_here (String c s)) as [m|] eqn:E.
    + intros [= ->]. by apply match_here_capture in E.
    + intros H. destruct (IH _ _ H) as [? ?]. split; [done|]. simpl. lia.
Qed.

Section Scan.
Variable limit : nat.

Lemma scan_unfold fuel html out seen :
  scan (S fuel) html limit out seen
  = match exec html with
    | Some (tk, rest) =>
        if Nat.ltb (length out) limit then
          if decide (tk ∈ seen) then scan fuel rest limit out seen
          else scan fuel rest limit (out ++ [tk]) ({[tk]} ∪ seen)
        else out
    | None => out
    end.
Proof. reflexivity. Qed.

(** Fuel above the length of the text is never used up: any two such
    amounts give the same list. *)
Lemma scan_enough_fuel fuel : forall fuel' html out seen,
  String.length html < fuel -> String.length html < fuel' ->
  scan fuel html limit out seen = scan fuel' html limit out seen.
Proof.
  induction fuel as [|fuel IH]; intros fuel' html out seen H H'; [lia|].
  destruct fuel' as [|fuel']; [lia|]. rewrite !scan_unfold.
  destruct (exec html) as [[tk rest]|] eqn:E; [|done].
  apply exec_capture in E as [_ E].
  destruct (Nat.ltb (length out) limit); [|done].
  destruct (decide (tk ∈ seen)); apply IH; lia.
Qed.

Lemma scan_nonempty_strings fuel : forall html out seen,
  Forall (fun tk => tk <> "") out ->
  Forall (fun tk => tk <> "") (scan fuel html limit out seen).
Proof.
  induction fuel as [|fuel IH]; intros html out seen H; [done|].
  rewrite scan_unfold. destruct (exec html) as [[tk rest]|] eqn:E; [|done].
  apply exec_capture in E as [E _].
  destruct (Nat.ltb (length out) limit); [|done].
  destruct (decide (tk ∈ seen)); apply IH; [done|].
  apply Forall_app. split; [done|]. by constructor.
Qed.

Lemma scan_length fuel : forall html out seen,
  length (scan fuel html limit out seen) <= max (length out) limit.
Proof.
  induction fuel as [|fuel IH]; intros html out seen; [simpl; lia|].
  rewrite scan_unfold. destruct (exec html) as [[tk rest]|]; [|lia].
  destruct (Nat.ltb_spec (length out) limit) as [Hl|Hl]; [|lia].
  destruct (decide (tk ∈ seen)); [apply IH|].
  etrans; [apply IH|]. rewrite length_app. simpl. lia.
Qed.

Lemma scan_extends fuel : forall html out seen,
  exists more, scan fuel html limit out seen = out ++ more.
Proof.
  induction fuel as [|fuel IH]; intros html out seen.
  - exists []. simpl. by rewrite app_nil_r.
  - rewrite scan_unfold. destruct (exec html) as [[tk rest]|].
    2:{ exists []. by rewrite app_nil_r. }
    destruct (Nat.ltb (length out) limit).
    2:{ exists []. by rewrite app_nil_r. }
    destruct (decide (tk ∈ seen)); [apply IH|].
    destruct (IH rest (out ++ [tk]) ({[tk]} ∪ seen)) as [more ->].
    exists (tk :: more). by rewrite <- app_assoc.
Qed.

(** Nothing is extracted exactly when the page holds no match (or the
    limit is zero). *)
Lemma scan_nothing html :
  scan (S (String.length html)) html limit [] ∅ = []
  <-> exec html = None \/ limit = 0.
Proof.
  rewrite scan_unfold. destruct (exec html) as [[tk rest]|]; [|by intuition].
  simpl length. destruct (Nat.ltb_spec 0 limit) as [Hl|Hl].
  - rewrite decide_False by set_solver.
    destruct (scan_extends (String.length html) rest ([] ++ [tk]) ({[tk]} ∪ ∅))
      as [more ->].
    simpl. split; [done|]. intros [?|?]; [done|lia].
  - split; [right; lia|done].
Qed.

End Scan.

Lemma getTopTickers_throws up limit m :
  getTopTickers up limit = Throw m <-> listing_failure up limit m.
Proof.
  unfold listing_failure, getTopTickers. split.
  - destruct (listing up) as [m'|status body]; [intros [= ->]; by left|].
    destruct (ok status) eqn:Hok; cbn [negb bind].
    + destruct body as [html|m']; cbn [bind].
      * destruct (scan (S (String.length html)) html limit [] ∅) eqn:Hs; cbn [length Nat.eqb]; [|done].
        intros [= <-]. right; right; right. exists status, html. done.
      * intros [= ->]. right; right; left. eauto.
    + intros [= <-]. right; left. eauto.
  - intros [H|[(status & body & H & Hok & ->)|[(status & H & Hok)
            |(status & html & H & Hok & Hs & ->)]]]; rewrite H; [done| | |].
    + by rewrite Hok.
    + by rewrite Hok.
    + rewrite Hok. cbn [negb bind]. by rewrite Hs.
Qed.

(** A returned list is never empty, holds at most [limit] tickers, and
    each ticker is a non-empty string. *)
Lemma getTopTickers_returns up limit tickers :
  getTopTickers up limit = Ok tickers ->
  tickers <> [] /\ length tickers <= limit /\ Forall (fun tk => tk <> "") tickers.
Proof.
  unfold getTopTickers. destruct (listing up) as [|status body]; [done|].
  destruct (negb (ok status)); [done|]. destruct body as [html|]; [|done]. cbn [bind].
  pose proof (scan_length limit (S (String.length html)) html [] ∅) as Hlen.
  pose proof (scan_nonempty_strings limit (S (String.length html)) html [] ∅
                (Forall_nil_2 _)) as Hne.
  destruct (scan (S (String.length html)) html limit [] ∅) as [|tk out]; [done|].
  simpl in Hlen. cbn [length Nat.eqb]. intros [= <-].
  rewrite take_ge by (simpl; lia). split; [done|]. split; [simpl; lia|done].
Qed.

(** ** The worker never fails *)

Lemma worker_keeps_ticker fuel up range t m :
  worker fuel up range t = Some m -> Metric.ticker m = t.
Proof.
  unfold worker. destruct (worker_try fuel up range t) as [[m'|msg]|] eqn:E;
    cbn [mbind option_bind]; intros [= <-]; [|reflexivity].
  revert E. unfold worker_try. destruct (String.eqb range "hour").
  - destruct (latest15mClose up t) as [latest|]; [|done].
    destruct (hourly_total (JArr (Latest.intervals latest))) as [h Hh].
    cbn [bind]. rewrite Hh. cbn [bind]. by intros [= <-].
  - destruct (eodChangeVsLatest15m _ _ _ _) as [[out|]|]; [|done|done].
    cbn [mbind option_bind bind]. by intros [= <-].
Qed.

(** The worker returns whenever the body of its [try] ends, by a value
    or by a failure. *)
Lemma worker_returns fuel up range t :
  is_Some (worker fuel up range t) <-> is_Some (worker_try fuel up range t).
Proof.
  unfold worker. destruct (worker_try fuel up range t) as [r|]; cbn [mbind option_bind].
  - split; eauto.
  - done.
Qed.

Lemma worker_caught fuel up range t msg :
  worker_try fuel up range t = Some (Throw msg) ->
  worker fuel up range t = Some (Metric.unavailable t).
Proof. unfold worker. by intros ->. Qed.

Lemma worker_passed fuel up range t m :
  worker_try fuel up range t = Some (Ok m) -> worker fuel up range t = Some m.
Proof. unfold worker. by intros ->. Qed.

Lemma mapM_workers fuel up range tickers ms :
  mapM (worker fuel up range) tickers = Some ms ->
  length ms = length tickers /\ Metric.ticker <$> ms = tickers.
Proof.
  intros H. apply mapM_Some_1 in H. induction H as [|t m tickers ms Hw _ [IH1 IH2]].
  - done.
  - csimpl. rewrite IH1, IH2, (worker_keeps_ticker _ _ _ _ _ Hw). done.
Qed.

Lemma filter_all {A} (f : A -> bool) (l : list A) :
  Forall (fun x => f x = true) l -> List.filter f l = l.
Proof. induction 1 as [|x l Hx _ IH]; simpl; [done|]. by rewrite Hx, IH. Qed.

(** ** The handler *)

Section Handler.
Variables (fuel : nat) (key : option string) (up : Upstream) (order : nat -> list nat).
Variables (q : Query.t) (range : string) (tickers : list string).
Hypothesis key_present : key_missing key = false.
Hypothesis range_read : range_of (Query.range q) = Ok range.
Hypothesis listed : getTopTickers up (Z.to_nat (LIMIT (Query.limit q))) = Ok tickers.

Lemma concurrency_positive : 1 <= Z.to_nat (CONCURRENCY (LIMIT (Query.limit q))).
Proof. pose proof (CONCURRENCY_bounds (Query.limit q)). lia. Qed.

(** The filter and the final slice leave the metrics of the listed
    tickers as they are. *)
Lemma response_untrimmed ms :
  mapM (worker fuel up range) tickers = Some ms ->
  take (Z.to_nat (LIMIT (Query.limit q))) (List.filter kept ms) = ms.
Proof.
  intros H. destruct (getTopTickers_returns _ _ _ listed) as (_ & Hlen & Hne).
  destruct (mapM_workers _ _ _ _ _ H) as [Hl Ht].
  rewrite filter_all.
  - apply take_ge. lia.
  - apply Forall_forall. intros m Hm.
    assert (Metric.ticker m ∈ tickers) as Hin.
    { rewrite <- Ht. apply list_elem_of_fmap. eauto. }
    rewrite Forall_forall in Hne. specialize (Hne _ Hin).
    unfold kept. simpl. destruct (String.eqb_spec (Metric.ticker m) ""); done.
Qed.

Lemma sp500_listed :
  sp500 fuel key up order q
  = (out ← batches (S (length tickers)) (worker fuel up range) order tickers
             (Z.to_nat (CONCURRENCY (LIMIT (Query.limit q)))) 0 [];
     Some (Json200 (take (Z.to_nat (LIMIT (Query.limit q))) (List.filter kept out)))).
Proof. unfold sp500. by rewrite key_present, range_read, listed. Qed.

(** A 200 response carries the sequential map of the worker over the
    listed tickers. *)
Lemma sp500_sound items :
  sp500 fuel key up order q = Some (Json200 items) ->
  mapM (worker fuel up range) tickers = Some items.
Proof.
  rewrite sp500_listed.
  destruct (batches _ _ _ _ _ _ _) as [out|] eqn:Hb; [|done].
  cbn [mbind option_bind]. intros [= <-].
  apply batches_sound in Hb as (rest & Hr & ->); [|apply concurrency_positive].
  rewrite drop_0 in Hr. rewrite app_nil_l. rewrite Hr. f_equal. symmetry.
  by apply response_untrimmed.
Qed.

Hypothesis any_order :
  forall i, order i ≡ₚ
    seq 0 (length (slice i (i + Z.to_nat (CONCURRENCY (LIMIT (Query.limit q)))) tickers)).

Lemma sp500_success ms :
  mapM (worker fuel up range) tickers = Some ms ->
  sp500 fuel key up order q = Some (Json200 ms).
Proof.
  intros H. rewrite sp500_listed, batches_map; [|apply concurrency_positive|done].
  rewrite H. cbn [mbind option_bind]. by rewrite response_untrimmed.
Qed.

End Handler.

(** ** The batch and its order *)

(** C4.  With concurrency = min(limit, 10) and every chunk awaited in
    full, the chunked loop returns what the sequential map of the worker
    returns, whatever the order in which the promises of a chunk settle;
    on success the result has the length of the ticker list and carries
    the i-th ticker at position i. *)
Theorem batches_in_input_order (fuel : nat) (up : Upstream) (range : string)
    (order : nat -> list nat) (tickers : list string) (v : QueryVal) :
  (forall i, order i ≡ₚ
     seq 0 (length (slice i (i + Z.to_nat (CONCURRENCY (LIMIT v))) tickers))) ->
  CONCURRENCY (LIMIT v) = Z.min (LIMIT v) 10
  /\ batches (S (length tickers)) (worker fuel up range) order tickers
       (Z.to_nat (CONCURRENCY (LIMIT v))) 0 []
     = runAllSequential (worker fuel up range) tickers
  /\ (forall out,
        runAllSequential (worker fuel up range) tickers = Some out ->
        length out = length tickers
        /\ Metric.ticker <$> out = tickers
        /\ forall i tk, tickers !! i = Some tk ->
             exists m, out !! i = Some m /\ Metric.ticker m = tk).
Proof.
  intros Hord. split; [reflexivity|]. split.
  - apply batches_map; [|exact Hord].
    pose proof (CONCURRENCY_bounds v). lia.
  - intros out H. destruct (mapM_workers _ _ _ _ _ H) as [Hl Ht].
    split; [done|]. split; [done|]. intros i tk Hi.
    rewrite <- Ht, list_lookup_fmap in Hi.
    destruct (out !! i) as [m|]; [|done]. injection Hi as <-. eauto.
Qed.

Lemma batches_in_input_order_witness :
  batches 4 (worker 1 Sample.calm "day") (Sample.reversed 2) Sample.tickers 2 0 []
  = runAllSequential (worker 1 Sample.calm "day") Sample.tickers.
Proof.
  refine (proj1 (proj2 (batches_in_input_order 1 Sample.calm "day"
                          (Sample.reversed 2) Sample.tickers (QStr "2") _))).
  intros i. apply reverse_Permutation.
Defined.

(** ** Failures *)

(** C5.  When the ticker list is obtained and every per-ticker
    computation ends, by a value or by a throw, the response is a 200
    with one metric per ticker, in input order: a ticker whose computation
    throws has the null metric at its position, every other ticker has
    the metric its own computation returned, and nothing is dropped. *)
Theorem failing_ticker_keeps_its_place (fuel : nat) (key : option string)
    (up : Upstream) (order : nat -> list nat) (q : Query.t) (range : string)
    (tickers : list string) :
  key_missing key = false ->
  range_of (Query.range q) = Ok range ->
  getTopTickers up (Z.to_nat (LIMIT (Query.limit q))) = Ok tickers ->
  (forall tk, tk ∈ tickers -> is_Some (worker_try fuel up range tk)) ->
  (forall i, order i ≡ₚ
     seq 0 (length (slice i (i + Z.to_nat (CONCURRENCY (LIMIT (Query.limit q)))) tickers))) ->
  exists items,
    sp500 fuel key up order q = Some (Json200 items)
    /\ length items = length tickers
    /\ forall i tk, tickers !! i = Some tk ->
         exists m, items !! i = Some m
           /\ Metric.ticker m = tk
           /\ (forall msg, worker_try fuel up range tk = Some (Throw msg) ->
               m = {| Metric.ticker := tk; Metric.price := JNull;
                      Metric.changePercent := JNull |})
           /\ (forall m', worker_try fuel up range tk = Some (Ok m') -> m = m').
Proof.
  intros Hkey Hrange Hlist Hend Hord.
  destruct (mapM (worker fuel up range) tickers) as [items|] eqn:E.
  2:{ apply mapM_None_1, Exists_exists in E as (tk & Hin & Hnone).
      destruct (proj2 (worker_returns fuel up range tk) (Hend _ Hin)) as [m Hm].
      congruence. }
  exists items. split; [by eapply sp500_success|].
  destruct (mapM_workers _ _ _ _ _ E) as [Hl Ht]. split; [done|].
  intros i tk Hi. apply mapM_Some_1 in E.
  destruct (Forall2_lookup_l _ _ _ _ _ E Hi) as (m & Hm & Hw).
  exists m. split; [done|]. split; [by eapply worker_keeps_ticker|]. split.
  - intros msg Ht'. rewrite (worker_caught _ _ _ _ _ Ht') in Hw. by injection Hw as <-.
  - intros m' Ht'. rewrite (worker_passed _ _ _ _ _ Ht') in Hw. by injection Hw as <-.
Qed.

Lemma failing_ticker_keeps_its_place_witness :
  worker_try 1 Sample.msft_down "hour" "MSFT" = Some (Throw "fetch failed")
  /\ exists items,
       sp500 1 (Some "key") Sample.msft_down (Sample.reversed 10)
         (Sample.query (QStr "hour") QMissing)
       = Some (Json200 items)
       /\ length items = 3
       /\ forall i tk, Sample.tickers !! i = Some tk ->
            exists m, items !! i = Some m
              /\ Metric.ticker m = tk
              /\ (forall msg, worker_try 1 Sample.msft_down "hour" tk = Some (Throw msg) ->
                  m = {| Metric.ticker := tk; Metric.price := JNull;
                         Metric.changePercent := JNull |})
              /\ (forall m', worker_try 1 Sample.msft_down "hour" tk = Some (Ok m') -> m = m').
Proof.
  split; [reflexivity|].
  apply (failing_ticker_keeps_its_place 1 (Some "key") Sample.msft_down
           (Sample.reversed 10) (Sample.query (QStr "hour") QMissing)
           "hour" Sample.tickers eq_refl eq_refl eq_refl).
  - intros tk _. unfold worker_try. simpl. eauto.
  - intros i. apply reverse_Permutation.
Defined.

(** C9 as stated fails in the only-if direction: when the request for the
    listing page rejects, [getTopTickers] throws although no response was
    returned and no page was scanned. *)
Lemma getTopTickers_throws_without_response :
  ~ (forall up limit,
       (exists m, getTopTickers up limit = Throw m)
       <-> ((exists status body, listing up = Responded status body /\ ok status = false)
            \/ (exists status html,
                  listing up = Responded status (Ok html) /\ ok status = true
                  /\ scan (S (String.length html)) html limit [] ∅ = []))).
Proof.
  intros H.
  destruct (proj1 (H Sample.offline 10) (ex_intro _ "fetch failed" eq_refl))
    as [(status & body & E & _)|(status & html & E & _)]; discriminate E.
Qed.

(** C9, amended.  [getTopTickers] throws when the listing page answers
    non-2xx and when the scan extracts no symbol, and otherwise only when
    the request or the reading of the page itself rejects; what it returns
    is never an empty list; and when it throws, the request is answered
    500 with the failure's message as the error (the fixed text when the
    message is empty), which for the two failures it raises itself is
    their own message. *)
Theorem getTopTickers_failure (fuel : nat) (key : option string) (up : Upstream)
    (order : nat -> list nat) (q : Query.t) (range : string) (limit : nat)
    (m : string) (tickers : list string) :
  (getTopTickers up limit = Throw m <-> listing_failure up limit m)
  /\ (getTopTickers up limit = Ok tickers -> tickers <> [])
  /\ (key_missing key = false ->
      range_of (Query.range q) = Ok range ->
      getTopTickers up (Z.to_nat (LIMIT (Query.limit q))) = Throw m ->
      sp500 fuel key up order q = Some (Json500 (error_text m))
      /\ (m <> "" -> error_text m = m)
      /\ ((exists status body,
             listing up = Responded status body /\ ok status = false)
          \/ (exists status html,
                listing up = Responded status (Ok html) /\ ok status = true
                /\ scan (S (String.length html)) html
                     (Z.to_nat (LIMIT (Query.limit q))) [] ∅ = []) ->
          m <> "")).
Proof.
  split; [apply getTopTickers_throws|]. split.
  - intros H. by destruct (getTopTickers_returns _ _ _ H).
  - intros Hkey Hrange Hthrow. split; [|split].
    + unfold sp500. by rewrite Hkey, Hrange, Hthrow.
    + intros Hm. unfold error_text. by destruct (String.eqb_spec m "").
    + apply getTopTickers_throws in Hthrow.
      intros [(status & body & E & Hok)|(status & html & E & Hok & Hs)];
        destruct Hthrow as [H|[(s1 & b1 & H & Hok1 & ->)|[(s1 & H & Hok1)
                              |(s1 & h1 & H & Hok1 & Hs1 & ->)]]];
        try done; congruence.
Qed.

Lemma getTopTickers_failure_witness :
  sp500 1 (Some "key") Sample.listing_down (Sample.in_order 10)
    (Sample.query QMissing QMissing)
  = Some (Json500 "SlickCharts HTTP 503")
  /\ sp500 1 (Some "key") Sample.no_symbols (Sample.in_order 10)
       (Sample.query QMissing QMissing)
     = Some (Json500 "No S&P500 tickers scraped")
  /\ sp500 1 (Some "key") Sample.offline (Sample.in_order 10)
       (Sample.query QMissing QMissing)
     = Some (Json500 "fetch failed").
Proof.
  split; [|split].
  - apply (proj2 (proj2 (getTopTickers_failure 1 (Some "key") Sample.listing_down
             (Sample.in_order 10) (Sample.query QMissing QMissing) "day" 10
             "SlickCharts HTTP 503" []))); reflexivity.
  - apply (proj2 (proj2 (getTopTickers_failure 1 (Some "key") Sample.no_symbols
             (Sample.in_order 10) (Sample.query QMissing QMissing) "day" 10
             "No S&P500 tickers scraped" []))); reflexivity.
  - apply (proj2 (proj2 (getTopTickers_failure 1 (Some "key") Sample.offline
             (Sample.in_order 10) (Sample.query QMissing QMissing) "day" 10
             "fetch failed" []))); reflexivity.
Defined.

(** ** The shape of changePercent *)

Lemma changePercentSpec_shape now base :
  changePercentSpec now base = JNull
  \/ exists n b, is_zero b = false
       /\ changePercentSpec now base = JNum (((n - b) / b) * 100)%float.
Proof.
  destruct now as [| | |n| | |]; try (by left).
  destruct base as [| | |b| | |]; try (by left).
  simpl. destruct (is_zero b) eqn:E; [by left|]. right. by exists n, b.
Qed.

Lemma worker_changePercent_shape fuel up range t m :
  worker fuel up range t = Some m ->
  Metric.changePercent m = JNull
  \/ exists n b, is_zero b = false
       /\ Metric.changePercent m = JNum (((n - b) / b) * 100)%float.
Proof.
  unfold worker. destruct (worker_try fuel up range t) as [[m'|msg]|] eqn:E;
    cbn [mbind option_bind]; intros [= <-]; [|by left].
  revert E. unfold worker_try. destruct (String.eqb range "hour") eqn:Hr.
  - destruct (latest15mClose up t) as [latest|] eqn:Hl; [|done]. cbn [bind].
    destruct (le_lt_dec 6 (length (Latest.intervals latest))) as [H6|H6].
    + destruct (numeric_close_total (hourlyBaseBar (Latest.intervals latest))) as [b Hb].
      destruct (hourly_long _ _ _ H6 (latest_price_last _ _ _ Hl) Hb) as (h & -> & Hc).
      cbn [bind]. intros [= <-]. simpl. rewrite Hc. apply changePercentSpec_shape.
    + rewrite hourly_short by lia. cbn [bind]. intros [= <-]. by left.
  - unfold eodChangeVsLatest15m.
    destruct (fetchEodHistory _ _ _ _) as [[hist|]|]; [|done|done].
    cbn [mbind option_bind bind].
    destruct (latest15mClose up t) as [latest|] eqn:Hl; [|done]. cbn [bind].
    destruct (numeric_close_total
                (baseRow hist (default (Sessions 1) (sessionsMap_at range)))) as [b Hb].
    destruct (eodChange_spec hist (Latest.price latest) _ b
                (latest_price_cases _ _ _ Hl) Hb) as (e & -> & _ & Hc).
    cbn [bind]. intros [= <-]. simpl. rewrite Hc. apply changePercentSpec_shape.
Qed.

Lemma sp500_200_listed fuel key up order q items :
  sp500 fuel key up order q = Some (Json200 items) ->
  exists range tickers,
    key_missing key = false
    /\ range_of (Query.range q) = Ok range
    /\ getTopTickers up (Z.to_nat (LIMIT (Query.limit q))) = Ok tickers.
Proof.
  unfold sp500. destruct (key_missing key); [done|].
  destruct (range_of (Query.range q)) as [range|]; [|done].
  destruct (getTopTickers up _) as [tickers|]; [|done]. eauto.
Qed.



(** The quotient itself need not be finite.  Closes 2^-1000 and 2^1000,
    both finite, at the two ends of six bars give Infinity (the quotient
    overflows), and closes that are Infinity give NaN, on both paths: the
    guards of the code test the type and the zero divisor.  What the
    answer carries is null in each case. *)
Remark quotient_can_overflow :
  sp500 1 (Some "key") Sample.steep (Sample.in_order 10)
    (Sample.query (QStr "hour") (QStr "1"))
  = Some (Json200 [ {| Metric.ticker := "AAPL"; Metric.price := JNum 0x1p1000;
                       Metric.changePercent := JNum infinity |} ])
  /\ response_array [ {| Metric.ticker := "AAPL"; Metric.price := JNum 0x1p1000;
                         Metric.changePercent := JNum infinity |} ]
     = [ JObj [("ticker", JStr "AAPL"); ("price", JNum 0x1p1000);
               ("changePercent", JNull)] ]
  /\ Metric.changePercent <$> worker 1 Sample.unbounded "hour" "AAPL" = Some (JNum nan)
  /\ Metric.changePercent <$> worker 1 Sample.unbounded "day" "AAPL" = Some (JNum nan)
  /\ over_the_wire (JNum nan) = JNull.
Proof. repeat split; vm_compute; reflexivity. Qed.



(** ** The range *)

(** The session branch of the worker, for a range that the table holds
    as an own property. *)
Lemma worker_try_sessions fuel up r n t :
  sessionsMap !! r = Some n ->
  worker_try fuel up r t
  = (res ← eodChangeVsLatest15m fuel up t (Sessions n);
     Some (out <- res ;;
           Ok {| Metric.ticker := t; Metric.price := Eod.now out;
                 Metric.changePercent := Eod.changePct out |})).
Proof.
  intros H. unfold worker_try, sessionsMap_at. rewrite H.
  destruct (String.eqb_spec r "hour") as [->|]; [|reflexivity].
  vm_compute in H. discriminate H.
Qed.

(** X21.  The range is lowercased before any comparison.  Two spellings
    with the same lowercase form are served alike; what a 200 carries is
    the worker of the lowercased range mapped over the listed tickers;
    that worker is the hour computation for hour and the session
    computation with 1, 5, 21 and 252 sessions for day, week, month and
    year; and for a range that is none of the five and none of the names
    that the table inherits, it is the worker of day. *)
Theorem range_spellings_served_alike (fuel : nat) (key : option string) (up : Upstream)
    (order : nat -> list nat) (limit : QueryVal) (s s' t : string)
    (items : list Metric.t) :
  s <> "" ->
  range_of (QStr s) = Ok (toLowerCase s)
  /\ (s' <> "" -> toLowerCase s = toLowerCase s' ->
      sp500 fuel key up order {| Query.range := QStr s; Query.limit := limit |}
      = sp500 fuel key up order {| Query.range := QStr s'; Query.limit := limit |})
  /\ (sp500 fuel key up order {| Query.range := QStr s; Query.limit := limit |}
      = Some (Json200 items) ->
      exists tickers,
        getTopTickers up (Z.to_nat (LIMIT limit)) = Ok tickers
        /\ mapM (worker fuel up (toLowerCase s)) tickers = Some items)
  /\ worker_try fuel up "hour" t
     = Some (latest <- latest15mClose up t ;;
             hc <- hourlyChangeFromIntervals (JArr (Latest.intervals latest)) ;;
             Ok {| Metric.ticker := t; Metric.price := Latest.price latest;
                   Metric.changePercent := Hourly.changePct hc |})
  /\ (forall r n,
        (r, n) ∈ [("day", 1); ("week", 5); ("month", 21); ("year", 252)] ->
        worker_try fuel up r t
        = (res ← eodChangeVsLatest15m fuel up t (Sessions n);
           Some (out <- res ;;
                 Ok {| Metric.ticker := t; Metric.price := Eod.now out;
                       Metric.changePercent := Eod.changePct out |})))
  /\ (forall r,
        r ∉ ["hour"; "day"; "week"; "month"; "year"] ->
        r ∉ object_prototype_names ->
        worker fuel up r t = worker fuel up "day" t).
Proof.
  intros Hs. split; [by apply range_of_string|]. split; [|split; [|split; [|split]]].
  - intros Hs' E. apply sp500_reads_query; [|reflexivity].
    simpl Query.range. rewrite !range_of_string by assumption. by rewrite E.
  - intros H.
    destruct (sp500_200_listed _ _ _ _ _ _ H) as (r & tickers & Hk & Hr & Hl).
    exists tickers. split; [exact Hl|].
    simpl Query.range in Hr. rewrite range_of_string in Hr by assumption.
    injection Hr as <-.
    eapply sp500_sound; [exact Hk| |exact Hl|exact H].
    simpl Query.range. by apply range_of_string.
  - reflexivity.
  - intros r n Hin. apply worker_try_sessions.
    repeat (apply elem_of_cons in Hin as [[= -> ->]|Hin]); try (vm_compute; reflexivity).
    by apply elem_of_nil in Hin.
  - intros r Hr Hinh. unfold worker, worker_try.
    rewrite sessionsMap_at_none; [|intros Hin; apply Hr; right; exact Hin|done].
    destruct (String.eqb_spec r "hour") as [->|]; [|reflexivity].
    exfalso. apply Hr. set_solver.
Qed.

Lemma range_spellings_served_alike_witness :
  sp500 1 (Some "key") Sample.seven_rows (Sample.in_order 10)
    (Sample.query (QStr "WEEK") (QStr "1"))
  = sp500 1 (Some "key") Sample.seven_rows (Sample.in_order 10)
      (Sample.query (QStr "week") (QStr "1"))
  /\ exists tickers,
       getTopTickers Sample.seven_rows (Z.to_nat (LIMIT (QStr "1"))) = Ok tickers
       /\ mapM (worker 1 Sample.seven_rows "week") tickers
          = Some [ {| Metric.ticker := "AAPL"; Metric.price := JNum 110;
                      Metric.changePercent := JNum 37.5 |} ].
Proof.
  pose proof (range_spellings_served_alike 1 (Some "key") Sample.seven_rows
                (Sample.in_order 10) (QStr "1") "WEEK" "week" "AAPL"
                [ {| Metric.ticker := "AAPL"; Metric.price := JNum 110;
                     Metric.changePercent := JNum 37.5 |} ]
                ltac:(discriminate)) as (_ & Hcase & Hsound & _).
  split.
  - apply Hcase; [discriminate|reflexivity].
  - apply Hsound. vm_compute. reflexivity.
Defined.

(** C10.  The range is lowercased before it is compared: WEEK is served
    as week (five sessions back), Hour as hour, and foo, which the table
    does not hold, as day.  But the lookup in the table also answers the
    names that every object inherits.  For range=constructor, in any
    spelling, and for range=__proto__, the lookup gives a member that is
    not a number, the default of one session is not taken, and the
    request is served with the oldest row of the first page as base: 100
    per cent here, where day gives 10.  The earlier variant of the
    handler, with its chain of comparisons, serves constructor as day. *)
Theorem constructor_not_served_as_day :
  sp500 1 (Some "key") Sample.seven_rows (Sample.in_order 10)
    (Sample.query (QStr "day") (QStr "1"))
  = Some (Json200 [ {| Metric.ticker := "AAPL"; Metric.price := JNum 110;
                       Metric.changePercent := JNum 10 |} ])
  /\ sp500 1 (Some "key") Sample.seven_rows (Sample.in_order 10)
       (Sample.query (QStr "WEEK") (QStr "1"))
     = Some (Json200 [ {| Metric.ticker := "AAPL"; Metric.price := JNum 110;
                          Metric.changePercent := JNum 37.5 |} ])
  /\ sp500 1 (Some "key") Sample.seven_rows (Sample.in_order 10)
       (Sample.query (QStr "Hour") (QStr "1"))
     = Some (Json200 [ {| Metric.ticker := "AAPL"; Metric.price := JNum 110;
                          Metric.changePercent := JNum 25 |} ])
  /\ sp500 1 (Some "key") Sample.seven_rows (Sample.in_order 10)
       (Sample.query (QStr "foo") (QStr "1"))
     = Some (Json200 [ {| Metric.ticker := "AAPL"; Metric.price := JNum 110;
                          Metric.changePercent := JNum 10 |} ])
  /\ sp500 1 (Some "key") Sample.seven_rows (Sample.in_order 10)
       (Sample.query (QStr "constructor") (QStr "1"))
     = Some (Json200 [ {| Metric.ticker := "AAPL"; Metric.price := JNum 110;
                          Metric.changePercent := JNum 100 |} ])
  /\ sp500 1 (Some "key") Sample.seven_rows (Sample.in_order 10)
       (Sample.query (QStr "Constructor") (QStr "1"))
     = Some (Json200 [ {| Metric.ticker := "AAPL"; Metric.price := JNum 110;
                          Metric.changePercent := JNum 100 |} ])
  /\ sp500 1 (Some "key") Sample.seven_rows (Sample.in_order 10)
       (Sample.query (QStr "__proto__") (QStr "1"))
     = Some (Json200 [ {| Metric.ticker := "AAPL"; Metric.price := JNum 110;
                          Metric.changePercent := JNum 100 |} ])
  /\ sessionsMap_at "constructor" = Some Inherited
  /\ sessionsMap_at "foo" = None
  /\ Earlier.work 1 Sample.seven_rows "constructor" "AAPL"
     = Some {| Metric.ticker := "AAPL"; Metric.price := JNum 110;
               Metric.changePercent := JNum 10 |}.
Proof. repeat split; vm_compute; reflexivity. Qed.

(** * Further properties *)

(** ** The scraper as a list function *)

Lemma keep_first_all_extends l : forall acc,
  exists more, foldl keep_first acc l = acc ++ more.
Proof.
  induction l as [|tk l IH]; intros acc; simpl.
  - exists []. by rewrite app_nil_r.
  - unfold keep_first at 2. destruct (decide (tk ∈ acc)); [apply IH|].
    destruct (IH (acc ++ [tk])) as [more ->]. exists (tk :: more).
    by rewrite <- app_assoc.
Qed.

Lemma keep_first_all_full l acc k :
  k <= length acc -> take k (foldl keep_first acc l) = take k acc.
Proof.
  intros H. destruct (keep_first_all_extends l acc) as [more ->].
  by rewrite take_app_le.
Qed.

Lemma keep_first_all_NoDup l : forall acc,
  NoDup acc -> NoDup (foldl keep_first acc l).
Proof.
  induction l as [|tk l IH]; intros acc H; simpl; [done|].
  apply IH. unfold keep_first. destruct (decide (tk ∈ acc)); [done|].
  apply NoDup_app. split; [done|]. split; [|apply NoDup_singleton].
  intros x Hx Hx'. apply list_elem_of_singleton in Hx'. by subst.
Qed.

Lemma keep_first_all_elem l : forall acc x,
  x ∈ foldl keep_first acc l -> x ∈ acc \/ x ∈ l.
Proof.
  induction l as [|tk l IH]; intros acc x; simpl; [by left|].
  intros H. apply IH in H as [H|H]; [|right; by right].
  unfold keep_first in H. destruct (decide (tk ∈ acc)); [by left|].
  apply elem_of_app in H as [H|H]; [by left|].
  apply list_elem_of_singleton in H as ->. right. by left.
Qed.

(** The loop of [getTopTickers] keeps the first [limit] distinct captures. *)
Lemma scan_first_occurrences limit fuel : forall html out (seen : gset string),
  (forall x, x ∈ seen <-> x ∈ out) ->
  length out <= limit ->
  scan fuel html limit out seen
  = take limit (foldl keep_first out (captures fuel html)).
Proof.
  induction fuel as [|fuel IH]; intros html out seen Hseen Hlen.
  - simpl. by rewrite take_ge.
  - rewrite scan_unfold. simpl captures.
    destruct (exec html) as [[tk rest]|]; [|simpl; by rewrite take_ge].
    simpl foldl. destruct (Nat.ltb_spec (length out) limit) as [Hl|Hl].
    + unfold keep_first at 2.
      destruct (decide (tk ∈ seen)) as [Hin|Hin];
        destruct (decide (tk ∈ out)) as [Hin'|Hin'];
        try (exfalso; apply Hseen in Hin; done);
        try (exfalso; apply Hseen in Hin'; done).
      * by apply IH.
      * apply IH; [|rewrite length_app; simpl; lia].
        intros x. rewrite elem_of_union, elem_of_singleton, elem_of_app,
          list_elem_of_singleton, Hseen. tauto.
    + rewrite keep_first_all_full.
      * unfold keep_first. destruct (decide (tk ∈ out)).
        -- by rewrite take_ge.
        -- rewrite take_app_le by lia. by rewrite take_ge.
      * unfold keep_first. destruct (decide (tk ∈ out)); [lia|].
        rewrite length_app. lia.
Qed.

Lemma captures_enough_fuel fuel : forall fuel' html,
  String.length html < fuel -> String.length html < fuel' ->
  captures fuel html = captures fuel' html.
Proof.
  induction fuel as [|fuel IH]; intros fuel' html H H'; [lia|].
  destruct fuel' as [|fuel']; [lia|]. simpl.
  destruct (exec html) as [[tk rest]|] eqn:E; [|done].
  apply exec_capture in E as [_ E]. f_equal. apply IH; lia.
Qed.

Lemma take_symbol_chars s :
  all_chars symbol_char (fst (take_symbol s)) = true.
Proof.
  induction s as [|c s IH]; [done|]. simpl.
  destruct (symbol_char c) eqn:E; simpl; [by rewrite E|done].
Qed.

Lemma match_here_chars s tk rest :
  match_here s = Some (tk, rest) -> all_chars symbol_char tk = true.
Proof.
  unfold match_here. destruct (strip_prefix "/symbol/" s) as [r|]; [|done].
  pose proof (take_symbol_chars r) as H.
  destruct (take_symbol r) as [[|c tk'] [|q rest']]; try done.
  destruct (Ascii.eqb q dquote); [|done]. by intros [= <- <-].
Qed.

Lemma exec_chars s : forall tk rest,
  exec s = Some (tk, rest) -> all_chars symbol_char tk = true.
Proof.
  induction s as [|c s IH]; intros tk rest; [done|].
  change (exec (String c s))
    with (match match_here (String c s) with Some m => Some m | None => exec s end).
  destruct (match_here (String c s)) as [m|] eqn:E.
  - intros [= ->]. by apply match_here_chars in E.
  - apply IH.
Qed.

Lemma captures_chars fuel : forall html,
  Forall (fun tk => tk <> "" /\ all_chars symbol_char tk = true) (captures fuel html).
Proof.
  induction fuel as [|fuel IH]; intros html; [constructor|]. simpl.
  destruct (exec html) as [[tk rest]|] eqn:E; [|constructor].
  constructor; [|apply IH]. split; [by apply exec_capture in E as [? _]|].
  eapply exec_chars, E.
Qed.

(** The tickers that a page yields under [limit]. *)
Lemma getTopTickers_scraped up status html limit :
  listing up = Responded status (Ok html) ->
  ok status = true ->
  getTopTickers up limit
  = match take limit (first_occurrences (captures (S (String.length html)) html)) with
    | [] => Throw "No S&P500 tickers scraped"
    | tickers => Ok tickers
    end.
Proof.
  intros Hl Hok. unfold getTopTickers. rewrite Hl, Hok. cbn [negb bind].
  rewrite (scan_first_occurrences limit (S (String.length html)) html [] ∅)
    by (set_solver || (simpl; lia)).
  fold (first_occurrences (captures (S (String.length html)) html)).
  destruct (take limit (first_occurrences _)) as [|tk l] eqn:E; [done|].
  cbn [length Nat.eqb]. f_equal. rewrite <- E. by rewrite take_take, Nat.min_id.
Qed.

(** What [getTopTickers] returns is that list of captures. *)
Lemma getTopTickers_is_take up limit tickers :
  getTopTickers up limit = Ok tickers ->
  exists status html,
    listing up = Responded status (Ok html) /\ ok status = true
    /\ tickers = take limit (first_occurrences (captures (S (String.length html)) html)).
Proof.
  intros H.
  assert (exists status html, listing up = Responded status (Ok html) /\ ok status = true)
    as (status & html & Hl & Hok).
  { revert H. unfold getTopTickers. destruct (listing up) as [|status body]; [done|].
    destruct (ok status) eqn:Hok; [|done]. destruct body as [html|]; [|done]. eauto. }
  exists status, html. split; [done|]. split; [done|].
  rewrite (getTopTickers_scraped up status html limit Hl Hok) in H.
  destruct (take limit (first_occurrences _)); [done|]. by injection H.
Qed.

(** X1.  On a page that is served, [getTopTickers] returns the first
    [limit] distinct captures of the pattern, in page order, and throws
    when there is none; the fuel of the model covers the whole page. *)
Theorem getTopTickers_first_distinct_captures (up : Upstream) (status : nat)
    (html : string) (limit fuel : nat) :
  listing up = Responded status (Ok html) ->
  ok status = true ->
  getTopTickers up limit
  = match take limit (first_occurrences (captures (S (String.length html)) html)) with
    | [] => Throw "No S&P500 tickers scraped"
    | tickers => Ok tickers
    end
  /\ (String.length html < fuel ->
      captures fuel html = captures (S (String.length html)) html).
Proof.
  intros Hl Hok. split; [by eapply getTopTickers_scraped|].
  intros H. apply captures_enough_fuel; lia.
Qed.

Lemma getTopTickers_first_distinct_captures_witness :
  getTopTickers Sample.calm 2 = Ok ["AAPL"; "MSFT"]
  /\ getTopTickers Sample.calm 10 = Ok ["AAPL"; "MSFT"; "BRK.B"].
Proof.
  split.
  - exact (proj1 (getTopTickers_first_distinct_captures Sample.calm 200
                    Sample.html 2 0 eq_refl eq_refl)).
  - exact (proj1 (getTopTickers_first_distinct_captures Sample.calm 200
                    Sample.html 10 0 eq_refl eq_refl)).
Defined.

(** X2.  The tickers that [getTopTickers] returns are pairwise distinct,
    at least one and at most [limit], and each is a non-empty string of
    letters and dots. *)
Theorem getTopTickers_distinct_symbols (up : Upstream) (limit : nat)
    (tickers : list string) :
  getTopTickers up limit = Ok tickers ->
  NoDup tickers
  /\ 1 <= length tickers <= limit
  /\ Forall (fun tk => tk <> "" /\ all_chars symbol_char tk = true) tickers.
Proof.
  intros H. destruct (getTopTickers_returns _ _ _ H) as (Hne & Hlen & _).
  destruct (getTopTickers_is_take _ _ _ H) as (status & html & _ & _ & ->).
  split; [|split].
  - eapply sublist_NoDup; [|apply sublist_take].
    apply keep_first_all_NoDup, NoDup_nil_2.
  - destruct (take limit (first_occurrences _)); [done|]. simpl in *. lia.
  - apply Forall_take, Forall_forall. intros x Hx.
    apply keep_first_all_elem in Hx as [Hx|Hx]; [by apply elem_of_nil in Hx|].
    pose proof (captures_chars (S (String.length html)) html) as Hc.
    rewrite Forall_forall in Hc. by apply Hc.
Qed.

Lemma getTopTickers_distinct_symbols_witness :
  NoDup Sample.tickers
  /\ 1 <= length Sample.tickers <= 10
  /\ Forall (fun tk => tk <> "" /\ all_chars symbol_char tk = true) Sample.tickers.
Proof.
  exact (getTopTickers_distinct_symbols Sample.calm 10 Sample.tickers eq_refl).
Defined.

(** X3.  A smaller limit gives a prefix: when [getTopTickers] returns
    a list under a limit, it returns the first k of that list under any
    limit k between 1 and that limit. *)
Theorem getTopTickers_prefix (up : Upstream) (k limit : nat) (tickers : list string) :
  1 <= k <= limit ->
  getTopTickers up limit = Ok tickers ->
  getTopTickers up k = Ok (take k tickers).
Proof.
  intros Hk H.
  destruct (getTopTickers_is_take _ _ _ H) as (status & html & Hl & Hok & ->).
  rewrite (getTopTickers_scraped up status html limit Hl Hok) in H.
  rewrite (getTopTickers_scraped up status html k Hl Hok).
  set (all := first_occurrences (captures (S (String.length html)) html)) in *.
  rewrite take_take. replace (k `min` limit) with k by lia.
  destruct all as [|tk all']; [by rewrite take_nil in H|].
  destruct k as [|k]; [lia|]. done.
Qed.

Lemma getTopTickers_prefix_witness :
  getTopTickers Sample.calm 2 = Ok (take 2 Sample.tickers).
Proof.
  apply (getTopTickers_prefix Sample.calm 2 10 Sample.tickers); [lia|reflexivity].
Defined.

(** ** What a 200 response lists *)

(** X4.  A 200 response lists exactly the tickers that [getTopTickers]
    returned, one metric each and in the same order: they are pairwise
    distinct and the array is never empty. *)
Theorem response_lists_scraped_tickers (fuel : nat) (key : option string)
    (up : Upstream) (order : nat -> list nat) (q : Query.t) (items : list Metric.t) :
  sp500 fuel key up order q = Some (Json200 items) ->
  getTopTickers up (Z.to_nat (LIMIT (Query.limit q))) = Ok (Metric.ticker <$> items)
  /\ NoDup (Metric.ticker <$> items)
  /\ 1 <= length items.
Proof.
  intros H.
  destruct (sp500_200_listed _ _ _ _ _ _ H) as (range & tickers & Hk & Hr & Hl).
  pose proof (sp500_sound fuel key up order q range tickers Hk Hr Hl items H) as Hs.
  destruct (mapM_workers _ _ _ _ _ Hs) as [Hlen Ht]. rewrite Ht.
  split; [done|]. split.
  - destruct (getTopTickers_is_take _ _ _ Hl) as (status & html & _ & _ & ->).
    eapply sublist_NoDup; [|apply sublist_take].
    apply keep_first_all_NoDup, NoDup_nil_2.
  - destruct (getTopTickers_returns _ _ _ Hl) as (Hne & _ & _).
    rewrite Hlen. destruct tickers; [done|simpl; lia].
Qed.

Lemma response_lists_scraped_tickers_witness :
  NoDup ["AAPL"; "MSFT"] /\ 1 <= 2.
Proof.
  exact (proj2 (response_lists_scraped_tickers 1 (Some "key") Sample.msft_down
           (Sample.in_order 2) (Sample.query (QStr "hour") (QStr "2"))
           [ {| Metric.ticker := "AAPL"; Metric.price := JNum 110;
                Metric.changePercent := JNum 10 |};
             Metric.unavailable "MSFT" ]
           ltac:(vm_compute; reflexivity))).
Defined.

(** ** The price of a metric *)

Lemma or_null_price up t latest :
  latest15mClose up t = Ok latest -> or_null (Latest.price latest) = Latest.price latest.
Proof. intros H. by destruct (latest_price_cases _ _ _ H) as [->|[x ->]]. Qed.

Lemma eodChange_now hist now sb :
  now = JNull \/ (exists x, now = JNum x) ->
  exists e, eodChange hist now sb = Ok e /\ Eod.now e = now.
Proof.
  intros Hn. destruct (numeric_close_total (baseRow hist sb)) as [b Hb].
  destruct (eodChange_spec hist now sb b Hn Hb) as (e & He & Hnow & _). eauto.
Qed.

Lemma worker_price_cases fuel up range t m :
  worker fuel up range t = Some m ->
  (exists msg, latest15mClose up t = Throw msg /\ m = Metric.unavailable t)
  \/ (exists latest, latest15mClose up t = Ok latest
        /\ (Metric.price m = Latest.price latest \/ Metric.price m = JNull)).
Proof.
  unfold worker, worker_try. destruct (String.eqb range "hour").
  - destruct (latest15mClose up t) as [latest|msg] eqn:Hl; cbn [bind mbind option_bind].
    + destruct (hourly_total (JArr (Latest.intervals latest))) as [h ->].
      cbn [bind]. intros [= <-]. right. eauto.
    + intros [= <-]. left. eauto.
  - unfold eodChangeVsLatest15m.
    destruct (fetchEodHistory _ _ _ _) as [[hist|msg']|]; [| |done];
      cbn [mbind option_bind bind].
    + destruct (latest15mClose up t) as [latest|msg] eqn:Hl; cbn [bind].
      * destruct (eodChange_now hist (Latest.price latest)
                    (default (Sessions 1) (sessionsMap_at range))
                    (latest_price_cases _ _ _ Hl)) as (e & -> & Hn).
        cbn [bind]. intros [= <-]. right. exists latest. simpl. rewrite Hn. auto.
      * intros [= <-]. left. eauto.
    + intros [= <-]. destruct (latest15mClose up t) as [latest|msg] eqn:Hl.
      * right. exists latest. auto.
      * left. eauto.
Qed.

Lemma worker_price_shape fuel up range t m :
  worker fuel up range t = Some m ->
  Metric.price m = JNull \/ exists x, Metric.price m = JNum x.
Proof.
  intros H.
  destruct (worker_price_cases _ _ _ _ _ H) as [(msg & _ & ->)|(latest & Hl & [->| ->])];
    try by left.
  destruct (latest_price_cases _ _ _ Hl) as [->|[x ->]]; eauto.
Qed.

(** X5.  Whatever the range, the price of a metric is the close that
    [latest15mClose] found or null, so it is null or a number; and when
    the interval request fails by a throw, both fields are null. *)
Theorem price_is_latest_close_or_null (fuel : nat) (up : Upstream) (range t : string)
    (m : Metric.t) :
  worker fuel up range t = Some m ->
  (forall latest, latest15mClose up t = Ok latest ->
     Metric.price m = Latest.price latest \/ Metric.price m = JNull)
  /\ (forall msg, latest15mClose up t = Throw msg ->
        Metric.price m = JNull /\ Metric.changePercent m = JNull)
  /\ (Metric.price m = JNull \/ exists x, Metric.price m = JNum x).
Proof.
  intros H. pose proof (worker_price_cases _ _ _ _ _ H) as Hcases.
  split; [|split].
  - intros latest Hl. destruct Hcases as [(msg & E & _)|(l' & E & Hp)]; congruence.
  - intros msg Hl. destruct Hcases as [(msg' & _ & ->)|(l' & E & _)]; [done|congruence].
  - eapply worker_price_shape, H.
Qed.

Lemma price_is_latest_close_or_null_witness :
  JNum 110 = JNull \/ exists x, JNum 110 = JNum x.
Proof.
  exact (proj2 (proj2 (price_is_latest_close_or_null 1 Sample.calm "week" "AAPL"
           {| Metric.ticker := "AAPL"; Metric.price := JNum 110;
              Metric.changePercent := JNum (percent 110 90) |}
           ltac:(vm_compute; reflexivity)))).
Defined.

(** ** Requests that need no pagination *)

Lemma worker_hour_returns fuel up t : is_Some (worker fuel up "hour" t).
Proof. apply worker_returns. unfold worker_try. simpl. eauto. Qed.

(** X6.  An hour request with the credential in place is always
    answered: the hour branch has no loop that could fail to end.  When
    the tickers are listed the answer is a 200 with one metric per
    listed ticker, in order, each the metric of the hour worker (the null
    metric when the interval request of the ticker throws, the latest
    15-minute close as price otherwise); when the listing fails with a
    message the answer is a 500 with that message. *)
Theorem hour_request_is_answered (fuel : nat) (key : option string) (up : Upstream)
    (order : nat -> list nat) (q : Query.t) (s : string) :
  key_missing key = false ->
  Query.range q = QStr s ->
  toLowerCase s = "hour" ->
  (forall tickers i,
     getTopTickers up (Z.to_nat (LIMIT (Query.limit q))) = Ok tickers ->
     order i ≡ₚ seq 0 (length (slice i
       (i + Z.to_nat (CONCURRENCY (LIMIT (Query.limit q)))) tickers))) ->
  (forall tickers,
     getTopTickers up (Z.to_nat (LIMIT (Query.limit q))) = Ok tickers ->
     exists items,
       sp500 fuel key up order q = Some (Json200 items)
       /\ Metric.ticker <$> items = tickers
       /\ forall i tk, tickers !! i = Some tk ->
            exists m, items !! i = Some m
              /\ worker fuel up "hour" tk = Some m
              /\ (forall msg, latest15mClose up tk = Throw msg ->
                  m = Metric.unavailable tk)
              /\ (forall latest, latest15mClose up tk = Ok latest ->
                  Metric.price m = Latest.price latest))
  /\ (forall msg,
        getTopTickers up (Z.to_nat (LIMIT (Query.limit q))) = Throw msg ->
        sp500 fuel key up order q = Some (Json500 (error_text msg))).
Proof.
  intros Hk Hq Hs Hord.
  assert (range_of (Query.range q) = Ok "hour") as Hr.
  { rewrite Hq, range_of_string, Hs; [done|]. intros ->. discriminate Hs. }
  split.
  - intros tickers Hl.
    destruct (mapM (worker fuel up "hour") tickers) as [items|] eqn:E.
    2:{ apply mapM_None_1, Exists_exists in E as (tk & _ & Hnone).
        destruct (worker_hour_returns fuel up tk) as [m Hm]. congruence. }
    exists items. split; [eapply sp500_success; eauto|].
    split; [by destruct (mapM_workers _ _ _ _ _ E)|].
    intros i tk Hi. apply mapM_Some_1 in E.
    destruct (Forall2_lookup_l _ _ _ _ _ E Hi) as (m & Hm & Hw).
    exists m. split; [done|]. split; [done|]. split.
    + intros msg Ht. revert Hw. unfold worker, worker_try. simpl String.eqb. cbv iota.
      rewrite Ht. cbn. by intros [= <-].
    + intros latest Ht. destruct (hourly_total (JArr (Latest.intervals latest))) as [h Hh].
      rewrite (worker_hour fuel up tk latest h Ht Hh) in Hw. by injection Hw as <-.
  - intros msg Hl. unfold sp500. by rewrite Hk, Hr, Hl.
Qed.

Lemma hour_request_is_answered_witness :
  exists items,
    sp500 0 (Some "key") Sample.msft_down (Sample.reversed 10)
      (Sample.query (QStr "HOUR") QMissing) = Some (Json200 items)
    /\ Metric.ticker <$> items = Sample.tickers
    /\ forall i tk, Sample.tickers !! i = Some tk ->
         exists m, items !! i = Some m
           /\ worker 0 Sample.msft_down "hour" tk = Some m
           /\ (forall msg, latest15mClose Sample.msft_down tk = Throw msg ->
               m = Metric.unavailable tk)
           /\ (forall latest, latest15mClose Sample.msft_down tk = Ok latest ->
               Metric.price m = Latest.price latest).
Proof.
  refine (proj1 (hour_request_is_answered 0 (Some "key") Sample.msft_down
                   (Sample.reversed 10) (Sample.query (QStr "HOUR") QMissing) "HOUR"
                   eq_refl eq_refl eq_refl _) Sample.tickers eq_refl).
  intros tickers i H. injection H as <-. apply reverse_Permutation.
Defined.

(** ** Upstream answers other than 2xx *)

Lemma latest_not_ok up t status body :
  intervals up t = Responded status body -> ok status = false ->
  latest15mClose up t = Ok {| Latest.price := JNull; Latest.intervals := [] |}.
Proof. intros H Hok. unfold latest15mClose. by rewrite H, Hok. Qed.

Lemma first_page_not_ok fuel up t need status body :
  prices up t JNull = Responded status body -> ok status = false ->
  fetchEodHistory (S fuel) up t need = Some (Ok []).
Proof.
  intros H Hok. unfold fetchEodHistory. rewrite loop_unfold, H, Hok. done.
Qed.

(** X7.  A non-2xx answer is not a failure of the computation.  When the
    interval endpoint answers non-2xx, the hour metric is
    [{ticker, null, null}] without any throw, and every other range has a
    null price and a null changePercent; when the first end-of-day page
    answers non-2xx, the metric keeps the latest 15-minute close as its
    price and has a null changePercent. *)
Theorem non_2xx_gives_nulls (fuel : nat) (up : Upstream) (range t : string)
    (status : nat) (body : Result JsVal) (m : Metric.t) (latest : Latest.t) :
  (intervals up t = Responded status body -> ok status = false ->
     worker_try fuel up "hour" t
     = Some (Ok {| Metric.ticker := t; Metric.price := JNull;
                   Metric.changePercent := JNull |})
     /\ (worker fuel up range t = Some m ->
         Metric.price m = JNull /\ Metric.changePercent m = JNull))
  /\ (prices up t JNull = Responded status body -> ok status = false ->
      String.eqb range "hour" = false ->
      latest15mClose up t = Ok latest ->
      worker (S fuel) up range t
      = Some {| Metric.ticker := t; Metric.price := Latest.price latest;
                Metric.changePercent := JNull |}).
Proof.
  split.
  - intros Hi Hok. pose proof (latest_not_ok _ _ _ _ Hi Hok) as Hl. split.
    + unfold worker_try. simpl String.eqb. cbv iota. rewrite Hl. done.
    + unfold worker, worker_try. destruct (String.eqb range "hour").
      * rewrite Hl. cbn. by intros [= <-].
      * unfold eodChangeVsLatest15m.
        destruct (fetchEodHistory _ _ _ _) as [[hist|msg]|]; [| |done];
          cbn [mbind option_bind bind]; [|by intros [= <-]].
        rewrite Hl. cbn [bind Latest.price eodChange or_null]. by intros [= <-].
  - intros Hp Hok Hr Hl. unfold worker, worker_try, eodChangeVsLatest15m.
    rewrite Hr, (first_page_not_ok fuel up t _ status body Hp Hok).
    cbn [mbind option_bind bind]. rewrite Hl. cbn [bind].
    destruct (latest_price_cases _ _ _ Hl) as [->|[x ->]]; done.
Qed.

Lemma non_2xx_gives_nulls_witness :
  worker_try 0 Sample2.intervals_down "hour" "AAPL"
  = Some (Ok {| Metric.ticker := "AAPL"; Metric.price := JNull;
                Metric.changePercent := JNull |})
  /\ worker 1 Sample2.prices_down "month" "AAPL"
     = Some {| Metric.ticker := "AAPL"; Metric.price := JNum 110;
               Metric.changePercent := JNull |}.
Proof.
  split.
  - exact (proj1 (proj1 (non_2xx_gives_nulls 0 Sample2.intervals_down "day" "AAPL"
             503 (Throw "no body") (Metric.unavailable "AAPL")
             {| Latest.price := JNull; Latest.intervals := [] |}) eq_refl eq_refl)).
  - exact (proj2 (non_2xx_gives_nulls 0 Sample2.prices_down "month" "AAPL"
             503 (Throw "no body") (Metric.unavailable "AAPL")
             {| Latest.price := JNum 110;
                Latest.intervals := Sample.bar <$> [100; 101; 102; 103; 104; 110]%float |})
             eq_refl eq_refl eq_refl eq_refl).
Defined.

(** ** Pagination without end *)

Lemma empty_pages_loop up t n fuel :
  (forall next, exists status j sp np,
     prices up t next = Responded status (Ok j) /\ ok status = true
     /\ get j "stock_prices" = Ok sp /\ array_or_empty sp = []
     /\ get j "next_page" = Ok np /\ truthy np = true /\ cursor_error np = None) ->
  forall next, cursor_error next = None ->
    fetchEodHistory_loop fuel up t (Sessions n) [] next = None.
Proof.
  intros Hpages. induction fuel as [|fuel IH]; intros next Hc; [done|].
  destruct (Hpages next) as (status & j & sp & np & Hp & Hok & Hsp & He & Hnp & Ht & Hc').
  rewrite loop_unfold, Hc, Hp, Hok. unfold read_page. cbn [negb bind].
  rewrite Hsp. cbn [bind]. rewrite He. cbn [length Nat.ltb Nat.leb].
  rewrite Hnp. cbn [bind app length below_need_plus_1]. unfold or_else. rewrite Ht.
  replace (Nat.ltb 0 (n + 1)) with true by (symmetry; apply Nat.ltb_lt; lia).
  cbn [andb]. rewrite Ht. by apply IH.
Qed.

(** X8.  The walk over the end-of-day pages has no bound of its own:
    against an upstream whose pages are all readable 2xx answers with no
    row and a next page that can be written into the URL of the next
    request, [fetchEodHistory] returns for no number of pages, and
    neither does the worker of any range served by a number of
    sessions. *)
Theorem empty_pages_never_end (fuel : nat) (up : Upstream) (range t : string) (n : nat) :
  (forall next, exists status j sp np,
     prices up t next = Responded status (Ok j) /\ ok status = true
     /\ get j "stock_prices" = Ok sp /\ array_or_empty sp = []
     /\ get j "next_page" = Ok np /\ truthy np = true /\ cursor_error np = None) ->
  fetchEodHistory fuel up t (Sessions n) = None
  /\ (String.eqb range "hour" = false ->
      sessionsMap_at range <> Some Inherited ->
      worker fuel up range t = None).
Proof.
  intros Hpages. split; [by apply empty_pages_loop|].
  intros Hr Hi. unfold worker, worker_try, eodChangeVsLatest15m, fetchEodHistory.
  rewrite Hr. destruct (sessionsMap_at range) as [[k|]|]; [|done|];
    simpl (default _ _); by rewrite (empty_pages_loop up t _ fuel Hpages).
Qed.

Lemma empty_pages_never_end_witness :
  fetchEodHistory 1000 Sample2.endless "AAPL" (Sessions 1) = None
  /\ worker 1000 Sample2.endless "day" "AAPL" = None.
Proof.
  assert (forall next, exists status j sp np,
     prices Sample2.endless "AAPL" next = Responded status (Ok j) /\ ok status = true
     /\ get j "stock_prices" = Ok sp /\ array_or_empty sp = []
     /\ get j "next_page" = Ok np /\ truthy np = true /\ cursor_error np = None) as Hpages.
  { intros next. exists 200, (Sample.page [] (JStr "again")), (JArr []), (JStr "again").
    repeat split; reflexivity. }
  split.
  - exact (proj1 (empty_pages_never_end 1000 Sample2.endless "day" "AAPL" 1 Hpages)).
  - apply (proj2 (empty_pages_never_end 1000 Sample2.endless "day" "AAPL" 1 Hpages));
      [reflexivity|vm_compute; discriminate].
Defined.

(** ** A member inherited by the table *)

Lemma inherited_one_page fuel up t :
  fetchEodHistory (S fuel) up t Inherited = fetchEodHistory 1 up t Inherited.
Proof.
  unfold fetchEodHistory. rewrite !loop_unfold. cbn [cursor_error truthy andb].
  destruct (prices up t JNull) as [|status body]; [done|].
  destruct (negb (ok status)); [done|].
  destruct (read_page (spread_limit up) [] body) as [[all' next']|]; done.
Qed.

(** X9.  For a range that the table answers with an inherited member
    (constructor, __proto__), the walk reads the first page only, so the
    worker always returns, and the base is the oldest row of that page:
    such a range is not served as day. *)
Theorem inherited_range_reads_one_page (fuel : nat) (up : Upstream) (range t : string)
    (hist : list JsVal) (latest : Latest.t) (base : JsVal) :
  sessionsMap_at range = Some Inherited ->
  fetchEodHistory (S fuel) up t Inherited = fetchEodHistory 1 up t Inherited
  /\ is_Some (worker (S fuel) up range t)
  /\ (fetchEodHistory 1 up t Inherited = Some (Ok hist) ->
      latest15mClose up t = Ok latest ->
      numeric_close (last_elem hist) = Ok base ->
      worker (S fuel) up range t
      = Some {| Metric.ticker := t; Metric.price := Latest.price latest;
                Metric.changePercent := changePercentSpec (Latest.price latest) base |}).
Proof.
  intros Hi.
  assert (String.eqb range "hour" = false) as Hr.
  { destruct (String.eqb_spec range "hour") as [->|]; [|done].
    vm_compute in Hi. discriminate Hi. }
  split; [apply inherited_one_page|]. split.
  - apply worker_returns. unfold worker_try, eodChangeVsLatest15m, fetchEodHistory.
    rewrite Hr, Hi. simpl (default _ _). rewrite loop_unfold.
    cbn [cursor_error truthy andb].
    destruct (prices up t JNull) as [|status body]; [by eexists|].
    destruct (negb (ok status)); [by eexists|].
    destruct (read_page (spread_limit up) [] body) as [[all' next']|]; by eexists.
  - intros Hf Hl Hb. apply (worker_session (S fuel) up range t hist latest base Hr).
    + rewrite Hi. simpl (default _ _). by rewrite inherited_one_page.
    + done.
    + rewrite Hi. exact Hb.
Qed.

Lemma inherited_range_reads_one_page_witness :
  worker 7 Sample.two_pages "constructor" "AAPL"
  = Some {| Metric.ticker := "AAPL"; Metric.price := JNum 110;
            Metric.changePercent := JNum (percent 110 105) |}.
Proof.
  apply (proj2 (proj2 (inherited_range_reads_one_page 6 Sample.two_pages "constructor"
           "AAPL" [Sample.bar 105]
           {| Latest.price := JNum 110;
              Latest.intervals := Sample.bar <$> [100; 101; 102; 103; 104; 110]%float |}
           (JNum 105) ltac:(vm_compute; reflexivity)))); reflexivity.
Defined.

(** ** Lowercasing *)

Lemma lower_unit_twice c : lower_unit (lower_unit c) = lower_unit c.
Proof. destruct c as [[] [] [] [] [] [] [] []]; vm_compute; reflexivity. Qed.

Lemma toLowerCase_twice s : toLowerCase (toLowerCase s) = toLowerCase s.
Proof. induction s as [|c s IH]; [done|]. simpl. by rewrite lower_unit_twice, IH. Qed.

(** X10.  The range that the handler works with is a fixed point of
    [toLowerCase]; of the names that the table inherits, only constructor
    and __proto__ can therefore reach the lookup, and both do. *)
Theorem range_reaches_lookup_lowercased (v : QueryVal) (r : string) :
  range_of v = Ok r ->
  toLowerCase r = r
  /\ (sessionsMap_at r = Some Inherited -> r = "constructor" \/ r = "__proto__")
  /\ range_of (QStr "Constructor") = Ok "constructor"
  /\ sessionsMap_at "constructor" = Some Inherited
  /\ range_of (QStr "__PROTO__") = Ok "__proto__"
  /\ sessionsMap_at "__proto__" = Some Inherited.
Proof.
  intros H.
  assert (toLowerCase r = r) as Hlow.
  { destruct v as [|s'|]; simpl in H; [by injection H as <-| |done].
    injection H as <-. apply toLowerCase_twice. }
  split; [done|]. split; [|repeat split; vm_compute; reflexivity].
  unfold sessionsMap_at. destruct (sessionsMap !! r); [done|].
  destruct (bool_decide (r ∈ object_prototype_names)) eqn:E; [|done].
  intros _. apply bool_decide_eq_true in E. unfold object_prototype_names in E.
  repeat (apply elem_of_cons in E as [->|E]); auto;
    try (vm_compute in Hlow; discriminate Hlow).
  by apply elem_of_nil in E.
Qed.

Lemma range_reaches_lookup_lowercased_witness :
  toLowerCase "tostring" = "tostring"
  /\ range_of (QStr "toString") = Ok "tostring"
  /\ sessionsMap_at "tostring" = None.
Proof.
  split; [|split; reflexivity].
  exact (proj1 (range_reaches_lookup_lowercased (QStr "toString") "tostring" eq_refl)).
Defined.

(** ** A first page that is enough *)

Lemma get_any j a b x : get j a = Ok x -> exists y, get j b = Ok y.
Proof. destruct j; simpl; try discriminate; eauto. Qed.

(** X11.  When the first end-of-day page is a readable 2xx answer with
    at least sessionsBack + 1 rows, and no more rows than one push
    accepts, it is the only page requested: the history is its rows,
    whatever it says about a next page, and the metric compares the
    latest 15-minute close with the row at index sessionsBack.  With
    more rows than one push accepts, the computation throws and the
    metric is the null metric. *)
Theorem full_first_page_is_enough (fuel : nat) (up : Upstream) (range t : string)
    (status : nat) (j sp : JsVal) (n : nat) (latest : Latest.t) (base : JsVal) :
  prices up t JNull = Responded status (Ok j) ->
  ok status = true ->
  get j "stock_prices" = Ok sp ->
  (n + 1 <= length (array_or_empty sp) <= spread_limit up ->
   fetchEodHistory (S fuel) up t (Sessions n) = Some (Ok (array_or_empty sp))
   /\ (String.eqb range "hour" = false ->
       default (Sessions 1) (sessionsMap_at range) = Sessions n ->
       latest15mClose up t = Ok latest ->
       numeric_close (index (array_or_empty sp) n) = Ok base ->
       worker (S fuel) up range t
       = Some {| Metric.ticker := t; Metric.price := Latest.price latest;
                 Metric.changePercent := changePercentSpec (Latest.price latest) base |}))
  /\ (spread_limit up < length (array_or_empty sp) ->
      (exists msg, fetchEodHistory (S fuel) up t (Sessions n) = Some (Throw msg))
      /\ (String.eqb range "hour" = false ->
          worker (S fuel) up range t = Some (Metric.unavailable t))).
Proof.
  intros Hp Hok Hsp. split.
  - intros [Hlen Hmax].
    assert (fetchEodHistory (S fuel) up t (Sessions n) = Some (Ok (array_or_empty sp))) as Hf.
    { unfold fetchEodHistory. rewrite loop_unfold. cbn [cursor_error truthy andb].
      rewrite Hp, Hok. unfold read_page. cbn [negb bind]. rewrite Hsp. cbn [bind].
      destruct (Nat.ltb_spec (spread_limit up) (length (array_or_empty sp))); [lia|].
      destruct (get_any j "stock_prices" "next_page" sp Hsp) as [np ->]. cbn [bind app].
      cbn [below_need_plus_1].
      destruct (Nat.ltb_spec (length (array_or_empty sp)) (n + 1)); [lia|done]. }
    split; [done|]. intros Hr Hsb Hl Hb.
    apply (worker_session (S fuel) up range t (array_or_empty sp) latest base Hr).
    + by rewrite Hsb.
    + done.
    + rewrite Hsb, baseRow_at by lia. done.
  - intros Hmax.
    assert (forall need, fetchEodHistory (S fuel) up t need
                         = Some (Throw "Maximum call stack size exceeded")) as Hf.
    { intros need. unfold fetchEodHistory. rewrite loop_unfold.
      cbn [cursor_error truthy andb].
      rewrite Hp, Hok. unfold read_page. cbn [negb bind]. rewrite Hsp. cbn [bind].
      destruct (Nat.ltb_spec (spread_limit up) (length (array_or_empty sp))); [done|lia]. }
    split; [eauto|]. intros Hr.
    unfold worker, worker_try, eodChangeVsLatest15m. rewrite Hr, Hf. done.
Qed.

Lemma full_first_page_is_enough_witness :
  fetchEodHistory 1 Sample.calm "AAPL" (Sessions 1)
  = Some (Ok (Sample.bar <$> [108; 100; 90]%float))
  /\ worker 1 Sample.calm "day" "AAPL"
     = Some {| Metric.ticker := "AAPL"; Metric.price := JNum 110;
               Metric.changePercent := JNum 10 |}
  /\ worker 1 Sample2.long_page "day" "AAPL" = Some (Metric.unavailable "AAPL").
Proof.
  pose proof (full_first_page_is_enough 0 Sample.calm "day" "AAPL" 200
                (Sample.page [108; 100; 90]%float JNull)
                (JArr (Sample.bar <$> [108; 100; 90]%float)) 1
                {| Latest.price := JNum 110;
                   Latest.intervals := Sample.bar <$> [100; 101; 102; 103; 104; 110]%float |}
                (JNum 100) eq_refl eq_refl eq_refl) as [H _].
  destruct H as [H1 H2].
  { split; [simpl; lia|]. apply Nat.leb_le. vm_compute. reflexivity. }
  split; [exact H1|]. split; [apply H2; reflexivity|].
  apply (proj2 (full_first_page_is_enough 0 Sample2.long_page "day" "AAPL" 200
                (Sample.page (replicate 11 100%float) JNull)
                (JArr (Sample.bar <$> replicate 11 100%float)) 1
                {| Latest.price := JNull; Latest.intervals := [] |}
                JNull eq_refl eq_refl eq_refl)); [|reflexivity].
  vm_compute. lia.
Defined.

(** ** Reading a decimal limit *)

Lemma digit_pretty_char y :
  (y < 10)%N -> digit (pretty_N_char y) = Some (Z.of_N y).
Proof.
  intros H.
  assert (y = 0 \/ y = 1 \/ y = 2 \/ y = 3 \/ y = 4 \/ y = 5 \/ y = 6 \/ y = 7
          \/ y = 8 \/ y = 9)%N as Hy by lia.
  repeat (destruct Hy as [->|Hy]; [reflexivity|]). by subst.
Qed.

Lemma digits_pretty_go x : forall s,
  digits (pretty_N_go x s) None
  = if decide (x = 0)%N then digits s None else digits s (Some (Z.of_N x)).
Proof.
  induction (N.lt_wf_0 x) as [x _ IH]. intros s.
  destruct (decide (x = 0)%N) as [->|Hx]; [done|].
  rewrite pretty_N_go_step by lia.
  rewrite IH by (apply N.div_lt; lia).
  assert (digit (pretty_N_char (x `mod` 10)) = Some (Z.of_N (x `mod` 10))) as Hd.
  { apply digit_pretty_char. apply N.mod_lt. lia. }
  pose proof (N.div_mod x 10 ltac:(lia)) as Hdm.
  destruct (decide (x `div` 10 = 0)%N) as [E|E].
  - simpl. rewrite Hd. simpl default.
    by replace (10 * 0 + Z.of_N (x `mod` 10))%Z with (Z.of_N x) by lia.
  - simpl. rewrite Hd. simpl default.
    by replace (10 * Z.of_N (x `div` 10) + Z.of_N (x `mod` 10))%Z with (Z.of_N x) by lia.
Qed.

Lemma pretty_go_head x : forall s,
  (0 < x)%N ->
  exists y r, (y < 10)%N /\ pretty_N_go x s = String (pretty_N_char y) r.
Proof.
  induction (N.lt_wf_0 x) as [x _ IH]. intros s Hx.
  rewrite pretty_N_go_step by done.
  destruct (decide (x `div` 10 = 0)%N) as [E|E].
  - rewrite E, pretty_N_go_0. exists (x `mod` 10)%N, s. split; [|done].
    apply N.mod_lt. lia.
  - apply IH; [apply N.div_lt; lia|by apply N.neq_0_lt_0].
Qed.

Lemma parseInt_digit_head y r :
  (y < 10)%N ->
  parseInt (String (pretty_N_char y) r) = digits (String (pretty_N_char y) r) None.
Proof.
  intros H.
  assert (y = 0 \/ y = 1 \/ y = 2 \/ y = 3 \/ y = 4 \/ y = 5 \/ y = 6 \/ y = 7
          \/ y = 8 \/ y = 9)%N as Hy by lia.
  repeat (destruct Hy as [->|Hy]; [reflexivity|]). by subst.
Qed.

Lemma parseInt_pretty (n : nat) : parseInt (pretty n) = Some (Z.of_nat n).
Proof.
  unfold pretty, pretty_nat, pretty, pretty_N.
  destruct (decide (N.of_nat n = 0)%N) as [E|E].
  - replace n with 0 by lia. reflexivity.
  - destruct (pretty_go_head (N.of_nat n) "" ltac:(lia)) as (y & r & Hy & Hs).
    rewrite Hs, parseInt_digit_head, <- Hs, digits_pretty_go by done.
    rewrite decide_False by done. simpl. f_equal. lia.
Qed.

(** X12.  A limit written in decimal is read back as the number it
    denotes: from 1 to 100 it is the effective limit itself, above 100 it
    gives 100 and 0 gives 1, as long as the number is finite as a
    binary64 value; a number too large for that gives 10, not 100. *)
Theorem decimal_limit_round_trip (n : nat) :
  parseInt (pretty n) = Some (Z.of_nat n)
  /\ (1 <= n <= 100 -> LIMIT (QStr (pretty n)) = Z.of_nat n)
  /\ (Number_isFinite (Some (Z.of_nat n)) = true ->
      LIMIT (QStr (pretty n)) = Z.max 1 (Z.min 100 (Z.of_nat n)))
  /\ (Number_isFinite (Some (Z.of_nat n)) = false -> LIMIT (QStr (pretty n)) = 10%Z).
Proof.
  pose proof (parseInt_pretty n) as Hp. split; [done|].
  assert (forall b, Number_isFinite (Some (Z.of_nat n)) = b ->
            LIMIT (QStr (pretty n))
            = Z.max 1 (Z.min 100 (if b then Z.of_nat n else 10%Z))) as HL.
  { intros b Hb. unfold LIMIT. simpl to_string. rewrite Hp, Hb. by destruct b. }
  split; [|split].
  - intros Hn. rewrite (HL true); [lia|].
    unfold Number_isFinite. apply Z.ltb_lt.
    assert (100 < 2 ^ 1024 - 2 ^ 970)%Z by (by apply Z.ltb_lt; vm_compute).
    lia.
  - intros Hf. by rewrite (HL true).
  - intros Hf. by rewrite (HL false).
Qed.

Lemma decimal_limit_round_trip_witness :
  LIMIT (QStr (pretty 10)) = 10%Z /\ LIMIT (QStr (pretty 250)) = 100%Z.
Proof.
  split.
  - apply (proj1 (proj2 (decimal_limit_round_trip 10))). lia.
  - apply (proj1 (proj2 (proj2 (decimal_limit_round_trip 250)))). vm_compute. reflexivity.
Defined.

(** ** The size of a chunk *)

Lemma zero_chunk_loops work order tickers fuel : forall out,
  tickers <> [] -> batches fuel work order tickers 0 0 out = None.
Proof.
  induction fuel as [|fuel IH]; intros out Hne; [done|]. simpl.
  destruct tickers as [|tk tickers]; [done|]. cbn [length Nat.ltb Nat.leb].
  unfold slice. cbn [Nat.sub take fmap list_fmap]. unfold promiseAll.
  cbn [mapM mbind option_bind mret option_ret length replicate].
  assert (forall l (slots : list (option Metric.t)),
            foldl (settle []) slots l = slots) as Hfold.
  { induction l as [|i l IHl]; intros slots; [done|]. simpl. unfold settle at 2.
    rewrite lookup_nil. apply IHl. }
  rewrite Hfold. cbn [mapM mbind option_bind mret option_ret].
  rewrite app_nil_r. by apply IH.
Qed.

(** X19.  The answer does not depend on the size of the chunks: with any
    chunk size of at least 1, and the promises of each chunk settling in
    any order, the loop returns the sequential map of the worker.  A
    chunk size of 0 would never leave the loop; the handler's
    CONCURRENCY is between 1 and 10. *)
Theorem chunk_size_does_not_matter (work : string -> option Metric.t)
    (order : nat -> list nat) (tickers : list string) (c fuel : nat) (v : QueryVal) :
  (1 <= c ->
   (forall i, order i ≡ₚ seq 0 (length (slice i (i + c) tickers))) ->
   batches (S (length tickers)) work order tickers c 0 [] = mapM work tickers)
  /\ (tickers <> [] -> batches fuel work order tickers 0 0 [] = None)
  /\ (1 <= CONCURRENCY (LIMIT v) <= 10)%Z.
Proof.
  split; [|split].
  - intros Hc Hord. by apply batches_map.
  - apply zero_chunk_loops.
  - apply CONCURRENCY_bounds.
Qed.

Lemma chunk_size_does_not_matter_witness :
  batches 4 (worker 1 Sample.calm "day") (Sample.reversed 1) Sample.tickers 1 0 []
  = mapM (worker 1 Sample.calm "day") Sample.tickers
  /\ batches 50 (worker 1 Sample.calm "day") (Sample.reversed 0) Sample.tickers 0 0 []
     = None.
Proof.
  pose proof (chunk_size_does_not_matter (worker 1 Sample.calm "day") (Sample.reversed 1)
                Sample.tickers 1 50 QMissing) as (H1 & _ & _).
  pose proof (chunk_size_does_not_matter (worker 1 Sample.calm "day") (Sample.reversed 0)
                Sample.tickers 0 50 QMissing) as (_ & H0 & _).
  split.
  - apply H1; [lia|]. intros i. apply reverse_Permutation.
  - apply H0. discriminate.
Defined.

(** ** Interval answers that are not what is expected *)

(** X20.  A 2xx interval answer of an unexpected shape does not break
    the hour metric.  When [intervals] is missing or not an array, the
    metric is [{ticker, null, null}] and nothing is thrown; when the body
    is the JSON value null, the read of [intervals] throws and the worker
    catches it, with the same metric. *)
Theorem odd_interval_answers_give_nulls (fuel : nat) (up : Upstream) (t : string)
    (status : nat) (j iv : JsVal) :
  intervals up t = Responded status (Ok j) ->
  ok status = true ->
  (get j "intervals" = Ok iv -> (forall xs, iv <> JArr xs) ->
     worker_try fuel up "hour" t
     = Some (Ok {| Metric.ticker := t; Metric.price := JNull;
                   Metric.changePercent := JNull |}))
  /\ (j = JNull \/ j = JUndefined ->
      (exists msg, worker_try fuel up "hour" t = Some (Throw msg))
      /\ worker fuel up "hour" t
         = Some {| Metric.ticker := t; Metric.price := JNull;
                   Metric.changePercent := JNull |}).
Proof.
  intros Hi Hok. split.
  - intros Hg Hna. unfold worker_try, latest15mClose. simpl String.eqb. cbv iota.
    rewrite Hi, Hok. cbn [negb bind]. rewrite Hg. cbn [bind].
    replace (array_or_empty iv) with (@nil JsVal); [done|].
    destruct iv as [| | | | |xs|]; try done. by destruct (Hna xs).
  - intros Hj.
    assert (exists msg, latest15mClose up t = Throw msg) as [msg Hl].
    { unfold latest15mClose. rewrite Hi, Hok. destruct Hj as [-> | ->]; by eexists. }
    split.
    + exists msg. unfold worker_try. simpl String.eqb. cbv iota. by rewrite Hl.
    + unfold worker, worker_try. simpl String.eqb. cbv iota. by rewrite Hl.
Qed.

Lemma odd_interval_answers_give_nulls_witness :
  worker_try 0 Sample3.bars_not_array "hour" "AAPL"
  = Some (Ok {| Metric.ticker := "AAPL"; Metric.price := JNull;
                Metric.changePercent := JNull |})
  /\ worker 0 Sample3.null_body "hour" "AAPL"
     = Some {| Metric.ticker := "AAPL"; Metric.price := JNull;
               Metric.changePercent := JNull |}.
Proof.
  split.
  - apply (proj1 (odd_interval_answers_give_nulls 0 Sample3.bars_not_array "AAPL" 200
             (JObj [("intervals", JStr "none")]) (JStr "none") eq_refl eq_refl));
      [reflexivity|discriminate].
  - apply (proj2 (odd_interval_answers_give_nulls 0 Sample3.null_body "AAPL" 200
             JNull JNull eq_refl eq_refl)). by left.
Defined.

(** ** The earlier variant against the later one *)

Lemma earlier_hourly_same arr :
  Earlier.hourlyChangeFromIntervals arr = hourlyChangeFromIntervals arr.
Proof.
  destruct arr as [| | | | |xs|]; try reflexivity.
  unfold Earlier.hourlyChangeFromIntervals, hourlyChangeFromIntervals.
  destruct (Nat.ltb_spec (length xs) 6) as [H|H]; [reflexivity|].
  destruct (Z.ltb_spec (Z.of_nat (length xs) - 1 - 5) 0) as [H'|H']; [lia|].
  replace (Z.to_nat (Z.of_nat (length xs) - 1 - 5)) with (length xs - 1 - 5) by lia.
  reflexivity.
Qed.

Lemma earlier_latest_same up t :
  Earlier.latest15mClose up t
  = (latest <- latest15mClose up t ;;
     Ok {| Earlier.Latest.price := Latest.price latest;
           Earlier.Latest.last :=
             if Nat.eqb (length (Latest.intervals latest)) 0 then JNull
             else last_elem (Latest.intervals latest);
           Earlier.Latest.intervals := Latest.intervals latest |}).
Proof.
  unfold Earlier.latest15mClose, latest15mClose.
  destruct (intervals up t) as [|status body]; [done|].
  destruct (negb (ok status)); [done|].
  destruct body as [j|]; [|done]. cbn [bind].
  destruct (get j "intervals") as [iv|]; [|done]. cbn [bind].
  destruct (numeric_close _) as [p|]; done.
Qed.

(** X13.  On the hour range the two variants of the worker are the same
    function: the extra test on [idxBase] of the earlier
    [hourlyChangeFromIntervals] never fires, and both read the same price
    and bars. *)
Theorem variants_agree_on_hour (fuel fuel' : nat) (up : Upstream) (t : string)
    (arr : JsVal) :
  Earlier.hourlyChangeFromIntervals arr = hourlyChangeFromIntervals arr
  /\ Earlier.work fuel up "hour" t = worker fuel' up "hour" t.
Proof.
  split; [apply earlier_hourly_same|].
  unfold Earlier.work, Earlier.work_try, worker, worker_try.
  simpl String.eqb. cbv iota. rewrite earlier_latest_same.
  destruct (latest15mClose up t) as [latest|]; [|done]. cbn [bind Earlier.Latest.intervals].
  rewrite earlier_hourly_same.
  destruct (hourlyChangeFromIntervals _) as [h|]; done.
Qed.

Lemma sessions_same range :
  sessionsMap_at range <> Some Inherited ->
  default (Sessions 1) (sessionsMap_at range) = Earlier.sessions_of range.
Proof.
  unfold Earlier.sessions_of.
  destruct (String.eqb_spec range "day") as [->|H1]; [intros _; by vm_compute|].
  destruct (String.eqb_spec range "week") as [->|H2]; [intros _; by vm_compute|].
  destruct (String.eqb_spec range "month") as [->|H3]; [intros _; by vm_compute|].
  destruct (String.eqb_spec range "year") as [->|H4]; [intros _; by vm_compute|].
  unfold sessionsMap_at, sessionsMap.
  rewrite !lookup_insert_ne, lookup_empty by done.
  by destruct (bool_decide (range ∈ object_prototype_names)).
Qed.

Lemma earlier_eod_nonempty up t hist sb :
  hist <> [] ->
  (if Nat.eqb (length hist) 0
   then Ok {| Eod.base := JNull; Eod.now := JNull; Eod.changePct := JNull |}
   else
     latest15 <- Earlier.latest15mClose up t ;;
     base <- numeric_close (baseRow hist sb) ;;
     match Earlier.Latest.price latest15, base with
     | JNum n, JNum b =>
         if is_zero b
         then Ok {| Eod.base := JNull;
                    Eod.now := or_null (Earlier.Latest.price latest15);
                    Eod.changePct := JNull |}
         else Ok {| Eod.base := base; Eod.now := Earlier.Latest.price latest15;
                    Eod.changePct := JNum (percent n b) |}
     | _, _ => Ok {| Eod.base := JNull;
                     Eod.now := or_null (Earlier.Latest.price latest15);
                     Eod.changePct := JNull |}
     end)
  = (latest <- latest15mClose up t ;; eodChange hist (Latest.price latest) sb).
Proof.
  intros Hne. destruct hist as [|row hist]; [done|]. cbn [length Nat.eqb].
  rewrite earlier_latest_same. destruct (latest15mClose up t) as [latest|] eqn:Hl; [|done].
  cbn [bind Earlier.Latest.price].
  destruct (numeric_close_total (baseRow (row :: hist) sb)) as [b Hb]. rewrite Hb.
  cbn [bind]. unfold eodChange. cbn [length Nat.eqb]. rewrite Hb. cbn [bind].
  destruct (latest_price_cases _ _ _ Hl) as [->|[x ->]]; [done|].
  destruct b as [| | |b0| | |]; try done; by destruct (is_zero b0).
Qed.

(** X14.  On a range that the table answers with a number or not at
    all, the two variants return under the same conditions and always
    give the same changePercent; they give the same price too unless the
    history came back empty, where the earlier variant does not ask for
    the intraday close and reports a null price. *)
Theorem variants_agree_on_sessions (fuel : nat) (up : Upstream) (range t : string)
    (m m' : Metric.t) :
  String.eqb range "hour" = false ->
  sessionsMap_at range <> Some Inherited ->
  (is_Some (worker fuel up range t) <-> is_Some (Earlier.work fuel up range t))
  /\ (worker fuel up range t = Some m ->
      Earlier.work fuel up range t = Some m' ->
      Metric.ticker m = Metric.ticker m'
      /\ Metric.changePercent m = Metric.changePercent m'
      /\ (Metric.price m = Metric.price m'
          \/ (Metric.price m' = JNull
              /\ fetchEodHistory fuel up t (Earlier.sessions_of range) = Some (Ok [])))).
Proof.
  intros Hr Hi. unfold worker, worker_try, Earlier.work, Earlier.work_try.
  unfold eodChangeVsLatest15m, Earlier.eodChangeVsLatest15m.
  rewrite Hr, (sessions_same range Hi).
  destruct (fetchEodHistory fuel up t (Earlier.sessions_of range)) as [[hist|msg]|];
    cbn [mbind option_bind bind].
  - destruct (decide (hist = [])) as [->|Hne].
    + split; [split; eauto|]. cbn [length Nat.eqb].
      destruct (latest15mClose up t) as [latest|]; cbn [bind eodChange];
        [destruct (Latest.price latest)|];
        intros [= <-] [= <-]; cbn; auto.
    + rewrite (earlier_eod_nonempty up t hist _ Hne).
      split; [done|]. intros H H'. rewrite H in H'. injection H' as <-. auto.
  - split; [done|]. intros [= <-] [= <-]. auto.
  - split; [split; intros [? ?]; done|]. done.
Qed.

Lemma variants_agree_on_sessions_witness :
  worker 1 Sample2.no_history "week" "AAPL"
  = Some {| Metric.ticker := "AAPL"; Metric.price := JNum 110;
            Metric.changePercent := JNull |}
  /\ Earlier.work 1 Sample2.no_history "week" "AAPL"
     = Some {| Metric.ticker := "AAPL"; Metric.price := JNull;
               Metric.changePercent := JNull |}
  /\ (JNum 110 = JNull
      \/ (JNull = JNull
          /\ fetchEodHistory 1 Sample2.no_history "AAPL" (Earlier.sessions_of "week")
             = Some (Ok []))).
Proof.
  split; [reflexivity|]. split; [reflexivity|].
  apply (proj2 (variants_agree_on_sessions 1 Sample2.no_history "week" "AAPL"
           {| Metric.ticker := "AAPL"; Metric.price := JNum 110;
              Metric.changePercent := JNull |}
           {| Metric.ticker := "AAPL"; Metric.price := JNull;
              Metric.changePercent := JNull |}
           eq_refl ltac:(vm_compute; discriminate)) eq_refl eq_refl).
Defined.

(** X15.  In the earlier variant every range other than hour, week,
    month and year is served as day, the names that an object literal
    inherits included. *)
Theorem earlier_fallback_is_day (fuel : nat) (up : Upstream) (range t : string) :
  range ∉ ["hour"; "week"; "month"; "year"] ->
  Earlier.work fuel up range t = Earlier.work fuel up "day" t.
Proof.
  intros H. unfold Earlier.work, Earlier.work_try, Earlier.sessions_of.
  destruct (String.eqb_spec range "hour") as [->|_]; [exfalso; apply H; set_solver|].
  destruct (String.eqb_spec range "day") as [->|_]; [done|].
  destruct (String.eqb_spec range "week") as [->|_]; [exfalso; apply H; set_solver|].
  destruct (String.eqb_spec range "month") as [->|_]; [exfalso; apply H; set_solver|].
  destruct (String.eqb_spec range "year") as [->|_]; [exfalso; apply H; set_solver|].
  reflexivity.
Qed.

Lemma earlier_fallback_is_day_witness :
  Earlier.work 1 Sample.calm "constructor" "AAPL" = Earlier.work 1 Sample.calm "day" "AAPL".
Proof.
  apply (earlier_fallback_is_day 1 Sample.calm "constructor" "AAPL").
  intros H. repeat (apply elem_of_cons in H as [H|H]; [discriminate H|]).
  by apply elem_of_nil in H.
Defined.

(** ** The client *)

Lemma has_ticker_total d : exists b, Client.has_ticker d = Ok b.
Proof.
  unfold Client.has_ticker. destruct (truthy d) eqn:E; [|eauto].
  destruct (truthy_get d "ticker" E) as [v ->]. simpl. eauto.
Qed.

Lemma has_ticker_true d :
  Client.has_ticker d = Ok true -> truthy d = true.
Proof. unfold Client.has_ticker. destruct (truthy d); [done|discriminate]. Qed.

Lemma filter_rows_total ds :
  exists kept_rows, Client.filter_rows ds = Ok kept_rows
    /\ Forall (fun d => truthy d = true) kept_rows
    /\ length kept_rows <= length ds
    /\ (forall d, d ∈ kept_rows -> d ∈ ds).
Proof.
  induction ds as [|d ds (kept_rows & IH & Ht & Hl & Hin)]; simpl.
  - exists []. split; [done|]. split; [apply Forall_nil_2|done].
  - destruct (has_ticker_total d) as [b Hb]. rewrite Hb, IH. simpl.
    destruct b.
    + exists (d :: kept_rows). split; [done|]. split; [|split; [simpl; lia|]].
      * constructor; [by apply has_ticker_true|done].
      * intros d' [->|H]%elem_of_cons; [left|right; auto].
    + exists kept_rows. split; [done|]. split; [done|]. split; [lia|].
      intros d' H. right. auto.
Qed.

Lemma finite_or_null_cases v :
  Client.finite_or_null v = JNull
  \/ exists x, Client.finite_or_null v = JNum x /\ PrimFloat.is_finite x = true.
Proof.
  destruct v as [| | |x| | |]; try (by left). simpl.
  destruct (PrimFloat.is_finite x) eqn:E; [right; eauto|by left].
Qed.

(** A row is built unless the conversion of its ticker throws. *)
Lemma row_of_cases nts d :
  truthy d = true ->
  exists tk, get d "ticker" = Ok tk
    /\ ((String_throws tk = false
         /\ exists r, Client.row_of nts d = Ok r /\ clean_row r)
        \/ (String_throws tk = true /\ Client.row_of nts d = Throw not_primitive)).
Proof.
  intros H. unfold Client.row_of, Client.ToString.
  destruct (truthy_get d "ticker" H) as [tk ->]. exists tk. split; [done|].
  destruct (truthy_get d "price" H) as [p ->].
  destruct (truthy_get d "changePercent" H) as [c ->]. cbn [bind].
  destruct (String_throws tk); [by right|left]. split; [done|]. cbn [bind].
  eexists. split; [reflexivity|]. split; apply finite_or_null_cases.
Qed.

Lemma map_rows_cases nts ds :
  Forall (fun d => truthy d = true) ds ->
  (exists rows, Client.map_rows nts ds = Ok rows
     /\ length rows = length ds /\ Forall clean_row rows)
  \/ (Client.map_rows nts ds = Throw not_primitive
      /\ exists d tk, d ∈ ds /\ get d "ticker" = Ok tk /\ String_throws tk = true).
Proof.
  induction 1 as [|d ds Hd _ IH]; simpl.
  - left. exists []. by repeat split.
  - destruct (row_of_cases nts d Hd) as (tk & Htk & [(Hs & r & -> & Hr)|(Hs & ->)]).
    + cbn [bind]. destruct IH as [(rows & -> & Hl & Hc)|(-> & d' & tk' & Hin & Htk' & Hs')].
      * left. eexists. split; [reflexivity|]. split; [simpl; lia|by constructor].
      * right. split; [done|]. exists d', tk'. split; [by right|done].
    + right. split; [done|]. exists d, tk. split; [by left|done].
Qed.

(** X16.  The normalisation of [fetchRange] on the JSON of a 200 answer.
    The rows it yields are at most 10, no more than the entries of the
    array, and in every row price and changePercent are null or a finite
    number; a value that is not an array gives no row.  It yields rows
    whenever every ticker of the array converts to a string, and it
    throws only the TypeError of a ticker that does not: an object with
    a property toString, or an array that holds one. *)
Theorem client_rows_are_clean (number_to_string : float -> string) (json : JsVal) :
  (forall rows,
     Client.normalize number_to_string json = Ok rows ->
     length rows <= 10
     /\ length rows <= length (array_or_empty json)
     /\ Forall clean_row rows)
  /\ ((forall xs, json <> JArr xs) -> Client.normalize number_to_string json = Ok [])
  /\ ((forall d tk, d ∈ array_or_empty json -> get d "ticker" = Ok tk ->
         String_throws tk = false) ->
      exists rows, Client.normalize number_to_string json = Ok rows)
  /\ (forall msg,
        Client.normalize number_to_string json = Throw msg ->
        msg = not_primitive
        /\ exists d tk, d ∈ array_or_empty json /\ get d "ticker" = Ok tk
             /\ String_throws tk = true).
Proof.
  unfold Client.normalize.
  destruct (filter_rows_total (array_or_empty json)) as (kept_rows & -> & Ht & Hl & Hin).
  cbn [bind].
  assert (forall d, d ∈ take Client.LIMIT kept_rows -> d ∈ array_or_empty json) as Hin'.
  { intros d Hd. apply Hin. eapply subseteq_take, Hd. }
  destruct (map_rows_cases number_to_string (take Client.LIMIT kept_rows))
    as [(rows & Hr & Hlen & Hc)|(Hr & d & tk & Hd & Htk & Hs)]; [by apply Forall_take|..];
    rewrite Hr; (split; [|split; [|split]]).
  - intros ? [= <-]. rewrite length_take in Hlen. unfold Client.LIMIT in Hlen.
    split; [lia|]. split; [lia|done].
  - intros Hna. destruct json as [| | | | |xs|];
      try (destruct rows; [done|exfalso; rewrite length_take in Hlen;
                           cbn [array_or_empty length] in *; lia]).
    by destruct (Hna xs).
  - eauto.
  - discriminate.
  - discriminate.
  - intros Hna. exfalso. apply Hin' in Hd.
    destruct json as [| | | | |xs|]; try (by apply elem_of_nil in Hd).
    by destruct (Hna xs).
  - intros Hall. rewrite (Hall d tk (Hin' _ Hd) Htk) in Hs. discriminate.
  - intros ? [= <-]. split; [done|]. exists d, tk. auto.
Qed.

Lemma client_rows_are_clean_witness :
  Client.normalize Sample3.no_digits Sample3.untidy
  = Ok [ {| Client.Row.ticker := "AAPL"; Client.Row.price := JNull;
            Client.Row.changePercent := JNull |};
         {| Client.Row.ticker := "MSFT"; Client.Row.price := JNum 3;
            Client.Row.changePercent := JNum (-2) |} ]
  /\ Client.normalize Sample3.no_digits (JObj [("error", JStr "x")]) = Ok []
  /\ Client.normalize Sample3.no_digits Sample3.odd_ticker = Throw not_primitive
  /\ length [ {| Client.Row.ticker := "AAPL"; Client.Row.price := JNull;
                 Client.Row.changePercent := JNull |};
              {| Client.Row.ticker := "MSFT"; Client.Row.price := JNum 3;
                 Client.Row.changePercent := JNum (-2) |} ] <= 10.
Proof.
  split; [reflexivity|]. split; [|split; [reflexivity|]].
  - apply (proj1 (proj2 (client_rows_are_clean Sample3.no_digits
                           (JObj [("error", JStr "x")])))).
    intros xs. discriminate.
  - apply (proj1 (client_rows_are_clean Sample3.no_digits Sample3.untidy)).
    reflexivity.
Defined.

(** ** From the handler to the client *)

Lemma wire_then_finite v :
  v = JNull \/ (exists x, v = JNum x) ->
  Client.finite_or_null (over_the_wire v) = over_the_wire v.
Proof.
  intros [->|[x ->]]; [done|]. simpl.
  destruct (PrimFloat.is_finite x) eqn:E; [|done].
  destruct (is_zero x); [done|]. simpl. by rewrite E.
Qed.

Lemma client_reads_metrics nts (ms : list Metric.t) :
  Forall (fun m => Metric.ticker m <> "") ms ->
  Client.filter_rows (metric_on_the_wire <$> ms) = Ok (metric_on_the_wire <$> ms)
  /\ Client.map_rows nts (metric_on_the_wire <$> ms) = Ok (client_row <$> ms).
Proof.
  induction 1 as [|m ms Hm _ [IH1 IH2]]; [done|]. csimpl. split.
  - unfold Client.has_ticker. simpl.
    destruct (String.eqb_spec (Metric.ticker m) ""); [done|]. simpl.
    by rewrite IH1.
  - unfold Client.row_of. simpl. by rewrite IH2.
Qed.

(** X17.  What the handler answers reaches the client whole.  When the
    handler sends a 200 with at most 10 metrics (the client asks for
    limit=10), [fetchRange] yields one row per metric, in the same order
    and with the same ticker, null where the metric holds null or a
    number that JSON cannot carry; when the answer is not 2xx,
    [fetchRange] throws a message made of the status and the URL,
    whatever the body says. *)
Theorem client_keeps_every_metric (number_to_string : float -> string)
    (fuel : nat) (key : option string) (up : Upstream) (order : nat -> list nat)
    (q : Query.t) (items : list Metric.t) (api : string -> Fetched JsVal)
    (range : string) (status : nat) (body : Result JsVal) :
  (sp500 fuel key up order q = Some (Json200 items) ->
   (LIMIT (Query.limit q) <= 10)%Z ->
   api (Client.url range) = Responded 200 (Ok (JArr (metric_on_the_wire <$> items))) ->
   Client.fetchRange number_to_string api range = Ok (client_row <$> items)
   /\ Forall clean_row (client_row <$> items)
   /\ Forall (fun m =>
         Client.Row.price (client_row m) = over_the_wire (Metric.price m)
         /\ Client.Row.changePercent (client_row m)
            = over_the_wire (Metric.changePercent m)) items)
  /\ (api (Client.url range) = Responded status body ->
      ok status = false ->
      Client.fetchRange number_to_string api range
      = Throw ("HTTP " ++ pretty status ++ " for " ++ Client.url range)%string).
Proof.
  split.
  - intros H Hlim Hapi.
    destruct (sp500_200_listed _ _ _ _ _ _ H) as (r & tickers & Hk & Hr & Hl).
    pose proof (sp500_sound fuel key up order q r tickers Hk Hr Hl items H) as Hs.
    pose proof (sp500_length _ _ _ _ _ _ H) as Hlen.
    destruct (mapM_workers _ _ _ _ _ Hs) as [_ Ht].
    destruct (getTopTickers_returns _ _ _ Hl) as (_ & _ & Hne).
    assert (Forall (fun m => Metric.ticker m <> "") items) as Hitems.
    { apply Forall_forall. intros m Hm. rewrite Forall_forall in Hne. apply Hne.
      rewrite <- Ht. apply list_elem_of_fmap. eauto. }
    destruct (client_reads_metrics number_to_string items Hitems) as [Hf Hm].
    assert (Client.fetchRange number_to_string api range = Ok (client_row <$> items)) as E.
    { unfold Client.fetchRange. rewrite Hapi. cbn [ok between Nat.leb andb negb bind].
      unfold Client.normalize. cbn [array_or_empty]. rewrite Hf. cbn [bind].
      rewrite take_ge; [done|]. rewrite length_fmap. unfold Client.LIMIT. lia. }
    split; [done|]. split.
    { apply Forall_fmap, Forall_forall. intros m _. split; apply finite_or_null_cases. }
    apply Forall_forall. intros m Hin.
    apply list_elem_of_lookup in Hin as [i Hi]. apply mapM_Some_1 in Hs.
    destruct (Forall2_lookup_r _ _ _ _ _ Hs Hi) as (tk & _ & Hw).
    split; apply wire_then_finite.
    + eapply worker_price_shape, Hw.
    + destruct (worker_changePercent_shape _ _ _ _ _ Hw) as [->|(n & b & _ & ->)]; eauto.
  - intros Hapi Hok. unfold Client.fetchRange. by rewrite Hapi, Hok.
Qed.

Lemma client_keeps_every_metric_witness :
  Client.fetchRange Sample3.no_digits
    (fun _ => Responded 200 (Ok (JArr (metric_on_the_wire <$>
       [ {| Metric.ticker := "AAPL"; Metric.price := JNum 0x1p1000;
            Metric.changePercent := JNum infinity |} ]))))
    "hour"
  = Ok [ {| Client.Row.ticker := "AAPL"; Client.Row.price := JNum 0x1p1000;
            Client.Row.changePercent := JNull |} ].
Proof.
  apply (proj1 (client_keeps_every_metric Sample3.no_digits 1 (Some "key") Sample.steep
           (Sample.in_order 10) (Sample.query (QStr "hour") (QStr "1"))
           [ {| Metric.ticker := "AAPL"; Metric.price := JNum 0x1p1000;
                Metric.changePercent := JNum infinity |} ]
           (fun _ => Responded 200 (Ok (JArr (metric_on_the_wire <$>
              [ {| Metric.ticker := "AAPL"; Metric.price := JNum 0x1p1000;
                   Metric.changePercent := JNum infinity |} ]))))
           "hour" 200 (Throw ""))).
  - vm_compute. reflexivity.
  - vm_compute. discriminate.
  - reflexivity.
Defined.

(** ** The URL of a request *)

Lemma all_chars_app p s t :
  all_chars p (s ++ t)%string = all_chars p s && all_chars p t.
Proof. induction s as [|c s IH]; [done|]. simpl. by rewrite IH, andb_assoc. Qed.

Lemma encode_unit_inert c :
  all_chars component_char (Client.encode_unit c) = true
  /\ 1 <= String.length (Client.encode_unit c) <= 6
  /\ (Client.unreserved c = true -> Client.encode_unit c = String c "").
Proof.
  destruct c as [[] [] [] [] [] [] [] []]; vm_compute;
    (split; [reflexivity|split; [lia|first [discriminate|reflexivity]]]).
Qed.

Lemma string_app_length (s t : string) :
  String.length (s ++ t)%string = String.length s + String.length t.
Proof. induction s as [|c s IH]; [done|]. simpl. by rewrite IH. Qed.

Lemma hex_inert n : component_char (Client.hex n) = true.
Proof.
  unfold Client.hex.
  do 16 (destruct n as [|n]; [reflexivity|]). reflexivity.
Qed.

Lemma percent_octets_inert os :
  all_chars component_char (Client.percent_octets os) = true
  /\ String.length (Client.percent_octets os) = 3 * length os.
Proof.
  induction os as [|o os [IH1 IH2]]; [done|].
  cbn [Client.percent_octets length]. unfold Client.percent_byte.
  rewrite all_chars_app, string_app_length, IH1, IH2.
  cbn [all_chars String.length]. rewrite !hex_inert. split; [done|lia].
Qed.

Lemma utf8_length cp :
  1 <= length (Client.utf8 cp) <= 4
  /\ ((cp < 65536)%N -> length (Client.utf8 cp) <= 3).
Proof.
  unfold Client.utf8.
  destruct (N.ltb_spec cp 0x80); [simpl; lia|].
  destruct (N.ltb_spec cp 0x800); [simpl; lia|].
  destruct (N.ltb_spec cp 0x10000); simpl; lia.
Qed.

Lemma unreserved_unit_inert u :
  Client.unreserved_unit u = true -> component_char (ascii_of_N u) = true.
Proof.
  unfold Client.unreserved_unit, component_char.
  intros [_ H]%andb_prop. by rewrite H.
Qed.

(** What [encode_units] yields, by the number of units still to read. *)
Lemma encode_units_inert n : forall l e,
  length l <= n ->
  Forall code_unit l ->
  Client.encode_units l = Ok e ->
  all_chars component_char e = true
  /\ length l <= String.length e <= 9 * length l.
Proof.
  induction n as [|n IH]; intros l e Hn Hu.
  { destruct l; [|simpl in Hn; lia]. intros [= <-]. simpl. split; [done|lia]. }
  destruct l as [|u r]; [intros [= <-]; simpl; split; [done|lia]|].
  apply Forall_cons in Hu as [Hu Hr]. cbn [Client.encode_units length] in *.
  destruct (Client.unreserved_unit u) eqn:Eu.
  { destruct (Client.encode_units r) as [rest|] eqn:Er; [|discriminate].
    cbn [bind]. intros [= <-].
    destruct (IH r rest ltac:(lia) Hr Er) as [H1 H2].
    cbn [all_chars String.length]. rewrite (unreserved_unit_inert u Eu), H1.
    split; [done|lia]. }
  destruct (Client.low_surrogate u); [discriminate|].
  destruct (Client.high_surrogate u).
  - destruct r as [|lo r']; [discriminate|].
    destruct (Client.low_surrogate lo); [|discriminate].
    apply Forall_cons in Hr as [_ Hr'].
    destruct (Client.encode_units r') as [rest|] eqn:Er; [|discriminate].
    cbn [bind]. intros [= <-]. cbn [length] in *.
    destruct (IH r' rest ltac:(lia) Hr' Er) as [H1 H2].
    destruct (percent_octets_inert (Client.utf8 (Client.code_point u lo))) as [H3 H4].
    destruct (utf8_length (Client.code_point u lo)) as [H5 _].
    rewrite all_chars_app, H3, H1, string_app_length, H4. split; [done|lia].
  - destruct (Client.encode_units r) as [rest|] eqn:Er; [|discriminate].
    cbn [bind]. intros [= <-].
    destruct (IH r rest ltac:(lia) Hr Er) as [H1 H2].
    destruct (percent_octets_inert (Client.utf8 u)) as [H3 H4].
    destruct (utf8_length u) as [H5 H6]. specialize (H6 Hu).
    rewrite all_chars_app, H3, H1, string_app_length, H4. split; [done|lia].
Qed.

(** [encode_units] throws exactly on a surrogate without its partner. *)
Lemma encode_units_throws n : forall l,
  length l <= n ->
  (paired l = true -> exists e, Client.encode_units l = Ok e)
  /\ (paired l = false -> Client.encode_units l = Throw Client.URIError).
Proof.
  induction n as [|n IH]; intros l Hn.
  { destruct l; [|simpl in Hn; lia]. split; [by eexists|done]. }
  destruct l as [|u r]; [split; [by eexists|done]|].
  cbn [Client.encode_units paired length] in *.
  destruct (Client.unreserved_unit u) eqn:Eu.
  { assert (Client.high_surrogate u = false /\ Client.low_surrogate u = false) as [-> ->].
    { unfold Client.unreserved_unit in Eu. apply andb_prop in Eu as [Hlt%N.ltb_lt _].
      unfold Client.high_surrogate, Client.low_surrogate, Client.in_range.
      split; apply andb_false_iff; left; apply N.leb_gt; lia. }
    cbn [negb andb]. destruct (IH r ltac:(lia)) as [H1 H2]. split.
    - intros Hp. destruct (H1 Hp) as [e ->]. by eexists.
    - intros Hp. by rewrite (H2 Hp). }
  destruct (Client.high_surrogate u) eqn:Eh.
  - assert (Client.low_surrogate u = false) as ->.
    { unfold Client.high_surrogate, Client.low_surrogate, Client.in_range in *.
      apply andb_prop in Eh as [_ Hle%N.leb_le].
      apply andb_false_iff; left; apply N.leb_gt; lia. }
    destruct r as [|lo r']; [split; done|].
    destruct (Client.low_surrogate lo); [|split; done]. cbn [andb length] in *.
    destruct (IH r' ltac:(lia)) as [H1 H2]. split.
    + intros Hp. destruct (H1 Hp) as [e ->]. by eexists.
    + intros Hp. by rewrite (H2 Hp).
  - destruct (Client.low_surrogate u); [split; done|]. cbn [negb andb].
    destruct (IH r ltac:(lia)) as [H1 H2]. split.
    + intros Hp. destruct (H1 Hp) as [e ->]. by eexists.
    + intros Hp. by rewrite (H2 Hp).
Qed.

(** On a string of code units below 256, [encode_units] is the encoding
    that [Client.url] writes. *)
Lemma encode_units_string s :
  Client.encode_units (Client.units s) = Ok (Client.encodeURIComponent s).
Proof.
  induction s as [|c s IH]; [done|].
  cbn [Client.units Client.encodeURIComponent].
  assert (forall r, Client.encode_units (N_of_ascii c :: r)
                    = (rest <- Client.encode_units r ;;
                       Ok (Client.encode_unit c ++ rest)%string)) as ->.
  { intros r. destruct c as [[] [] [] [] [] [] [] []]; reflexivity. }
  by rewrite IH.
Qed.

(** X18.  The encoding of the range in the URL that [fetchRange] asks
    for, on every string of the language.  It throws exactly when a
    surrogate stands without its partner; otherwise the encoded range
    holds only unreserved characters and percent signs, so it cannot end
    the parameter or start another one, and it is at least as long as
    the range and at most nine times as long.  A range of unreserved
    characters, such as the five tab names, is sent as it is, and on the
    strings of code units below 256 the encoding is the one of
    [Client.url]. *)
Theorem request_url_is_well_formed (range : list N) (s : string) :
  Forall code_unit range ->
  (paired range = false -> Client.url_of_units range = Throw Client.URIError)
  /\ (paired range = true ->
      exists e,
        Client.encode_units range = Ok e
        /\ Client.url_of_units range = Ok ("/api/sp500?range=" ++ e ++ "&limit=10")%string
        /\ all_chars component_char e = true
        /\ length range <= String.length e <= 9 * length range)
  /\ Client.url_of_units (Client.units s) = Ok (Client.url s)
  /\ (all_chars Client.unreserved s = true -> Client.encodeURIComponent s = s).
Proof.
  intros Hu. destruct (encode_units_throws (length range) range (le_n _)) as [H1 H2].
  split; [|split; [|split]].
  - intros Hp. unfold Client.url_of_units. by rewrite (H2 Hp).
  - intros Hp. destruct (H1 Hp) as [e He]. exists e. split; [done|].
    unfold Client.url_of_units. rewrite He. split; [done|].
    by apply (encode_units_inert (length range) range e).
  - unfold Client.url_of_units. by rewrite encode_units_string.
  - induction s as [|c r IH]; [done|]. cbn [all_chars Client.encodeURIComponent].
    intros [Hc Hr]%andb_prop.
    destruct (encode_unit_inert c) as (_ & _ & H3). by rewrite (H3 Hc), (IH Hr).
Qed.

Lemma request_url_is_well_formed_witness :
  Client.url_of_units [0x20AC]%N = Ok "/api/sp500?range=%E2%82%AC&limit=10"
  /\ Client.url_of_units [0xD83D; 0xDE00]%N = Ok "/api/sp500?range=%F0%9F%98%80&limit=10"
  /\ Client.url_of_units [0x61; 0xD800; 0x62]%N = Throw Client.URIError
  /\ Client.url_of_units (Client.units "a&b=c d")
     = Ok "/api/sp500?range=a%26b%3Dc%20d&limit=10"
  /\ Client.encodeURIComponent "week" = "week".
Proof.
  split; [reflexivity|]. split; [reflexivity|]. split; [|split].
  - apply (proj1 (request_url_is_well_formed [0x61; 0xD800; 0x62]%N ""
                    ltac:(repeat (constructor; [reflexivity|]); constructor))).
    reflexivity.
  - exact (proj1 (proj2 (proj2 (request_url_is_well_formed [] "a&b=c d"
                                  (Forall_nil_2 _))))).
  - apply (proj2 (proj2 (proj2 (request_url_is_well_formed [] "week"
                                  (Forall_nil_2 _))))). reflexivity.
Defined.
